(** * system_packages.py: package inventory, reconciliation and grouping

    A shallow embedding of [src/system_packages.py] (class [PackageManager]
    and its three collectors [LogsPackages], [MarkedPackages] and
    [SnapPackages]) together with the properties its specification states.

    Conventions of the embedding:
    - a Python [str] is a [string]; its characters stand for code points
      below 256;
    - a Python [set] of strings is a [gset string], a [dict] with string
      keys a [gmap string _];
    - the class attribute [_childs] is a list of instances, an instance is
      referred to by its position in that list;
    - [subprocess.run] is an oracle over an abstract world that is threaded
      through the collectors; it stands for a process that starts and
      whose output decodes, so what is said of a collector is said of the
      runs in which every process did;
    - the file system is a tree of names below a root, with the working
      directory of the process;
    - exceptions are values of [exn], fallible methods return a [result]. *)

From Stdlib Require Import Ascii NArith.
From stdpp Require Import gmap strings list fin_maps sorting.

Local Open Scope bool_scope.

(** ** Python string primitives *)

Module PyStr.

(** The line feed, as a one-character string. *)
Definition LF : string := String "010"%char "".

(** [s[n:]] *)
Fixpoint drop (n : nat) (s : string) : string :=
  match n, s with
  | O, _ => s
  | S _, "" => ""
  | S k, String _ s' => drop k s'
  end.

(** [sub in s] *)
Fixpoint contains (sub s : string) : bool :=
  String.prefix sub s ||
  match s with
  | "" => false
  | String _ s' => contains sub s'
  end.

(** [str.replace] for a non-empty [old]: occurrences are found from the
    left and do not overlap.  [skip] counts the characters of the current
    occurrence that are still to be passed over. *)
Fixpoint replace_from (old new : string) (skip : nat) (s : string) : string :=
  match s with
  | "" => ""
  | String c s' =>
      match skip with
      | S k => replace_from old new k s'
      | O =>
          if String.prefix old s
          then new +:+ replace_from old new (String.length old - 1) s'
          else String c (replace_from old new 0 s')
      end
  end.

(** [str.replace] for the empty [old]: [new] goes before every character
    and at the end. *)
Fixpoint replace_empty (new s : string) : string :=
  new +:+ match s with
          | "" => ""
          | String c s' => String c (replace_empty new s')
          end.

(** [s.replace(old, new)] *)
Definition replace (old new s : string) : string :=
  match old with
  | "" => replace_empty new s
  | _ => replace_from old new 0 s
  end.

Definition cons_hd (c : ascii) (l : list string) : list string :=
  match l with
  | [] => [String c ""]
  | x :: xs => String c x :: xs
  end.

Fixpoint split_from (sep : string) (skip : nat) (s : string) : list string :=
  match s with
  | "" => [""]
  | String c s' =>
      match skip with
      | S k => split_from sep k s'
      | O =>
          if String.prefix sep s
          then "" :: split_from sep (String.length sep - 1) s'
          else cons_hd c (split_from sep 0 s')
      end
  end.

(** [s.split(sep)] for a non-empty [sep] (Python raises [ValueError] on an
    empty one; every call in the program passes a non-empty literal). *)
Definition split (sep s : string) : list string := split_from sep 0 s.

(** [l[0]] for a list that [split] returned: such a list is never empty
    (lemma [split_nonempty] below), so the [IndexError] branch is dead. *)
Definition item0 (l : list string) : string :=
  match l with
  | x :: _ => x
  | [] => ""
  end.

(** [c.isspace()] on code points below 256: TAB, LF, VT, FF, CR, the four
    separators FS, GS, RS, US, SPACE, NEL and NO-BREAK SPACE. *)
Definition isspace (c : ascii) : bool :=
  let n := N_of_ascii c in
  ((9 <=? n) && (n <=? 13) || (28 <=? n) && (n <=? 32) ||
   (n =? 133) || (n =? 160))%N.

(** [s.lstrip()] *)
Fixpoint lstrip (s : string) : string :=
  match s with
  | "" => ""
  | String c s' => if isspace c then lstrip s' else s
  end.

(** [s.rstrip()] *)
Fixpoint rstrip (s : string) : string :=
  match s with
  | "" => ""
  | String c s' =>
      match rstrip s' with
      | "" => if isspace c then "" else String c ""
      | r => String c r
      end
  end.

(** [s.strip()] *)
Definition strip (s : string) : string := rstrip (lstrip s).

(** [sep.join(l)] *)
Fixpoint join (sep : string) (l : list string) : string :=
  match l with
  | [] => ""
  | x :: xs =>
      match xs with
      | [] => x
      | _ => x +:+ sep +:+ join sep xs
      end
  end.

End PyStr.

(** ** Exceptions *)

Inductive exn : Type :=
| UnboundLocalError (name : string)
| AttributeError (attr : string)
| FileNotFoundError
| NotADirectoryError
| IsADirectoryError
| FileExistsError
| ValueError.

Inductive result (A : Type) : Type :=
| Ok (a : A)
| Raise (e : exn).

Arguments Ok {A} a.
Arguments Raise {A} e.

#[global] Instance result_ret : MRet result := fun _ a => Ok a.
#[global] Instance result_bind : MBind result :=
  fun _ _ f r => match r with Ok a => f a | Raise e => Raise e end.

(** Reading a local variable that no assignment has reached. *)
Definition local {A : Type} (name : string) (v : option A) : result A :=
  match v with
  | Some a => Ok a
  | None => Raise (UnboundLocalError name)
  end.

(** ** Instances and the class-level registry *)

Inductive Class : Type :=
| cPackageManager
| cLogsPackages
| cMarkedPackages
| cSnapPackages.

#[global] Instance Class_eq_dec : EqDecision Class.
Proof. solve_decision. Defined.

(** The two attributes a collector's [main] stores on [self]. *)
Record attrs : Type := Attrs {
  pkgs_names : gset string;
  pkgs_dpnds : gset string
}.

(** An instance: its class, and its attributes once [main] has stored them
    (both are assigned by one tuple assignment, so they come together). *)
Record instance : Type := Instance {
  class_of : Class;
  fields : option attrs
}.

(** The three collectors derive from [PackageManager] and nothing derives
    from them. *)
Definition issubclass (k c : Class) : bool :=
  bool_decide (k = c) || bool_decide (c = cPackageManager).

Definition isinstance (child : instance) (c : Class) : bool :=
  issubclass (class_of child) c.

(** [child.pkgs_names] and [child.pkgs_dpnds] *)
Definition get_pkgs_names (child : instance) : result (gset string) :=
  match fields child with
  | Some a => Ok (pkgs_names a)
  | None => Raise (AttributeError "pkgs_names")
  end.

Definition get_pkgs_dpnds (child : instance) : result (gset string) :=
  match fields child with
  | Some a => Ok (pkgs_dpnds a)
  | None => Raise (AttributeError "pkgs_dpnds")
  end.

(** [self.pkgs_names, self.pkgs_dpnds = pkgs_names, pkgs_dpnds], where
    [self] is the position of the instance in [_childs]. *)
Definition set_pkgs (self : nat) (a : attrs) (_childs : list instance)
  : list instance :=
  alter (fun i => {| class_of := class_of i; fields := Some a |}) self _childs.

(** ** The file system, as far as [save_data] uses it

    A file or a directory is named by the names from the root down to it;
    the root is the empty list and always a directory.  The state holds
    the working directory of the process, the directories and the content
    of the regular files.  Paths are read as on Linux, where the program
    runs: names are separated by slashes and compared as they are written.
    Symbolic links, permissions and the limits on the length of a name and
    on space are outside the model. *)
Record filesystem : Type := FS {
  cwd : list string;
  dirs : gset (list string);
  files : gmap (list string) string
}.

Definition is_dir (fs : filesystem) (p : list string) : bool :=
  bool_decide (p = []) || bool_decide (p ∈ dirs fs).

Definition is_file (fs : filesystem) (p : list string) : bool :=
  bool_decide (is_Some (files fs !! p)).

(** The character that no path may hold. *)
Definition NUL : string := String "000"%char "".

(** The way along the names of a path, from the directory [cur] on: a
    name is looked up in a directory only; the empty name (between two
    slashes) and [.] stay where they are, [..] goes up and stays at the
    root. *)
Fixpoint walk (fs : filesystem) (cur : list string) (names : list string)
  : result (list string) :=
  match names with
  | [] => Ok cur
  | name :: rest =>
      if is_dir fs cur then
        walk fs
          (if bool_decide (name = "" \/ name = ".") then cur
           else if bool_decide (name = "..") then removelast cur
           else cur ++ [name])
          rest
      else if is_file fs cur then Raise NotADirectoryError
      else Raise FileNotFoundError
  end.

(** What the path [path] names, for a path that does not end in a slash
    (the paths of the program are the folder and the files in it, which end
    in [.txt]): the last name need not exist, the directories before it
    must. *)
Definition resolve (fs : filesystem) (path : string) : result (list string) :=
  if PyStr.contains NUL path then Raise ValueError
  else if bool_decide (path = "") then Raise FileNotFoundError
  else walk fs (if String.prefix "/" path then [] else cwd fs)
            (PyStr.split "/" path).

(** [os.path.exists(path)]: false also when the path cannot be followed. *)
Definition path_exists (path : string) (fs : filesystem) : bool :=
  match resolve fs path with
  | Ok p => is_dir fs p || is_file fs p
  | Raise _ => false
  end.

(** [os.mkdir(path)] *)
Definition mkdir (path : string) (fs : filesystem) : result filesystem :=
  p ← resolve fs path;
  if is_dir fs p || is_file fs p then Raise FileExistsError
  else mret {| cwd := cwd fs; dirs := {[p]} ∪ dirs fs; files := files fs |}.

(** [open(path, 'w')] followed by the given [write] calls and the close:
    the file is created or truncated, then every write appends. *)
Definition write_file (path : string) (writes : list string) (fs : filesystem)
  : result filesystem :=
  p ← resolve fs path;
  if is_dir fs p then Raise IsADirectoryError
  else mret {| cwd := cwd fs; dirs := dirs fs;
               files := <[p := foldl String.append "" writes]> (files fs) |}.

(** ** class PackageManager *)

Module PackageManager.

Definition _BACKUP_FOLDER : string := "backlibs".

(** [__new__]: the new instance is appended to [_childs]; the reference
    returned is its position. *)
Definition new (cls : Class) (_childs : list instance) : nat * list instance :=
  (length _childs, _childs ++ [{| class_of := cls; fields := None |}]).

(** The loop of [sum_pkgs]: [mark_pkgs] and [logs_pkgs] are the two locals,
    unbound until a child of the right class is met. *)
Fixpoint sum_pkgs_loop (_childs : list instance)
    (mark_pkgs logs_pkgs : option (gset string * gset string))
  : result (option (gset string * gset string) *
            option (gset string * gset string)) :=
  match _childs with
  | [] => Ok (mark_pkgs, logs_pkgs)
  | child :: rest =>
      mark_pkgs ←
        (if isinstance child cMarkedPackages
         then n ← get_pkgs_names child; d ← get_pkgs_dpnds child;
              mret (Some (n, d))
         else mret mark_pkgs);
      logs_pkgs ←
        (if isinstance child cLogsPackages
         then n ← get_pkgs_names child; d ← get_pkgs_dpnds child;
              mret (Some (n, d))
         else mret logs_pkgs);
      sum_pkgs_loop rest mark_pkgs logs_pkgs
  end.

Definition sum_pkgs (_childs : list instance)
  : result (gset string * gset string) :=
  '(mark_pkgs, logs_pkgs) ← sum_pkgs_loop _childs None None;
  mark_pkgs ← local "mark_pkgs" mark_pkgs;
  logs_pkgs ← local "logs_pkgs" logs_pkgs;
  let pkgs_names := mark_pkgs.1 ∖ logs_pkgs.1 in
  let pkgs_dpnds := mark_pkgs.2 ∖ logs_pkgs.2 in
  let pkgs_names := pkgs_names ∖ pkgs_dpnds in
  mret (pkgs_names, pkgs_dpnds).

(** The loop of [struct_pkgs] over the registry. *)
Fixpoint struct_pkgs_loop (_childs : list instance)
    (result_data : gmap string (gset string))
  : result (gmap string (gset string)) :=
  match _childs with
  | [] => Ok result_data
  | child :: rest =>
      result_data ←
        (if isinstance child cSnapPackages
         then n ← get_pkgs_names child; mret (<["snap_pkgs" := n]> result_data)
         else mret result_data);
      struct_pkgs_loop rest result_data
  end.

Definition struct_pkgs (_childs : list instance) (pkgs_names : gset string)
  : result (gmap string (gset string)) :=
  let py_pkgs : gset string :=
    filter (fun pkg => PyStr.contains "pyth" pkg) pkgs_names in
  let lib_pkgs : gset string :=
    filter (fun pkg => PyStr.contains "lib" pkg) pkgs_names in
  let lib_pkgs := lib_pkgs ∖ py_pkgs in
  let sum_pkgs := pkgs_names ∖ py_pkgs ∖ lib_pkgs in
  let result_data : gmap string (gset string) :=
    <["lib_pkgs" := lib_pkgs]>
      (<["py_pkgs" := py_pkgs]> (<["gen_pkgs" := sum_pkgs]> ∅)) in
  struct_pkgs_loop _childs result_data.

(** The loop of [save_data]: what it leaves, and the exception that
    ended it, if one did. *)
Fixpoint save_data_loop (kwargs : list (string * list string)) (fs : filesystem)
  : filesystem * option exn :=
  match kwargs with
  | [] => (fs, None)
  | kv :: rest =>
      match write_file (_BACKUP_FOLDER +:+ "/" +:+ kv.1 +:+ ".txt")
                       (map (fun v => v +:+ PyStr.LF) kv.2) fs with
      | Ok fs => save_data_loop rest fs
      | Raise e => (fs, Some e)
      end
  end.

(** [save_data]: [kwargs] lists the keyword arguments in the
    order of the dictionary; each value is given by the sequence in which
    [for v in value] yields its elements.  The result is the file system
    that the call leaves, with the exception that it raised, if any. *)
Definition save_data (kwargs : list (string * list string)) (fs : filesystem)
  : filesystem * option exn :=
  match (if negb (path_exists _BACKUP_FOLDER fs) then mkdir _BACKUP_FOLDER fs
         else Ok fs) with
  | Ok fs => save_data_loop kwargs fs
  | Raise e => (fs, Some e)
  end.

Section run.
Context {World : Type}.
Variable run : list string -> World -> string * World.

(** [subprocess.run(command, capture_output=True).stdout.decode('utf-8')],
    for a command that can be started and an output that decodes: the
    [FileNotFoundError] of a missing program and the [UnicodeDecodeError]
    are not outcomes of the oracle. *)
Definition _run_command (command : list string) (w : World) : string * World :=
  run command w.

End run.

Definition _separate_all_info (info : string) : list string :=
  PyStr.split (PyStr.LF +:+ PyStr.LF) info.

Definition _separate_pkg_info (info : string) : list string :=
  PyStr.split PyStr.LF info.

Definition _separate_structured_info (info : list string)
    (name_trigger depends_trigger : string) : string * string :=
  let pkg_name := filter (fun pkg_line => PyStr.contains name_trigger pkg_line) info in
  let pkg_name :=
    match pkg_name with
    | x :: _ => PyStr.replace "Package: " "" x
    | [] => ""
    end in
  let pkg_dpnd := filter (fun pkg_line => PyStr.contains depends_trigger pkg_line) info in
  let pkg_dpnd :=
    match pkg_dpnd with
    | x :: _ => PyStr.replace "Depends: " "" x
    | [] => ""
    end in
  (pkg_name, pkg_dpnd).

Definition _parse_dpnds (pkg_dpnd : string) : list string :=
  let pkg_dpnd :=
    PyStr.split ", "
      (PyStr.strip (PyStr.replace "|" "" (PyStr.replace "Pre-" "" pkg_dpnd))) in
  map (fun x => PyStr.item0 (PyStr.split " " x)) pkg_dpnd.

(** The part of the loop body that [LogsPackages.main] and
    [MarkedPackages.main] have in common: from the lines of one record to
    the two accumulators. *)
Definition accumulate (info : list string) (name_trigger depends_trigger : string)
    (pkgs_names pkgs_dpnds : list string) : list string * list string :=
  let '(pkg_name, pkg_dpnd) :=
    _separate_structured_info info name_trigger depends_trigger in
  let pkgs_names :=
    if 0 <? String.length pkg_name then pkgs_names ++ [pkg_name]
    else pkgs_names in
  let pkgs_dpnds :=
    if 0 <? String.length pkg_dpnd then pkgs_dpnds ++ _parse_dpnds pkg_dpnd
    else pkgs_dpnds in
  (pkgs_names, pkgs_dpnds).

(** The last three statements of every [main]: both lists become sets and
    the dependencies are taken out of the names. *)
Definition finish (pkgs_names pkgs_dpnds : list string) : attrs :=
  let pkgs_names : gset string := list_to_set pkgs_names in
  let pkgs_dpnds : gset string := list_to_set pkgs_dpnds in
  let pkgs_names := pkgs_names ∖ pkgs_dpnds in
  {| pkgs_names := pkgs_names; pkgs_dpnds := pkgs_dpnds |}.

End PackageManager.

(** ** class LogsPackages *)

Module LogsPackages.
Import PackageManager.

Definition PKGS_COMMAND : list string :=
  ["gzip"; "-dc"; "/var/log/installer/initial-status.gz"; "|"; "sort -u"].
Definition PKG_NAME_TRIGGER : string := "Package: ".
Definition PKG_DEPENDS_TRIGGER : string := "Depends: ".

(** One turn of the loop over the records. *)
Definition step (acc : list string * list string) (info : string)
  : list string * list string :=
  let info := _separate_pkg_info info in
  accumulate info PKG_NAME_TRIGGER PKG_DEPENDS_TRIGGER acc.1 acc.2.

(** [main] from the raw text of the log on. *)
Definition parse (pkgs_info : string) : attrs :=
  let pkgs_info := _separate_all_info pkgs_info in
  let '(pkgs_names, pkgs_dpnds) := foldl step ([], []) pkgs_info in
  finish pkgs_names pkgs_dpnds.

Section run.
Context {World : Type}.
Variable run : list string -> World -> string * World.

(** [main] up to the assignment to [self]. *)
Definition collect (w : World) : attrs * World :=
  let '(pkgs_info, w) := _run_command run PKGS_COMMAND w in
  (parse pkgs_info, w).

Definition main (self : nat) (st : list instance * World)
  : list instance * World :=
  let '(a, w) := collect st.2 in
  (set_pkgs self a st.1, w).

End run.
End LogsPackages.

(** ** class MarkedPackages *)

Module MarkedPackages.
Import PackageManager.

Definition PKGS_COMMAND : list string := ["apt-mark"; "showmanual"; "|"; "sort -u"].
Definition INFO_COMMAND : list string := ["apt"; "show"; "{pkg_name}"].
Definition PKG_NAME_TRIGGER : string := "Package: ".
Definition PKG_DEPENDS_TRIGGER : string := "Depends: ".

(** [template.format(pkg_name=pkg_name)] for a template whose only braces
    are replacement fields named [pkg_name]. *)
Definition format (template pkg_name : string) : string :=
  PyStr.replace "{pkg_name}" pkg_name template.

(** [command = INFO_COMMAND.copy(); command[2] = command[2].format(...)] *)
Definition info_command (pkg_name : string) : list string :=
  let command := INFO_COMMAND in
  match command !! 2 with
  | Some template => <[2 := format template pkg_name]> command
  | None => command
  end.

Section run.
Context {World : Type}.
Variable run : list string -> World -> string * World.

(** One turn of the loop over the marked names: one more process. *)
Definition step (acc : list string * list string * World) (pkg_name : string)
  : list string * list string * World :=
  let '(pkgs_names, pkgs_dpnds, w) := acc in
  let command := info_command pkg_name in
  let '(info, w) := _run_command run command w in
  let info := _separate_pkg_info info in
  let '(pkgs_names, pkgs_dpnds) :=
    accumulate info PKG_NAME_TRIGGER PKG_DEPENDS_TRIGGER pkgs_names pkgs_dpnds in
  (pkgs_names, pkgs_dpnds, w).

Definition collect (w : World) : attrs * World :=
  let '(pkgs_pre_names, w) := _run_command run PKGS_COMMAND w in
  let pkgs_pre_names := _separate_pkg_info pkgs_pre_names in
  let '(pkgs_names, pkgs_dpnds, w) := foldl step ([], [], w) pkgs_pre_names in
  (finish pkgs_names pkgs_dpnds, w).

Definition main (self : nat) (st : list instance * World)
  : list instance * World :=
  let '(a, w) := collect st.2 in
  (set_pkgs self a st.1, w).

End run.
End MarkedPackages.

(** ** class SnapPackages *)

Module SnapPackages.
Import PackageManager.

Definition PKGS_COMMAND : list string := ["snap"; "list"].
Definition IGNORED_PKGS : list string :=
  ["canonical"; "core"; "chromium-ffmpeg"; "qt513"; "snapd"; "ufw"; "gnome"; "kde"].

(** The [for ... else] of the local function [rm_pkg], over any list. *)
Fixpoint rm_pkg_loop (ignored_pkgs : list string) (pkgs : string) : bool :=
  match ignored_pkgs with
  | [] => true
  | ignored :: rest =>
      if PyStr.contains ignored pkgs then false else rm_pkg_loop rest pkgs
  end.

Definition rm_pkg (pkgs : string) : bool := rm_pkg_loop IGNORED_PKGS pkgs.

(** [list(filter(lambda elem: len(elem) > 0, pkg.split(' ')))] *)
Definition columns (pkg : string) : list string :=
  filter (fun elem => 0 <? String.length elem) (PyStr.split " " pkg).

(** [main] from the raw text of the listing on. *)
Definition parse (pkgs_info : string) : attrs :=
  let pkgs_info := _separate_pkg_info pkgs_info in
  let pkgs_info := drop 1 pkgs_info in
  let pkgs_info := map columns pkgs_info in
  let pkgs_names :=
    omap (fun pkg => if 0 <? length pkg then pkg !! 0 else None) pkgs_info in
  let pkgs_names := filter (fun pkg => rm_pkg pkg) pkgs_names in
  let pkgs_dpnds := ["snap-store"] in
  finish pkgs_names pkgs_dpnds.

Section run.
Context {World : Type}.
Variable run : list string -> World -> string * World.

Definition collect (w : World) : attrs * World :=
  let '(pkgs_info, w) := _run_command run PKGS_COMMAND w in
  (parse pkgs_info, w).

Definition main (self : nat) (st : list instance * World)
  : list instance * World :=
  let '(a, w) := collect st.2 in
  (set_pkgs self a st.1, w).

End run.
End SnapPackages.

(** ** Runs of the program

    What a client of the classes can do to the registry: create an instance
    of a class, or call [main] on an instance that exists ([self.main()]
    dispatches on the class of [self]; [PackageManager] has no [main]). *)

Section machine.
Context {World : Type}.
Variable run : list string -> World -> string * World.

Inductive step : list instance * World -> list instance * World -> Prop :=
| step_new cls _childs w :
    step (_childs, w) ((PackageManager.new cls _childs).2, w)
| step_logs self i st :
    st.1 !! self = Some i -> class_of i = cLogsPackages ->
    step st (LogsPackages.main run self st)
| step_marked self i st :
    st.1 !! self = Some i -> class_of i = cMarkedPackages ->
    step st (MarkedPackages.main run self st)
| step_snap self i st :
    st.1 !! self = Some i -> class_of i = cSnapPackages ->
    step st (SnapPackages.main run self st).

(** The registry is empty when the module is loaded. *)
Definition reachable (st : list instance * World) : Prop :=
  exists w0, rtc step ([], w0) st.

End machine.

(** ** Vocabulary of the statements *)

(** [sub] occurs in [s]. *)
Definition occurs_in (sub s : string) : Prop :=
  exists p q, s = p +:+ sub +:+ q.

(** The instances of class [c], in the order of their creation. *)
Definition instances_of (c : Class) (_childs : list instance) : list instance :=
  filter (fun i => class_of i = c) _childs.

(** Every instance of class [c] holds a result: its [main] has run. *)
Definition populated (c : Class) (_childs : list instance) : Prop :=
  Forall (fun i => class_of i = c -> is_Some (fields i)) _childs.


(** [s] consists of whitespace. *)
Fixpoint all_space (s : string) : bool :=
  match s with
  | "" => true
  | String c s' => PyStr.isspace c && all_space s'
  end.

(** The maximal runs of characters that are not separators, from left to
    right: the columns of a line whose separators are the characters that
    satisfy [sep]. *)
Fixpoint fields_by (sep : ascii -> bool) (s : string) : list string :=
  match s with
  | "" => []
  | String c s' =>
      if sep c then fields_by sep s'
      else
        match s' with
        | "" => [String c ""]
        | String c' _ =>
            if sep c' then String c "" :: fields_by sep s'
            else PyStr.cons_hd c (fields_by sep s')
        end
  end.

Definition is_space (c : ascii) : bool := bool_decide (c = " "%char).

(** The text of [s] before its first space, all of [s] when it has none. *)
Fixpoint before_space (s : string) : string :=
  match s with
  | "" => ""
  | String c s' => if is_space c then "" else String c (before_space s')
  end.

(** [s] without the prefix [p], when it starts with it. *)
Definition removeprefix (p s : string) : string :=
  if String.prefix p s then PyStr.drop (String.length p) s else s.

(** The extraction as the specification words it: the first line that
    contains the trigger, with the trigger prefix stripped. *)
Definition extract_as_specified (lines : list string)
    (name_trigger depends_trigger : string) : string * string :=
  let first trigger :=
    match filter (fun l => PyStr.contains trigger l) lines with
    | x :: _ => removeprefix trigger x
    | [] => ""
    end in
  (first name_trigger, first depends_trigger).

(** The names of the snap collector as the specification words them: the
    first whitespace-separated column of every line after the header. *)
Definition snap_names_as_specified (listing : string) : gset string :=
  let rows := drop 1 (PyStr.split PyStr.LF listing) in
  let names := omap (fun row => head (fields_by PyStr.isspace row)) rows in
  list_to_set (filter (fun n => SnapPackages.rm_pkg n) names)
    ∖ {["snap-store"]}.

(** Modelled from the spec: the program never reads a backup file back;
    "reading it back line-by-line" is taken as the sequence of the lines of
    the text, each without the line feed that ends it (a last line may lack
    its line feed). *)
Fixpoint read_lines (text : string) : list string :=
  match text with
  | "" => []
  | String c text' =>
      if bool_decide (c = "010"%char) then "" :: read_lines text'
      else PyStr.cons_hd c (read_lines text')
  end.

(** The path of the backup file of a group, as [save_data] builds it. *)
Definition backup_path (key : string) : string :=
  PackageManager._BACKUP_FOLDER +:+ "/" +:+ key +:+ ".txt".

(** The file that this path names when the key is the name of a file: the
    file [<key>.txt] in the folder below the working directory. *)
Definition backup_file (fs : filesystem) (key : string) : list string :=
  cwd fs ++ [PackageManager._BACKUP_FOLDER; key +:+ ".txt"].

(** A key that is the name of a file: it holds no slash and no NUL. *)
Definition file_name (key : string) : Prop :=
  ~ occurs_in "/" key /\ ~ occurs_in NUL key.

(** The backups of the keys can be written: the working directory is
    there, the name of the folder is not that of a regular file, and no
    backup file is a directory. *)
Definition writable (fs : filesystem) (keys : list string) : Prop :=
  is_dir fs (cwd fs) = true /\
  is_file fs (cwd fs ++ [PackageManager._BACKUP_FOLDER]) = false /\
  Forall (fun key => is_dir fs (backup_file fs key) = false) keys.

(** The keys of the dictionary that [main] passes to [save_data], in the
    order in which they are inserted: the three of the literal in
    [struct_pkgs], the one of its loop, the two of [main]. *)
Definition backup_keys : list string :=
  ["gen_pkgs"; "py_pkgs"; "lib_pkgs"; "snap_pkgs"; "full_pkgs"; "full_dpnds"].

(** What [save_data] writes for a group whose elements are yielded in the
    order [l]. *)
Definition backup_text (l : list string) : string :=
  foldr (fun v text => v +:+ PyStr.LF +:+ text) "" l.

(** The pair [[child.pkgs_names, child.pkgs_dpnds]] of an instance that
    holds a result. *)
Definition result_of (i : instance) : option (gset string * gset string) :=
  (fun a => (pkgs_names a, pkgs_dpnds a)) <$> fields i.

(** A local of [sum_pkgs] after the loop: the pair of the last instance of
    class [c] when there is one, else what the local was before the loop. *)
Definition pick (c : Class) (_childs : list instance)
    (d : option (gset string * gset string))
  : option (gset string * gset string) :=
  match last (instances_of c _childs) with
  | Some i => result_of i
  | None => d
  end.

(** [result_data] after the loop of [struct_pkgs]. *)
Definition snap_bound (_childs : list instance)
    (result_data : gmap string (gset string)) : gmap string (gset string) :=
  match last (instances_of cSnapPackages _childs) ≫= fields with
  | Some a => <["snap_pkgs" := pkgs_names a]> result_data
  | None => result_data
  end.

(** What holds of the result that an instance holds once its [main] has
    stored it. *)
Definition stored_ok (i : instance) : Prop :=
  forall a, fields i = Some a ->
    pkgs_names a ∩ pkgs_dpnds a = ∅ /\
    (class_of i = cSnapPackages -> pkgs_dpnds a = {["snap-store"]}).

(** ** Concrete inputs for the examples *)

(** A world in which the commands answer with canned texts, in turn. *)
Definition canned (command : list string) (w : list string)
  : string * list string :=
  match w with
  | out :: w' => (out, w')
  | [] => ("", [])
  end.

(** The collector results of the reconciler scenario. *)
Definition scenario_marked : instance :=
  {| class_of := cMarkedPackages;
     fields := Some {| pkgs_names := {["bash"; "vim"; "python3-foo"]};
                       pkgs_dpnds := {["coreutils"]} |} |}.

Definition scenario_logs : instance :=
  {| class_of := cLogsPackages;
     fields := Some {| pkgs_names := {["bash"; "coreutils"]};
                       pkgs_dpnds := ∅ |} |}.

Definition scenario_snap : instance :=
  {| class_of := cSnapPackages;
     fields := Some {| pkgs_names := {["some-editor"]};
                       pkgs_dpnds := {["snap-store"]} |} |}.

(** The lines of a text. *)
Definition text (lines : list string) : string :=
  foldr (fun l t => l +:+ PyStr.LF +:+ t) "" lines.

(** A snap listing with the three rows of the collector scenario. *)
Definition scenario_listing : string :=
  text ["Name  Version  Rev  Tracking  Publisher  Notes";
        "core"; "some-editor"; "chromium-ffmpeg"].

(** A record of a package status file with a [Pre-Depends] field. *)
Definition dpkg_record : list string :=
  ["Package: dpkg"; "Pre-Depends: libc6 (>= 2.15)"; "Depends: tar"].

(** A snap listing whose second line has a tab in its first column. *)
Definition tab_listing : string :=
  text ["Name Version"; "foo" +:+ String "009"%char "" +:+ "bar 1.0"].

(** The registry of the scenarios: one instance of each collector, in the
    order in which [main] creates them. *)
Definition scenario_registry : list instance :=
  [scenario_marked; scenario_logs; scenario_snap].

(** A listing in which the snap store itself is a row. *)
Definition store_listing : string :=
  text ["Name Version"; "snap-store 1.0"; "some-editor 2"].

(** The state after [SnapPackages().main()] in a fresh registry, the
    command answering with [store_listing]. *)
Definition snap_state : list instance * list string :=
  SnapPackages.main canned 0
    ((PackageManager.new cSnapPackages []).2, [store_listing]).

(** The state after [SnapPackages()] and then [SnapPackages().main()] in a
    fresh registry, the command answering with [scenario_listing]: the
    first instance holds no result, the second the names of the listing. *)
Definition stale_snap_state : list instance * list string :=
  SnapPackages.main canned 1
    ((PackageManager.new cSnapPackages
        (PackageManager.new cSnapPackages []).2).2,
     [scenario_listing]).


(** A record without a name and without dependencies. *)
Definition bare_record : list string := ["Status: install ok installed"].

(** No line feed occurs in [s]. *)
Definition single_line (s : string) : Prop := ~ occurs_in PyStr.LF s.

(** Every name and every dependency of a result is free of line feeds. *)
Definition lines_ok (a : attrs) : Prop :=
  forall x, x ∈ pkgs_names a ∪ pkgs_dpnds a -> single_line x.

(** ** The program *)

(** The order of the names by a ranking. *)
Definition by_rank (rank : string -> nat) : relation string :=
  fun x y => rank x <= rank y.

#[global] Instance by_rank_dec (rank : string -> nat) : RelDecision (by_rank rank).
Proof. intros x y. unfold by_rank. apply _. Defined.

Section program.
Context {World : Type}.
Variable run : list string -> World -> string * World.

(** The order in which [for v in value] yields the elements of a set is
    not fixed by the language.  [rank key] stands for the order of the loop
    that writes the group of [key]: the loop yields the elements by rank,
    and every order is that of some ranking. *)
Variable rank : string -> string -> nat.

Definition yielded (key : string) (group : gset string) : list string :=
  merge_sort (by_rank (rank key)) (elements group).

(** The function [main] of the module.  The keyword arguments of
    [save_data] are the entries of the dictionary in the order of their
    insertion.  [fs] is the file system when [save_data] is called, after
    the processes of the collectors. *)
Definition main (st : list instance * World) (fs : filesystem)
  : result (list instance * World * filesystem) :=
  let '(self, _childs) := PackageManager.new cMarkedPackages st.1 in
  let st := MarkedPackages.main run self (_childs, st.2) in
  let '(self, _childs) := PackageManager.new cLogsPackages st.1 in
  let st := LogsPackages.main run self (_childs, st.2) in
  let '(self, _childs) := PackageManager.new cSnapPackages st.1 in
  let st := SnapPackages.main run self (_childs, st.2) in
  '(pkgs_names, pkgs_dpnds) ← PackageManager.sum_pkgs st.1;
  struct_pkgs ← PackageManager.struct_pkgs st.1 pkgs_names;
  let struct_pkgs := <["full_pkgs" := pkgs_names]> struct_pkgs in
  let struct_pkgs := <["full_dpnds" := pkgs_dpnds]> struct_pkgs in
  let kwargs :=
    omap (fun key => (fun group => (key, yielded key group)) <$> struct_pkgs !! key)
         backup_keys in
  match PackageManager.save_data kwargs fs with
  | (fs, None) => mret (st, fs)
  | (_, Some e) => Raise e
  end.

End program.

(** ** Vocabulary of the further properties *)

(** The oracle that also records, in order, the commands it is given and
    the texts it answers. *)
Definition traced {World : Type} (run : list string -> World -> string * World)
    (command : list string) (w : World * list (list string * string))
  : string * (World * list (list string * string)) :=
  let '(out, w') := run command w.1 in
  (out, (w', w.2 ++ [(command, out)])).

(** [line] is the first of [lines] in which [trigger] occurs. *)
Definition first_with (trigger : string) (lines : list string) (line : string)
  : Prop :=
  exists pre post,
    lines = pre ++ line :: post /\
    Forall (fun l => ~ occurs_in trigger l) pre /\
    occurs_in trigger line.

(** [x] is the name that the record [info] gives: what is left of its first
    line with "Package: " when that text is taken out, if anything is left. *)
Definition record_name (info x : string) : Prop :=
  x <> "" /\
  exists line,
    first_with "Package: " (PackageManager._separate_pkg_info info) line /\
    x = PyStr.replace "Package: " "" line.

(** [d] is a dependency that the record [info] gives: an entry parsed from
    what is left of its first line with "Depends: ". *)
Definition record_dpnd (info d : string) : Prop :=
  exists line,
    first_with "Depends: " (PackageManager._separate_pkg_info info) line /\
    PyStr.replace "Depends: " "" line <> "" /\
    d ∈ PackageManager._parse_dpnds (PyStr.replace "Depends: " "" line).


(** The shape of a stored result: no name is empty, no dependency holds
    a space or a bar. *)
Definition shaped (a : attrs) : Prop :=
  ("" ∉ pkgs_names a) /\
  forall d, d ∈ pkgs_dpnds a -> ~ occurs_in " " d /\ ~ occurs_in "|" d.

(** The three instances that [main] creates, with the results that the
    collectors store in them. *)
Definition created (marked logs snap : attrs) : list instance :=
  [{| class_of := cMarkedPackages; fields := Some marked |};
   {| class_of := cLogsPackages; fields := Some logs |};
   {| class_of := cSnapPackages; fields := Some snap |}].

(** The groups that [main] passes to [save_data], in the order of
    [backup_keys], in terms of the results of its three collectors. *)
Definition backup_groups (marked logs snap : attrs)
  : list (string * gset string) :=
  let full_dpnds := pkgs_dpnds marked ∖ pkgs_dpnds logs in
  let full_pkgs := (pkgs_names marked ∖ pkgs_names logs) ∖ full_dpnds in
  let py_pkgs := filter (fun pkg => PyStr.contains "pyth" pkg) full_pkgs in
  let lib_pkgs :=
    filter (fun pkg => PyStr.contains "lib" pkg) full_pkgs ∖ py_pkgs in
  let gen_pkgs := full_pkgs ∖ py_pkgs ∖ lib_pkgs in
  [("gen_pkgs", gen_pkgs); ("py_pkgs", py_pkgs); ("lib_pkgs", lib_pkgs);
   ("snap_pkgs", pkgs_names snap); ("full_pkgs", full_pkgs);
   ("full_dpnds", full_dpnds)].

(** * Facts about the string primitives *)

Module PyStrFacts.
Import PyStr.

Lemma str_app_nil_l (s : string) : "" +:+ s = s.
Proof. reflexivity. Qed.

Lemma str_app_cons (c : ascii) (s t : string) :
  String c s +:+ t = String c (s +:+ t).
Proof. reflexivity. Qed.

Lemma str_app_nil_r (s : string) : s +:+ "" = s.
Proof. induction s as [|c s IH]; [done|]. by rewrite str_app_cons, IH. Qed.

Lemma str_app_assoc (a b c : string) : (a +:+ b) +:+ c = a +:+ b +:+ c.
Proof.
  induction a as [|x a IH]; [done|]. by rewrite !str_app_cons, IH.
Qed.

Lemma str_length_app (a b : string) :
  String.length (a +:+ b) = String.length a + String.length b.
Proof.
  induction a as [|x a IH]; [done|]. rewrite str_app_cons. simpl. by rewrite IH.
Qed.

Lemma str_app_eq_nil (a b : string) : a +:+ b = "" -> a = "" /\ b = "".
Proof. destruct a; [done|]. by rewrite str_app_cons. Qed.

(** Cancellation on the right, by the lengths. *)
Lemma str_app_inv_tail (a b t : string) : a +:+ t = b +:+ t -> a = b.
Proof.
  revert b. induction a as [|x a IH]; intros [|y b] H.
  - done.
  - apply (f_equal String.length) in H.
    rewrite str_app_nil_l, str_app_cons in H. simpl in H. rewrite str_length_app in H. lia.
  - apply (f_equal String.length) in H.
    rewrite str_app_nil_l, str_app_cons in H. simpl in H. rewrite str_length_app in H. lia.
  - rewrite !str_app_cons in H. injection H as -> H. f_equal. by apply IH.
Qed.

Lemma prefix_nil (s : string) : String.prefix "" s = true.
Proof. by destruct s. Qed.

Lemma prefix_cons (a b : ascii) (p s : string) :
  String.prefix (String a p) (String b s) =
  bool_decide (a = b) && String.prefix p s.
Proof.
  simpl. destruct (ascii_dec a b) as [->|Hne].
  - by rewrite bool_decide_eq_true_2.
  - by rewrite bool_decide_eq_false_2.
Qed.

Lemma prefix_spec (p s : string) :
  String.prefix p s = true <-> exists q, s = p +:+ q.
Proof.
  revert s. induction p as [|a p IH]; intros s.
  - rewrite prefix_nil. split; [|done]. intros _. by exists s.
  - destruct s as [|b s].
    + split; [done|]. intros [q Hq]. by rewrite str_app_cons in Hq.
    + rewrite prefix_cons, andb_true_iff, bool_decide_eq_true, IH.
      split.
      * intros [-> [q ->]]. by exists q.
      * intros [q Hq]. rewrite str_app_cons in Hq. injection Hq as -> ->. eauto.
Qed.

Lemma prefix_app (p q : string) : String.prefix p (p +:+ q) = true.
Proof. apply prefix_spec. by exists q. Qed.

Lemma str_drop_0 (s : string) : drop 0 s = s.
Proof. by destruct s. Qed.

Lemma str_drop_app (p q : string) : drop (String.length p) (p +:+ q) = q.
Proof.
  induction p as [|a p IH]; [apply str_drop_0|]. by rewrite str_app_cons.
Qed.

Lemma contains_cons (sub : string) (c : ascii) (s : string) :
  contains sub (String c s) = String.prefix sub (String c s) || contains sub s.
Proof. reflexivity. Qed.

Lemma contains_nil (sub : string) : contains sub "" = String.prefix sub "".
Proof. simpl. by rewrite orb_false_r. Qed.

(** [sub in s] decides that [sub] occurs in [s]. *)
Lemma contains_spec (sub s : string) :
  contains sub s = true <-> occurs_in sub s.
Proof.
  unfold occurs_in. induction s as [|c s IH].
  - rewrite contains_nil, prefix_spec. split.
    + intros [q Hq]. exists "", q. by rewrite str_app_nil_l.
    + intros (p & q & Hq). symmetry in Hq.
      apply str_app_eq_nil in Hq as [-> Hq]. apply str_app_eq_nil in Hq as [-> ->].
      by exists "".
  - rewrite contains_cons, orb_true_iff, prefix_spec, IH. split.
    + intros [[q Hq]|(p & q & ->)].
      * exists "", q. by rewrite str_app_nil_l.
      * exists (String c p), q. by rewrite str_app_cons.
    + intros ([|a p] & q & Hq).
      * left. exists q. by rewrite str_app_nil_l in Hq.
      * right. rewrite str_app_cons in Hq. injection Hq as -> ->. eauto.
Qed.

Lemma contains_false_cons (sub : string) (c : ascii) (s : string) :
  contains sub (String c s) = false ->
  String.prefix sub (String c s) = false /\ contains sub s = false.
Proof. rewrite contains_cons. apply orb_false_elim. Qed.

Lemma contains_app_r (sub p q : string) :
  contains sub q = true -> contains sub (p +:+ q) = true.
Proof.
  rewrite !contains_spec. intros (a & b & ->). exists (p +:+ a), b.
  by rewrite str_app_assoc.
Qed.

Lemma drop_drop_1 (k : nat) (c : ascii) (s : string) :
  drop (S k) (String c s) = drop k s.
Proof. reflexivity. Qed.

Lemma replace_from_cons (old new : string) (c : ascii) (s : string) :
  replace_from old new 0 (String c s) =
  if String.prefix old (String c s)
  then new +:+ replace_from old new (String.length old - 1) s
  else String c (replace_from old new 0 s).
Proof. reflexivity. Qed.

(** Passing over [k] characters is dropping them. *)
Lemma replace_from_skip (old new : string) (k : nat) (s : string) :
  replace_from old new k s = replace_from old new 0 (drop k s).
Proof.
  revert k. induction s as [|c s IH]; intros [|k]; try done.
  simpl replace_from at 1. by rewrite IH.
Qed.

Lemma replace_from_absent (old new s : string) :
  contains old s = false -> replace_from old new 0 s = s.
Proof.
  induction s as [|c s IH]; [done|].
  intros [Hp Hc]%contains_false_cons. simpl replace_from.
  simpl in Hp. rewrite Hp. by rewrite IH.
Qed.

(** A string without an occurrence of [old] is left as it is. *)
Lemma replace_absent (old new s : string) :
  contains old s = false -> replace old new s = s.
Proof.
  destruct old as [|a old]; [by destruct s|]. apply replace_from_absent.
Qed.

(** An occurrence at the front is replaced and the search goes on after it. *)
Lemma replace_here (old new q : string) :
  old <> "" -> replace old new (old +:+ q) = new +:+ replace old new q.
Proof.
  destruct old as [|a old]; [done|]. intros _. unfold replace.
  rewrite str_app_cons. simpl replace_from.
  pose proof (prefix_app (String a old) q) as Hp.
  rewrite str_app_cons in Hp. simpl in Hp. rewrite Hp.
  rewrite Nat.sub_0_r, replace_from_skip, str_drop_app. done.
Qed.

(** Without an occurrence at the front, the first character is kept. *)
Lemma replace_next (old new : string) (c : ascii) (s : string) :
  String.prefix old (String c s) = false ->
  replace old new (String c s) = String c (replace old new s).
Proof.
  destruct old as [|a old]; [done|]. intros Hp. unfold replace.
  simpl replace_from. simpl in Hp. by rewrite Hp.
Qed.

Lemma split_from_skip (sep : string) (k : nat) (s : string) :
  split_from sep k s = split_from sep 0 (drop k s).
Proof.
  revert k. induction s as [|c s IH]; intros [|k]; try done.
  simpl split_from at 1. by rewrite IH.
Qed.

Lemma split_from_cons (sep : string) (c : ascii) (s : string) :
  split_from sep 0 (String c s) =
  if String.prefix sep (String c s)
  then "" :: split_from sep (String.length sep - 1) s
  else cons_hd c (split_from sep 0 s).
Proof. reflexivity. Qed.

Lemma split_nil (sep : string) : split sep "" = [""].
Proof. reflexivity. Qed.

Lemma split_here (sep q : string) :
  sep <> "" -> split sep (sep +:+ q) = "" :: split sep q.
Proof.
  destruct sep as [|a sep]; [done|]. intros _. unfold split.
  rewrite str_app_cons. simpl split_from.
  pose proof (prefix_app (String a sep) q) as Hp.
  rewrite str_app_cons in Hp. simpl in Hp. rewrite Hp.
  rewrite Nat.sub_0_r, split_from_skip, str_drop_app. done.
Qed.

Lemma split_next (sep : string) (c : ascii) (s : string) :
  String.prefix sep (String c s) = false ->
  split sep (String c s) = cons_hd c (split sep s).
Proof.
  intros Hp. unfold split. simpl split_from.
  destruct sep as [|a sep]; [done|]. simpl in Hp. by rewrite Hp.
Qed.

(** [split] never returns the empty list: [l[0]] cannot fail on it. *)
Lemma split_nonempty (sep s : string) : split sep s <> [].
Proof.
  unfold split. generalize 0. induction s as [|c s IH]; intros k; [done|].
  destruct k; [|apply IH]. rewrite split_from_cons.
  destruct (String.prefix sep (String c s)); [done|].
  specialize (IH 0). by destruct (split_from sep 0 s).
Qed.

Lemma split_absent (sep s : string) :
  contains sep s = false -> split sep s = [s].
Proof.
  induction s as [|c s IH]; [done|].
  intros [Hp Hc]%contains_false_cons. rewrite split_next by done.
  by rewrite IH.
Qed.

Lemma join_cons_hd (sep : string) (c : ascii) (l : list string) :
  l <> [] -> join sep (cons_hd c l) = String c (join sep l).
Proof. destruct l as [|x [|y l]]; done. Qed.

Lemma prefix_true_split (sep : string) (c : ascii) (s : string) :
  String.prefix sep (String c s) = true -> exists q, String c s = sep +:+ q.
Proof. apply prefix_spec. Qed.

(** Joining the pieces with the separator gives the string back. *)
Lemma join_split (sep s : string) :
  sep <> "" -> join sep (split sep s) = s.
Proof.
  intros Hsep. remember (String.length s) as n eqn:Hn.
  revert s Hn. induction (lt_wf n) as [n _ IH]. intros s ->.
  destruct s as [|c s]; [done|].
  destruct (String.prefix sep (String c s)) eqn:Hp.
  - apply prefix_spec in Hp as [q Hq]. rewrite Hq, split_here by done.
    assert (join sep (split sep q) = q) as Hj.
    { apply (IH (String.length q)); [|done]. rewrite Hq, str_length_app.
      destruct sep; [done|]. simpl. lia. }
    pose proof (split_nonempty sep q).
    simpl. destruct (split sep q) eqn:E; [done|].
    by rewrite str_app_nil_l, Hj.
  - rewrite split_next by done.
    rewrite join_cons_hd by apply split_nonempty.
    f_equal. apply (IH (String.length s)); [simpl; lia|done].
Qed.

(** The first piece of a split on one space is the text before the first
    space. *)
Lemma item0_split_space (x : string) :
  item0 (split " " x) = before_space x.
Proof.
  induction x as [|c x IH]; [done|]. simpl before_space.
  unfold is_space. case_bool_decide as Hc.
  - subst c. change (String " "%char x) with (" " +:+ x).
    by rewrite split_here.
  - rewrite split_next.
    + pose proof (split_nonempty " " x).
      destruct (split " " x) eqn:E; [done|]. simpl in *. by rewrite IH.
    + rewrite prefix_cons, prefix_nil, andb_true_r.
      apply bool_decide_eq_false_2. congruence.
Qed.

Lemma split_space_cons (c : ascii) (s : string) :
  split " " (String c s) =
  if is_space c then "" :: split " " s else cons_hd c (split " " s).
Proof.
  unfold is_space. case_bool_decide as Hc.
  - subst c. change (String " "%char s) with (" " +:+ s). by rewrite split_here.
  - apply split_next. rewrite prefix_cons, prefix_nil, andb_true_r.
    apply bool_decide_eq_false_2. congruence.
Qed.

(** The pieces of a split on one space that are not empty are the maximal
    runs of characters other than the space. *)
Lemma split_space_fields (line : string) :
  filter (fun elem => 0 <? String.length elem) (split " " line) =
  fields_by is_space line.
Proof.
  induction line as [|c s IH]; [done|].
  rewrite split_space_cons. simpl fields_by.
  destruct (is_space c) eqn:Hc.
  { by rewrite filter_cons_False by (cbn; tauto). }
  destruct s as [|c' s'].
  { by rewrite split_nil. }
  rewrite split_space_cons in IH |- *. simpl fields_by in IH.
  destruct (is_space c') eqn:Hc'.
  - simpl cons_hd. rewrite filter_cons_True by (cbn; tauto).
    rewrite filter_cons_False in IH by (cbn; tauto).
    rewrite IH. simpl fields_by. by rewrite Hc'.
  - pose proof (split_nonempty " " s') as Hne.
    destruct (split " " s') as [|h t]; [done|]. simpl cons_hd in *.
    rewrite filter_cons_True in IH |- * by (cbn; tauto).
    rewrite Hc'. by rewrite <- IH.
Qed.

Lemma LF_app (s : string) : LF +:+ s = String "010"%char s.
Proof. reflexivity. Qed.

Lemma contains_LF_cons (c : ascii) (s : string) :
  contains LF (String c s) = false ->
  c <> "010"%char /\ contains LF s = false.
Proof.
  intros [Hp Hc]%contains_false_cons. split; [|done].
  unfold LF in Hp. rewrite prefix_cons, prefix_nil, andb_true_r in Hp.
  apply bool_decide_eq_false in Hp. congruence.
Qed.

(** [lstrip] takes a run of whitespace off the front and stops at the first
    other character. *)
Lemma lstrip_spec (s : string) :
  exists l, all_space l = true /\ s = l +:+ lstrip s /\
            forall c t, lstrip s = String c t -> isspace c = false.
Proof.
  induction s as [|a s (l & Hl & Hs & Hc)].
  { by exists "". }
  simpl lstrip. destruct (isspace a) eqn:Ha.
  - exists (String a l). split; [by simpl; rewrite Ha, Hl|].
    split; [by rewrite str_app_cons, <- Hs|done].
  - exists "". split; [done|]. split; [done|]. by intros c t [= <- <-].
Qed.

(** [rstrip] takes a run of whitespace off the end, keeps the front, and
    stops at the last other character. *)
Lemma rstrip_spec (s : string) :
  exists r, all_space r = true /\ s = rstrip s +:+ r /\
            (forall c t, s = String c t -> isspace c = false ->
                         exists t', rstrip s = String c t') /\
            forall t c, rstrip s = t +:+ String c "" -> isspace c = false.
Proof.
  induction s as [|a s (r & Hr & Hs & _ & Hlast)].
  { exists "". split; [done|]. split; [done|]. split; [done|].
    intros [|? t] c H; by rewrite ?str_app_cons in H. }
  simpl rstrip. destruct (rstrip s) as [|b u] eqn:E.
  - rewrite str_app_nil_l in Hs. subst r. destruct (isspace a) eqn:Ha.
    + exists (String a s). split; [by simpl; rewrite Ha, Hr|].
      split; [done|]. split.
      * intros c t [= <- <-]. congruence.
      * intros [|? t] c H; by rewrite ?str_app_cons in H.
    + exists s. split; [done|]. split; [done|]. split.
      * intros c t [= <- <-] _. by eexists.
      * intros [|x t] c H.
        -- rewrite str_app_nil_l in H. by injection H as <-.
        -- rewrite str_app_cons in H. injection H as _ H. by destruct t.
  - exists r. split; [done|]. split; [by rewrite str_app_cons, <- Hs|]. split.
    + intros c t [= <- <-] _. by eexists.
    + intros [|x t] c H.
      * rewrite str_app_nil_l in H. by injection H as _ H.
      * rewrite str_app_cons in H. injection H as _ H. by apply (Hlast t).
Qed.

(** [strip] cuts the text between a whitespace front and a whitespace end;
    what is left neither starts nor ends with whitespace. *)
Lemma strip_spec (s : string) :
  exists l r, all_space l = true /\ all_space r = true /\
              s = l +:+ strip s +:+ r /\
              (forall c t, strip s = String c t -> isspace c = false) /\
              (forall t c, strip s = t +:+ String c "" -> isspace c = false).
Proof.
  destruct (lstrip_spec s) as (l & Hl & Hs & Hfirst).
  destruct (rstrip_spec (lstrip s)) as (r & Hr & Hs' & Hkeep & Hlast).
  exists l, r. unfold strip. repeat split; [done..| | |done].
  - by rewrite <- Hs', <- Hs.
  - intros c t Hc. destruct (lstrip s) as [|a u] eqn:E; [done|].
    destruct (Hkeep a u eq_refl (Hfirst a u eq_refl)) as [t' Ht'].
    rewrite Ht' in Hc. injection Hc as <- _. by apply (Hfirst a u).
Qed.

(** The pieces of a split hold no separator. *)
Lemma split_pieces (sep s : string) :
  sep <> "" -> Forall (fun piece => contains sep piece = false) (split sep s).
Proof.
  intros Hsep. remember (String.length s) as n eqn:Hn.
  revert s Hn. induction (lt_wf n) as [n _ IH]. intros s ->.
  destruct s as [|c s].
  { rewrite split_nil. repeat constructor. rewrite contains_nil.
    by destruct sep. }
  destruct (String.prefix sep (String c s)) eqn:Hp.
  - apply prefix_spec in Hp as [q Hq]. rewrite Hq, split_here by done.
    constructor.
    + rewrite contains_nil. by destruct sep.
    + apply (IH (String.length q)); [|done]. rewrite Hq, str_length_app.
      destruct sep; [done|]. simpl. lia.
  - rewrite split_next by done.
    assert (Forall (fun piece => contains sep piece = false) (split sep s))
      as Hall by (apply (IH (String.length s)); [simpl; lia|done]).
    pose proof (split_nonempty sep s) as Hne.
    pose proof (join_split sep s Hsep) as Hjoin.
    destruct (split sep s) as [|h t] eqn:E; [done|]. simpl cons_hd.
    apply Forall_cons in Hall as [Hh Ht]. constructor; [|done].
    rewrite contains_cons, Hh, orb_false_r.
    apply not_true_iff_false. intros [q Hq]%prefix_spec.
    apply not_true_iff_false in Hp. apply Hp, prefix_spec.
    destruct sep as [|a sep']; [done|]. rewrite str_app_cons in Hq.
    injection Hq as <- Hh'.
    (* the separator would start in [h] and so in [s] *)
    destruct t as [|h2 t].
    + simpl in Hjoin. subst s. exists q. by rewrite str_app_cons, Hh'.
    + assert (s = h +:+ String c sep' +:+ join (String c sep') (h2 :: t))
        as Hs by (rewrite <- Hjoin; reflexivity).
      exists (q +:+ String c sep' +:+ join (String c sep') (h2 :: t)).
      rewrite str_app_cons, Hs, Hh'. by rewrite str_app_assoc.
Qed.

(** The primitives on inputs whose Python results are known. *)
Example replace_overlapping : replace "aa" "b" "aaaaa" = "bba".
Proof. reflexivity. Qed.

Example replace_rescan : replace "Pre-" "" "PrPre-e-x" = "Pre-x".
Proof. reflexivity. Qed.

Example replace_empty_old : replace "" "X" "abc" = "XaXbXcX".
Proof. reflexivity. Qed.

Example split_comma_space : split ", " "a, b,, c" = ["a"; "b,"; "c"].
Proof. reflexivity. Qed.

Example split_spaces : split " " " a  b " = [""; "a"; ""; "b"; ""].
Proof. reflexivity. Qed.

Example split_of_empty : split ", " "" = [""].
Proof. reflexivity. Qed.

Example strip_both_ends :
  strip ("  a b" +:+ LF +:+ String "009"%char " ") = "a b".
Proof. reflexivity. Qed.

Example contains_inside : contains "lib" "python3-lib" = true.
Proof. reflexivity. Qed.

End PyStrFacts.

(** * Facts about the backup files *)

Module BackupFacts.
Import PyStr PyStrFacts.

(** A line without a line feed, ended by one, is read back as it is. *)
Lemma read_lines_line (v rest : string) :
  contains LF v = false ->
  read_lines (v +:+ LF +:+ rest) = v :: read_lines rest.
Proof.
  induction v as [|c v IH]; intros Hv.
  - rewrite str_app_nil_l, LF_app. done.
  - apply contains_LF_cons in Hv as [Hc Hv]. rewrite str_app_cons.
    simpl read_lines. rewrite bool_decide_eq_false_2 by done.
    by rewrite IH.
Qed.

Lemma read_lines_backup_text (l : list string) :
  Forall (fun v => contains LF v = false) l ->
  read_lines (backup_text l) = l.
Proof.
  induction 1 as [|v l Hv _ IH]; [done|].
  simpl backup_text. by rewrite read_lines_line, IH.
Qed.

Lemma foldl_append (acc : string) (ws : list string) :
  foldl String.append acc ws = acc +:+ foldr String.append "" ws.
Proof.
  revert acc. induction ws as [|w ws IH]; intros acc; simpl.
  - by rewrite str_app_nil_r.
  - by rewrite IH, str_app_assoc.
Qed.

(** The successive [write] calls of [save_data] produce [backup_text]. *)
Lemma writes_backup_text (l : list string) :
  foldl String.append "" (map (fun v => v +:+ LF) l) = backup_text l.
Proof.
  rewrite foldl_append, str_app_nil_l.
  induction l as [|v l IH]; [done|]. simpl. by rewrite IH, str_app_assoc.
Qed.

Lemma backup_path_inj : Inj (=) (=) backup_path.
Proof.
  intros k1 k2 H. unfold backup_path in H.
  apply String.app_inj in H. apply String.app_inj in H.
  by apply str_app_inv_tail in H.
Qed.

End BackupFacts.

(** * Facts about the registry and the two loops over it *)

Module RegistryFacts.
Import PackageManager PyStrFacts.

Lemma isinstance_marked (child : instance) :
  isinstance child cMarkedPackages = bool_decide (class_of child = cMarkedPackages).
Proof. unfold isinstance, issubclass. by rewrite orb_false_r. Qed.

Lemma isinstance_logs (child : instance) :
  isinstance child cLogsPackages = bool_decide (class_of child = cLogsPackages).
Proof. unfold isinstance, issubclass. by rewrite orb_false_r. Qed.

Lemma isinstance_snap (child : instance) :
  isinstance child cSnapPackages = bool_decide (class_of child = cSnapPackages).
Proof. unfold isinstance, issubclass. by rewrite orb_false_r. Qed.

Lemma instances_of_cons (c : Class) (i : instance) (l : list instance) :
  instances_of c (i :: l) =
  if decide (class_of i = c) then i :: instances_of c l else instances_of c l.
Proof. unfold instances_of. by rewrite filter_cons. Qed.

Lemma instances_of_app (c : Class) (l1 l2 : list instance) :
  instances_of c (l1 ++ l2) = instances_of c l1 ++ instances_of c l2.
Proof. apply filter_app. Qed.

Lemma pick_nil (c : Class) d : pick c [] d = d.
Proof. reflexivity. Qed.

Lemma pick_cons (c : Class) (i : instance) (l : list instance) d :
  pick c (i :: l) d = pick c l (if decide (class_of i = c) then result_of i else d).
Proof.
  unfold pick. rewrite instances_of_cons. case_decide; [|done].
  rewrite last_cons. by destruct (last (instances_of c l)).
Qed.

Lemma populated_cons (c : Class) (i : instance) (l : list instance) :
  populated c (i :: l) <->
  (class_of i = c -> is_Some (fields i)) /\ populated c l.
Proof. apply Forall_cons. Qed.

Ltac none_is_Some :=
  match goal with
  | H : ?c = ?c -> is_Some None |- _ => destruct (H eq_refl) as [? ?]; discriminate
  end.

(** The loop of [sum_pkgs] either runs through, and then each local holds
    the pair of the last instance of its class, or it stops at the first
    instance of one of the two classes that holds no result. *)
Lemma sum_pkgs_loop_cases (l : list instance) mk lg :
  (populated cMarkedPackages l /\ populated cLogsPackages l /\
   sum_pkgs_loop l mk lg =
     Ok (pick cMarkedPackages l mk, pick cLogsPackages l lg)) \/
  (~ (populated cMarkedPackages l /\ populated cLogsPackages l) /\
   sum_pkgs_loop l mk lg = Raise (AttributeError "pkgs_names")).
Proof.
  revert mk lg. induction l as [|i l IH]; intros mk lg.
  { left. repeat split; constructor. }
  rewrite !populated_cons, !pick_cons. simpl sum_pkgs_loop.
  rewrite isinstance_marked, isinstance_logs.
  destruct i as [k [a|]]; destruct k; simpl;
    unfold get_pkgs_names, get_pkgs_dpnds, result_of; simpl.
  all: try (right; split; [intros [[H _] [H' _]]; none_is_Some|done]).
  all: match goal with
    | IH' : forall mk lg, _ |- context [sum_pkgs_loop _ ?m ?g] =>
        destruct (IH' m g) as [(HM & HL & ->)|[Hn ->]]
    end.
  all: try (left; repeat split; by eauto).
  all: right; (split; [|done]); intros [[_ ?] [_ ?]]; apply Hn; done.
Qed.


(** The loop of [struct_pkgs] binds [snap_pkgs] for every instance of the
    snap collector it meets: the last one stays. *)
Lemma struct_pkgs_loop_ok (l : list instance) rd :
  populated cSnapPackages l ->
  struct_pkgs_loop l rd = Ok (snap_bound l rd).
Proof.
  revert rd. induction l as [|i l IH]; intros rd Hp; [done|].
  apply populated_cons in Hp as [Hi Hp]. simpl struct_pkgs_loop.
  rewrite isinstance_snap. unfold snap_bound. rewrite instances_of_cons.
  case_bool_decide as Hc.
  - destruct (Hi Hc) as [a Ha]. unfold get_pkgs_names. rewrite Ha. simpl.
    rewrite IH by done. unfold snap_bound.
    rewrite decide_True by done. rewrite last_cons.
    destruct (last (instances_of cSnapPackages l)) as [j|] eqn:Hl; simpl.
    + assert (is_Some (fields j)) as [b Hb].
      { apply last_Some_elem_of in Hl. apply list_elem_of_filter in Hl as [Hcj Hj].
        unfold populated in Hp. rewrite Forall_forall in Hp. by apply Hp. }
      rewrite Hb. by rewrite insert_insert_eq.
    + by rewrite Ha.
  - rewrite decide_False by done. simpl. by rewrite IH.
Qed.

Lemma struct_pkgs_loop_raise (l : list instance) rd :
  ~ populated cSnapPackages l ->
  struct_pkgs_loop l rd = Raise (AttributeError "pkgs_names").
Proof.
  revert rd. induction l as [|i l IH]; intros rd Hp.
  { destruct Hp. constructor. }
  simpl struct_pkgs_loop. rewrite isinstance_snap.
  case_bool_decide as Hc.
  - unfold get_pkgs_names. destruct (fields i) as [a|] eqn:Ha; [|done].
    simpl. apply IH. intros Hl. apply Hp. apply populated_cons. eauto.
  - simpl. apply IH. intros Hl. apply Hp. apply populated_cons. split; [done|done].
Qed.

Lemma snap_bound_lookup_ne (l : list instance) rd (k : string) :
  k <> "snap_pkgs" -> snap_bound l rd !! k = rd !! k.
Proof.
  intros Hk. unfold snap_bound.
  destruct (last (instances_of cSnapPackages l) ≫= fields); [|done].
  by rewrite lookup_insert_ne.
Qed.

Lemma populated_nil_instances (c : Class) (l : list instance) :
  instances_of c l = [] -> populated c l.
Proof.
  intros H. apply Forall_forall. intros i Hi Hc.
  assert (i ∈ instances_of c l) as Hin by by apply list_elem_of_filter.
  rewrite H in Hin. by apply not_elem_of_nil in Hin.
Qed.


(** [sum_pkgs] on a registry in which the instances of the two classes hold
    results. *)
Lemma sum_pkgs_ok (l : list instance) (m g : instance) (am ag : attrs) :
  populated cMarkedPackages l -> populated cLogsPackages l ->
  last (instances_of cMarkedPackages l) = Some m -> fields m = Some am ->
  last (instances_of cLogsPackages l) = Some g -> fields g = Some ag ->
  sum_pkgs l =
    Ok ((pkgs_names am ∖ pkgs_names ag) ∖ (pkgs_dpnds am ∖ pkgs_dpnds ag),
        pkgs_dpnds am ∖ pkgs_dpnds ag).
Proof.
  intros HM HL Hm Ham Hg Hag. unfold sum_pkgs.
  destruct (sum_pkgs_loop_cases l None None) as [(_ & _ & ->)|[Hn _]];
    [|by destruct Hn].
  unfold pick, result_of. rewrite Hm, Hg, Ham, Hag. done.
Qed.


(** The three groups that [struct_pkgs] computes before its loop. *)
Lemma struct_pkgs_ok (l : list instance) (names : gset string) :
  populated cSnapPackages l ->
  struct_pkgs l names =
    Ok (snap_bound l
          (<["lib_pkgs" :=
               filter (fun pkg => PyStr.contains "lib" pkg) names ∖
               filter (fun pkg => PyStr.contains "pyth" pkg) names]>
             (<["py_pkgs" := filter (fun pkg => PyStr.contains "pyth" pkg) names]>
                (<["gen_pkgs" :=
                     names ∖ filter (fun pkg => PyStr.contains "pyth" pkg) names ∖
                     (filter (fun pkg => PyStr.contains "lib" pkg) names ∖
                      filter (fun pkg => PyStr.contains "pyth" pkg) names)]> ∅)))).
Proof. intros Hp. unfold struct_pkgs. by rewrite struct_pkgs_loop_ok. Qed.

Lemma elem_of_filter_contains (sub : string) (names : gset string) (x : string) :
  x ∈ filter (fun pkg => PyStr.contains sub pkg) names <->
  x ∈ names /\ occurs_in sub x.
Proof.
  rewrite elem_of_filter, Is_true_true, contains_spec. tauto.
Qed.

Lemma occurs_in_dec (sub x : string) : Decision (occurs_in sub x).
Proof.
  destruct (PyStr.contains sub x) eqn:E.
  - left. by apply contains_spec.
  - right. intros H%contains_spec. congruence.
Qed.

End RegistryFacts.

(** * Facts about the collectors *)

Module CollectorFacts.
Import PackageManager PyStrFacts RegistryFacts.

Lemma finish_names (n d : list string) :
  pkgs_names (finish n d) = list_to_set n ∖ list_to_set d.
Proof. reflexivity. Qed.

Lemma finish_dpnds (n d : list string) :
  pkgs_dpnds (finish n d) = list_to_set d.
Proof. reflexivity. Qed.

(** The last statements of every [main] make the two sets disjoint. *)
Lemma finish_disjoint (n d : list string) :
  pkgs_names (finish n d) ∩ pkgs_dpnds (finish n d) = ∅.
Proof.
  rewrite finish_names, finish_dpnds. apply elem_of_equiv_empty_L.
  intros x. rewrite elem_of_intersection, elem_of_difference. tauto.
Qed.

Lemma logs_parse_disjoint (raw : string) :
  pkgs_names (LogsPackages.parse raw) ∩ pkgs_dpnds (LogsPackages.parse raw) = ∅.
Proof.
  unfold LogsPackages.parse. destruct (foldl _ _ _) as [n d].
  apply finish_disjoint.
Qed.

Lemma snap_parse_disjoint (raw : string) :
  pkgs_names (SnapPackages.parse raw) ∩ pkgs_dpnds (SnapPackages.parse raw) = ∅.
Proof. apply finish_disjoint. Qed.

Lemma snap_parse_dpnds (raw : string) :
  pkgs_dpnds (SnapPackages.parse raw) = {["snap-store"]}.
Proof.
  unfold SnapPackages.parse. rewrite finish_dpnds. set_solver.
Qed.

(** The command of [MarkedPackages.main] for one package. *)
Lemma info_command_spec (pkg_name : string) :
  MarkedPackages.info_command pkg_name = ["apt"; "show"; pkg_name].
Proof.
  unfold MarkedPackages.info_command, MarkedPackages.format. simpl.
  by rewrite str_app_nil_r.
Qed.

Section run.
Context {World : Type}.
Variable run : list string -> World -> string * World.

Lemma logs_collect_parse (w : World) :
  (LogsPackages.collect run w).1 =
  LogsPackages.parse (run LogsPackages.PKGS_COMMAND w).1.
Proof.
  unfold LogsPackages.collect, _run_command. by destruct (run _ w).
Qed.

Lemma snap_collect_parse (w : World) :
  (SnapPackages.collect run w).1 =
  SnapPackages.parse (run SnapPackages.PKGS_COMMAND w).1.
Proof.
  unfold SnapPackages.collect, _run_command. by destruct (run _ w).
Qed.

Lemma marked_collect_finish (w : World) :
  exists n d, (MarkedPackages.collect run w).1 = finish n d.
Proof.
  unfold MarkedPackages.collect. destruct (_run_command _ _ _) as [out w1].
  destruct (foldl _ _ _) as [[n d] w2]. by exists n, d.
Qed.

Lemma marked_collect_disjoint (w : World) :
  pkgs_names (MarkedPackages.collect run w).1 ∩
  pkgs_dpnds (MarkedPackages.collect run w).1 = ∅.
Proof.
  destruct (marked_collect_finish w) as (n & d & ->). apply finish_disjoint.
Qed.

Lemma logs_main_registry (self : nat) (st : list instance * World) :
  (LogsPackages.main run self st).1 =
  set_pkgs self (LogsPackages.collect run st.2).1 st.1.
Proof. unfold LogsPackages.main. by destruct (LogsPackages.collect _ _). Qed.

Lemma marked_main_registry (self : nat) (st : list instance * World) :
  (MarkedPackages.main run self st).1 =
  set_pkgs self (MarkedPackages.collect run st.2).1 st.1.
Proof. unfold MarkedPackages.main. by destruct (MarkedPackages.collect _ _). Qed.

Lemma snap_main_registry (self : nat) (st : list instance * World) :
  (SnapPackages.main run self st).1 =
  set_pkgs self (SnapPackages.collect run st.2).1 st.1.
Proof. unfold SnapPackages.main. by destruct (SnapPackages.collect _ _). Qed.

Lemma set_pkgs_lookup (self : nat) (a : attrs) (l : list instance) (i : instance) :
  l !! self = Some i ->
  set_pkgs self a l !! self = Some {| class_of := class_of i; fields := Some a |}.
Proof. intros H. unfold set_pkgs. by rewrite list_lookup_alter_eq, H. Qed.

Lemma set_pkgs_stored (self : nat) (a : attrs) (l : list instance) :
  pkgs_names a ∩ pkgs_dpnds a = ∅ ->
  (forall i, l !! self = Some i -> class_of i = cSnapPackages ->
             pkgs_dpnds a = {["snap-store"]}) ->
  Forall stored_ok l -> Forall stored_ok (set_pkgs self a l).
Proof.
  intros Hd Hs Hl. apply Forall_alter; [done|].
  intros i Hi _ b [= <-]. split; [done|]. simpl. by apply Hs.
Qed.

(** Every result that a run of the program has stored is a pair of
    disjoint sets, and the snap collector's dependencies are the
    placeholder. *)
Lemma reachable_stored (st : list instance * World) :
  reachable run st -> Forall stored_ok st.1.
Proof.
  intros [w0 Hrtc]. revert st Hrtc.
  apply (rtc_ind_r (fun st => Forall stored_ok st.1)); [constructor|].
  intros st st' _ Hstep IHst.
  destruct Hstep as [cls l w|self i st Hi Hc|self i st Hi Hc|self i st Hi Hc].
  - simpl in *. apply Forall_app. split; [done|].
    apply Forall_singleton. by intros a.
  - rewrite logs_main_registry. apply set_pkgs_stored; [|congruence|done].
    rewrite logs_collect_parse. apply logs_parse_disjoint.
  - rewrite marked_main_registry. apply set_pkgs_stored; [|congruence|done].
    apply marked_collect_disjoint.
  - rewrite snap_main_registry, snap_collect_parse.
    apply set_pkgs_stored; [apply snap_parse_disjoint| |done].
    intros; apply snap_parse_dpnds.
Qed.

End run.
End CollectorFacts.

(** * Names are single lines

    Every string that a collector stores is cut out of one line of the
    text of a command, so no line feed occurs in it. *)

Module LineFacts.
Import PackageManager PyStr PyStrFacts CollectorFacts.

(** The character [c] does not occur in [s]. *)
Local Abbreviation free c s := (contains (String c "") s = false).

Lemma free_cons (c a : ascii) (s : string) :
  free c (String a s) <-> a <> c /\ free c s.
Proof.
  rewrite contains_cons, orb_false_iff, prefix_cons, prefix_nil, andb_true_r.
  rewrite bool_decide_eq_false. intuition congruence.
Qed.

Lemma free_app (c : ascii) (a b : string) :
  free c (a +:+ b) <-> free c a /\ free c b.
Proof.
  induction a as [|x a IH].
  - rewrite str_app_nil_l. split; [done|tauto].
  - rewrite str_app_cons, !free_cons, IH. tauto.
Qed.

Lemma free_replace_from (c : ascii) (old new : string) (k : nat) (s : string) :
  free c new -> free c s -> free c (replace_from old new k s).
Proof.
  intros Hnew. revert k. induction s as [|a s IH]; intros k Hs; [done|].
  apply free_cons in Hs as [Ha Hs]. destruct k; [|by apply IH].
  rewrite replace_from_cons. destruct (String.prefix old (String a s)).
  - apply free_app. split; [done|by apply IH].
  - apply free_cons. split; [done|by apply IH].
Qed.

Lemma free_replace (c : ascii) (old new s : string) :
  old <> "" -> free c new -> free c s -> free c (replace old new s).
Proof.
  destruct old; [done|]. intros _. apply free_replace_from.
Qed.

Lemma Forall_free_cons_hd (c a : ascii) (l : list string) :
  a <> c -> Forall (fun x => free c x) l ->
  Forall (fun x => free c x) (cons_hd a l).
Proof.
  intros Ha [|x l' Hx Hl]; simpl.
  - repeat constructor. by apply free_cons.
  - constructor; [|done]. by apply free_cons.
Qed.

Lemma free_split_from (c : ascii) (sep : string) (k : nat) (s : string) :
  free c s -> Forall (fun x => free c x) (split_from sep k s).
Proof.
  revert k. induction s as [|a s IH]; intros k Hs; [by repeat constructor|].
  apply free_cons in Hs as [Ha Hs]. destruct k; [|by apply IH].
  rewrite split_from_cons. destruct (String.prefix sep (String a s)).
  - constructor; [done|by apply IH].
  - apply Forall_free_cons_hd; [done|by apply IH].
Qed.

Lemma free_split (c : ascii) (sep s : string) :
  free c s -> Forall (fun x => free c x) (split sep s).
Proof. apply free_split_from. Qed.

Lemma split_char_cons (c a : ascii) (s : string) :
  split (String c "") (String a s) =
  if bool_decide (a = c) then "" :: split (String c "") s
  else cons_hd a (split (String c "") s).
Proof.
  case_bool_decide as Hc.
  - subst a. change (String c s) with (String c "" +:+ s). by rewrite split_here.
  - apply split_next. rewrite prefix_cons, prefix_nil, andb_true_r.
    apply bool_decide_eq_false_2. congruence.
Qed.

(** The pieces of a split at a character are free of it. *)
Lemma split_char_free (c : ascii) (s : string) :
  Forall (fun x => free c x) (split (String c "") s).
Proof.
  induction s as [|a s IH]; [by repeat constructor|].
  rewrite split_char_cons. case_bool_decide as Hc.
  - by constructor.
  - by apply Forall_free_cons_hd.
Qed.

Lemma free_lstrip (c : ascii) (s : string) : free c s -> free c (lstrip s).
Proof.
  induction s as [|a s IH]; [done|]. intros Hs. simpl.
  destruct (isspace a); [|done]. apply free_cons in Hs as [_ Hs]. by apply IH.
Qed.

Lemma free_rstrip (c : ascii) (s : string) : free c s -> free c (rstrip s).
Proof.
  induction s as [|a s IH]; [done|]. intros [Ha Hs]%free_cons. simpl.
  specialize (IH Hs). destruct (rstrip s) as [|b r].
  - destruct (isspace a); [done|]. by apply free_cons.
  - by apply free_cons.
Qed.

Lemma free_strip (c : ascii) (s : string) : free c s -> free c (strip s).
Proof. intros Hs. by apply free_rstrip, free_lstrip. Qed.

Lemma free_item0 (c : ascii) (l : list string) :
  Forall (fun x => free c x) l -> free c (item0 l).
Proof. by intros [|x l' Hx Hl]. Qed.

Lemma free_parse_dpnds (c : ascii) (d : string) :
  free c d -> Forall (fun x => free c x) (_parse_dpnds d).
Proof.
  intros Hd. unfold _parse_dpnds. apply Forall_forall. intros x Hx.
  apply list_elem_of_In, in_map_iff in Hx as (y & <- & Hy).
  apply free_item0, free_split.
  assert (Forall (fun x => free c x)
            (split ", " (strip (replace "|" "" (replace "Pre-" "" d))))) as Hall.
  { by apply free_split, free_strip, free_replace, free_replace. }
  rewrite Forall_forall in Hall. by apply Hall, list_elem_of_In.
Qed.

(** Taking every [c] out leaves no [c]. *)
Lemma free_replace_char (c : ascii) (s : string) :
  free c (replace (String c "") "" s).
Proof.
  unfold replace. induction s as [|a s IH]; [done|].
  rewrite replace_from_cons, prefix_cons, prefix_nil, andb_true_r.
  case_bool_decide as Hc.
  - by rewrite str_app_nil_l.
  - apply free_cons. split; [congruence|done].
Qed.

(** No entry of a parsed dependency list holds a bar. *)
Lemma parse_dpnds_no_bar (d : string) :
  Forall (fun x => free "|" x) (_parse_dpnds d).
Proof.
  unfold _parse_dpnds. apply Forall_forall. intros x Hx.
  apply list_elem_of_In, in_map_iff in Hx as (y & <- & Hy).
  apply free_item0, free_split.
  assert (Forall (fun x => free "|" x)
            (split ", " (strip (replace "|" "" (replace "Pre-" "" d))))) as Hall.
  { apply free_split, free_strip, free_replace_char. }
  rewrite Forall_forall in Hall. by apply Hall, list_elem_of_In.
Qed.

Lemma free_first_match (c : ascii) (trigger old : string) (info : list string) :
  old <> "" -> Forall (fun x => free c x) info ->
  free c match filter (fun l => contains trigger l) info with
         | x :: _ => replace old "" x
         | [] => ""
         end.
Proof.
  intros Hold Hinfo.
  destruct (filter _ info) as [|x l] eqn:E; [done|].
  apply free_replace; [done..|].
  assert (x ∈ filter (fun l => contains trigger l) info) as Hx by (rewrite E; left).
  apply list_elem_of_filter in Hx as [_ Hx].
  rewrite Forall_forall in Hinfo. by apply Hinfo.
Qed.

Lemma free_accumulate (c : ascii) (info : list string) (nt dt : string)
    (names dpnds : list string) :
  Forall (fun x => free c x) info ->
  Forall (fun x => free c x) names -> Forall (fun x => free c x) dpnds ->
  Forall (fun x => free c x) (accumulate info nt dt names dpnds).1 /\
  Forall (fun x => free c x) (accumulate info nt dt names dpnds).2.
Proof.
  intros Hinfo Hn Hd. unfold accumulate, _separate_structured_info.
  pose proof (free_first_match c nt "Package: " info ltac:(done) Hinfo) as H1.
  pose proof (free_first_match c dt "Depends: " info ltac:(done) Hinfo) as H2.
  destruct (filter (fun l => contains nt l) info) as [|x l];
    destruct (filter (fun l => contains dt l) info) as [|y l'];
    simpl in *; split;
    repeat match goal with
      | |- context [if ?b then _ else _] => destruct b
      end;
    rewrite ?Forall_app; repeat split; try done;
    try (by apply Forall_singleton); by apply free_parse_dpnds.
Qed.

(** The sets of [finish] hold what the lists held. *)
Lemma finish_lines_ok (n d : list string) :
  Forall (fun x => contains LF x = false) n ->
  Forall (fun x => contains LF x = false) d ->
  lines_ok (finish n d).
Proof.
  rewrite !Forall_forall. intros Hn Hd x.
  rewrite finish_names, finish_dpnds, elem_of_union, elem_of_difference.
  rewrite !elem_of_list_to_set. unfold single_line.
  rewrite <- contains_spec, not_true_iff_false. intros [[Hx _]|Hx]; auto.
Qed.

Lemma logs_fold_free (blocks : list string) (acc : list string * list string) :
  Forall (fun x => contains LF x = false) acc.1 ->
  Forall (fun x => contains LF x = false) acc.2 ->
  Forall (fun x => contains LF x = false) (foldl LogsPackages.step acc blocks).1 /\
  Forall (fun x => contains LF x = false) (foldl LogsPackages.step acc blocks).2.
Proof.
  revert acc. induction blocks as [|b blocks IH]; intros acc Hn Hd; [done|].
  simpl. apply IH; apply free_accumulate; try done; apply split_char_free.
Qed.

Lemma logs_parse_lines_ok (raw : string) : lines_ok (LogsPackages.parse raw).
Proof.
  unfold LogsPackages.parse.
  pose proof (logs_fold_free (_separate_all_info raw) ([], [])
                ltac:(constructor) ltac:(constructor)) as [Hn Hd].
  destruct (foldl _ _ _) as [n d]. by apply finish_lines_ok.
Qed.

Lemma snap_parse_lines_ok (raw : string) : lines_ok (SnapPackages.parse raw).
Proof.
  unfold SnapPackages.parse. apply finish_lines_ok; [|by repeat constructor].
  apply Forall_forall. intros x [_ Hx]%list_elem_of_filter.
  apply list_elem_of_omap in Hx as (cols & Hcols & Hx).
  apply list_elem_of_In, in_map_iff in Hcols as (row & <- & Hrow).
  destruct (0 <? length (SnapPackages.columns row)); [|done].
  apply list_elem_of_lookup_2, list_elem_of_filter in Hx as [_ Hx].
  assert (contains LF row = false) as Hfree.
  { pose proof (split_char_free "010" raw) as Hall.
    rewrite Forall_forall in Hall. apply Hall.
    apply list_elem_of_In in Hrow. unfold _separate_pkg_info in Hrow.
    by apply (subseteq_drop 1). }
  pose proof (free_split "010" " " row Hfree) as Hall.
  rewrite Forall_forall in Hall. by apply Hall.
Qed.

Section run.
Context {World : Type}.
Variable run : list string -> World -> string * World.

Lemma marked_fold_free (names : list string)
    (acc : list string * list string * World) :
  Forall (fun x => contains LF x = false) acc.1.1 ->
  Forall (fun x => contains LF x = false) acc.1.2 ->
  Forall (fun x => contains LF x = false)
         (foldl (MarkedPackages.step run) acc names).1.1 /\
  Forall (fun x => contains LF x = false)
         (foldl (MarkedPackages.step run) acc names).1.2.
Proof.
  revert acc. induction names as [|p names IH]; intros [[n d] w] Hn Hd; [done|].
  simpl foldl.
  assert (Forall (fun x => contains LF x = false)
            (MarkedPackages.step run (n, d, w) p).1.1 /\
          Forall (fun x => contains LF x = false)
            (MarkedPackages.step run (n, d, w) p).1.2) as [H1 H2].
  { unfold MarkedPackages.step. destruct (_run_command _ _ _) as [info w'].
    pose proof (free_accumulate "010" (_separate_pkg_info info)
                  MarkedPackages.PKG_NAME_TRIGGER
                  MarkedPackages.PKG_DEPENDS_TRIGGER n d
                  (split_char_free "010" info) Hn Hd) as [H1 H2].
    by destruct (accumulate _ _ _ _ _). }
  by apply IH.
Qed.

Lemma marked_collect_lines_ok (w : World) :
  lines_ok (MarkedPackages.collect run w).1.
Proof.
  unfold MarkedPackages.collect. destruct (_run_command _ _ _) as [out w1].
  pose proof (marked_fold_free (_separate_pkg_info out) ([], [], w1)
                ltac:(constructor) ltac:(constructor)) as [Hn Hd].
  destruct (foldl _ _ _) as [[n d] w2]. by apply finish_lines_ok.
Qed.

(** In every registry that a run reaches, the names and the dependencies
    of every stored result are single lines. *)
Lemma reachable_lines_ok (st : list instance * World) :
  reachable run st ->
  Forall (fun i => forall a, fields i = Some a -> lines_ok a) st.1.
Proof.
  intros [w0 Hrtc]. revert st Hrtc.
  apply (rtc_ind_r (fun st =>
           Forall (fun i => forall a, fields i = Some a -> lines_ok a) st.1));
    [constructor|].
  intros st st' _ Hstep IHst.
  destruct Hstep as [cls l w|self i st Hi Hc|self i st Hi Hc|self i st Hi Hc].
  - simpl in *. apply Forall_app. split; [done|].
    apply Forall_singleton. by intros a.
  - rewrite logs_main_registry, logs_collect_parse.
    apply Forall_alter; [done|]. intros j _ _ a [= <-].
    apply logs_parse_lines_ok.
  - rewrite marked_main_registry.
    apply Forall_alter; [done|]. intros j _ _ a [= <-].
    apply marked_collect_lines_ok.
  - rewrite snap_main_registry, snap_collect_parse.
    apply Forall_alter; [done|]. intros j _ _ a [= <-].
    apply snap_parse_lines_ok.
Qed.

End run.
End LineFacts.

(** * Facts about the extraction of the two fields *)

Module ExtractFacts.
Import PackageManager PyStrFacts.

Lemma filter_contains_first (trigger : string) (pre post : list string)
    (line : string) :
  Forall (fun l => ~ occurs_in trigger l) pre ->
  occurs_in trigger line ->
  filter (fun l => PyStr.contains trigger l) (pre ++ line :: post) =
  line :: filter (fun l => PyStr.contains trigger l) post.
Proof.
  intros Hpre Hline. rewrite filter_app.
  rewrite filter_cons_True by by apply Is_true_true, contains_spec.
  induction Hpre as [|x pre Hx _ IH]; [done|].
  rewrite filter_cons_False; [done|].
  by rewrite Is_true_true, contains_spec.
Qed.

Lemma filter_contains_none (trigger : string) (info : list string) :
  Forall (fun l => ~ occurs_in trigger l) info ->
  filter (fun l => PyStr.contains trigger l) info = [].
Proof.
  induction 1 as [|x info Hx _ IH]; [done|].
  rewrite filter_cons_False; [done|].
  by rewrite Is_true_true, contains_spec.
Qed.

Lemma separate_name (info : list string) (nt dt : string) :
  (_separate_structured_info info nt dt).1 =
  match filter (fun l => PyStr.contains nt l) info with
  | x :: _ => PyStr.replace "Package: " "" x
  | [] => ""
  end.
Proof. reflexivity. Qed.

Lemma separate_dpnd (info : list string) (nt dt : string) :
  (_separate_structured_info info nt dt).2 =
  match filter (fun l => PyStr.contains dt l) info with
  | x :: _ => PyStr.replace "Depends: " "" x
  | [] => ""
  end.
Proof. reflexivity. Qed.

(** Removing a trigger that stands at the front and nowhere else leaves
    the rest of the line. *)
Lemma replace_prefix_only (trigger rest : string) :
  trigger <> "" -> ~ occurs_in trigger rest ->
  PyStr.replace trigger "" (trigger +:+ rest) = rest.
Proof.
  intros Hne Hrest. rewrite replace_here by done. rewrite str_app_nil_l.
  apply replace_absent. apply not_true_iff_false. by rewrite contains_spec.
Qed.

(** A record in which neither trigger occurs leaves both accumulators as
    they are. *)
Lemma accumulate_neither (info : list string) (nt dt : string)
    (names dpnds : list string) :
  Forall (fun l => ~ occurs_in nt l) info ->
  Forall (fun l => ~ occurs_in dt l) info ->
  accumulate info nt dt names dpnds = (names, dpnds).
Proof.
  intros Hn Hd. unfold accumulate, _separate_structured_info.
  by rewrite !filter_contains_none.
Qed.

End ExtractFacts.

(** * Facts about the snap listing *)

Module SnapFacts.
Import PackageManager PyStrFacts.

Lemma columns_fields (row : string) :
  SnapPackages.columns row = fields_by is_space row.
Proof. apply split_space_fields. Qed.

Lemma first_column (rows : list string) :
  omap (fun pkg : list string => if 0 <? length pkg then pkg !! 0 else None)
       (map SnapPackages.columns rows) =
  omap (fun row => head (fields_by is_space row)) rows.
Proof.
  induction rows as [|row rows IH]; [done|].
  simpl. fold (@omap list _ _ _
    (fun pkg : list string => if 0 <? length pkg then pkg !! 0 else None)
    (map SnapPackages.columns rows)).
  fold (@omap list _ _ _ (fun row => head (fields_by is_space row)) rows).
  rewrite IH, columns_fields. by destruct (fields_by is_space row).
Qed.

(** [rm_pkg] keeps the names in which no entry of the list occurs. *)
Lemma rm_pkg_loop_spec (ignored_pkgs : list string) (pkgs : string) :
  SnapPackages.rm_pkg_loop ignored_pkgs pkgs = true <->
  forall ignored, ignored ∈ ignored_pkgs -> ~ occurs_in ignored pkgs.
Proof.
  induction ignored_pkgs as [|ig l IH]; simpl.
  - split; [|done]. intros _ ig Hin. by apply not_elem_of_nil in Hin.
  - destruct (PyStr.contains ig pkgs) eqn:E.
    + split; [done|]. intros H. exfalso. apply (H ig); [left|].
      by apply contains_spec.
    + rewrite IH. split.
      * intros H x [->|Hin]%elem_of_cons; [|by apply H].
        rewrite <- contains_spec. congruence.
      * intros H x Hin. apply H. by right.
Qed.

Lemma snap_parse_names (raw : string) :
  pkgs_names (SnapPackages.parse raw) =
  list_to_set
    (filter (fun n => SnapPackages.rm_pkg n)
       (omap (fun row => head (fields_by is_space row))
          (drop 1 (PyStr.split PyStr.LF raw))))
    ∖ {["snap-store"]}.
Proof.
  unfold SnapPackages.parse, finish, _separate_pkg_info. simpl pkgs_names.
  by rewrite first_column.
Qed.

Lemma isspace_space : PyStr.isspace " " = true.
Proof. reflexivity. Qed.

Lemma is_space_true (c : ascii) : is_space c = true <-> c = " "%char.
Proof. unfold is_space. apply bool_decide_eq_true. Qed.

Lemma fields_by_ext (p q : ascii -> bool) (s : string) :
  Forall (fun c => p c = q c) (String.list_ascii_of_string s) ->
  fields_by p s = fields_by q s.
Proof.
  induction s as [|c s IH]; [done|]. simpl String.list_ascii_of_string.
  intros [Hc Hs]%Forall_cons. simpl. rewrite Hc, (IH Hs).
  destruct s as [|c' s']; [done|].
  simpl in Hs. apply Forall_cons in Hs as [Hc' _]. by rewrite Hc'.
Qed.

(** On a line whose only whitespace is the space, the columns are the
    whitespace-separated ones. *)
Lemma fields_space_only (row : string) :
  Forall (fun c => PyStr.isspace c = true -> c = " "%char)
         (String.list_ascii_of_string row) ->
  fields_by is_space row = fields_by PyStr.isspace row.
Proof.
  intros H. apply fields_by_ext. eapply Forall_impl; [exact H|].
  intros c Hc. simpl in Hc. destruct (PyStr.isspace c) eqn:E.
  - by rewrite (Hc eq_refl).
  - apply not_true_iff_false. rewrite is_space_true. by intros ->.
Qed.

End SnapFacts.

(** * Facts about the persister *)

Module PersistFacts.
Import PackageManager PyStr PyStrFacts BackupFacts LineFacts.


(** *** The names of a backup path *)

Lemma split_char_first (c : ascii) (first rest : string) :
  contains (String c "") first = false ->
  split (String c "") (first +:+ String c "" +:+ rest) =
  first :: split (String c "") rest.
Proof.
  induction first as [|a first IH]; intros Hfree.
  - by rewrite str_app_nil_l, split_here.
  - apply free_cons in Hfree as [Ha Hfree].
    rewrite str_app_cons, split_char_cons.
    rewrite bool_decide_eq_false_2 by done. by rewrite IH.
Qed.

Lemma file_name_free (key : string) :
  file_name key <->
  contains "/" key = false /\ contains NUL key = false.
Proof.
  unfold file_name. rewrite <- !contains_spec, !not_true_iff_false. tauto.
Qed.

Lemma backup_path_cons (key : string) :
  backup_path key = String "b" ("acklibs/" +:+ key +:+ ".txt").
Proof. reflexivity. Qed.

Lemma backup_path_names (key : string) :
  file_name key ->
  split "/" (backup_path key) = [_BACKUP_FOLDER; key +:+ ".txt"].
Proof.
  intros [Hs _]%file_name_free. unfold backup_path.
  rewrite (split_char_first "/" _BACKUP_FOLDER) by reflexivity.
  rewrite split_absent; [done|]. by apply free_app.
Qed.

Lemma backup_path_no_NUL (key : string) :
  file_name key -> contains NUL (backup_path key) = false.
Proof.
  intros [_ Hn]%file_name_free. unfold backup_path, NUL.
  apply free_app. split; [reflexivity|].
  apply free_app. split; [reflexivity|]. by apply free_app.
Qed.

Lemma txt_plain (key : string) :
  key +:+ ".txt" <> "" /\ key +:+ ".txt" <> "." /\ key +:+ ".txt" <> "..".
Proof.
  assert (4 <= String.length (key +:+ ".txt")) as Hlen.
  { rewrite str_length_app. simpl. lia. }
  repeat split; intros E; rewrite E in Hlen; simpl in Hlen; lia.
Qed.

Lemma backup_file_inj (fs : filesystem) : Inj (=) (=) (backup_file fs).
Proof.
  intros k1 k2 H. unfold backup_file in H.
  apply app_inv_head in H. injection H as H.
  by apply str_app_inv_tail in H.
Qed.

Lemma backup_file_folder (fs : filesystem) (key : string) :
  backup_file fs key <> cwd fs ++ [_BACKUP_FOLDER].
Proof.
  unfold backup_file. intros H. apply app_inv_head in H. done.
Qed.

Lemma walk_plain (fs : filesystem) (cur : list string) (name : string)
    (rest : list string) :
  name <> "" -> name <> "." -> name <> ".." ->
  walk fs cur (name :: rest) =
  if is_dir fs cur then walk fs (cur ++ [name]) rest
  else if is_file fs cur then Raise NotADirectoryError
  else Raise FileNotFoundError.
Proof.
  intros H0 H1 H2. cbn [walk].
  rewrite (bool_decide_eq_false_2 (name = "" \/ name = ".")) by tauto.
  by rewrite (bool_decide_eq_false_2 (name = "..")) by done.
Qed.

Lemma resolve_folder (fs : filesystem) :
  resolve fs _BACKUP_FOLDER =
  if is_dir fs (cwd fs) then Ok (cwd fs ++ [_BACKUP_FOLDER])
  else if is_file fs (cwd fs) then Raise NotADirectoryError
  else Raise FileNotFoundError.
Proof.
  unfold resolve.
  change (contains NUL _BACKUP_FOLDER) with false.
  change (bool_decide (_BACKUP_FOLDER = "")) with false.
  change (String.prefix "/" _BACKUP_FOLDER) with false.
  change (split "/" _BACKUP_FOLDER) with [_BACKUP_FOLDER].
  cbv iota. by rewrite walk_plain.
Qed.

Lemma resolve_backup (fs : filesystem) (key : string) :
  file_name key ->
  resolve fs (backup_path key) =
  if is_dir fs (cwd fs) then
    if is_dir fs (cwd fs ++ [_BACKUP_FOLDER]) then Ok (backup_file fs key)
    else if is_file fs (cwd fs ++ [_BACKUP_FOLDER]) then Raise NotADirectoryError
    else Raise FileNotFoundError
  else if is_file fs (cwd fs) then Raise NotADirectoryError
  else Raise FileNotFoundError.
Proof.
  intros Hkey. unfold resolve.
  rewrite backup_path_no_NUL, backup_path_names by done.
  rewrite backup_path_cons.
  rewrite bool_decide_eq_false_2 by done.
  change (String.prefix "/" (String "b" ?s)) with false. cbv iota.
  destruct (txt_plain key) as (H0 & H1 & H2).
  rewrite walk_plain by done. destruct (is_dir fs (cwd fs)); [|done].
  rewrite walk_plain by done.
  destruct (is_dir fs (cwd fs ++ [_BACKUP_FOLDER])); [|done].
  unfold backup_file. by rewrite <- app_assoc.
Qed.

(** *** The folder *)

(** What the first statement of [save_data] leaves. *)
Lemma folder_cases (fs : filesystem) :
  (exists fs1,
     (if negb (path_exists _BACKUP_FOLDER fs) then mkdir _BACKUP_FOLDER fs
      else Ok fs) = Ok fs1 /\
     cwd fs1 = cwd fs /\ files fs1 = files fs /\
     (dirs fs1 = dirs fs \/
      is_dir fs (cwd fs) = true /\
      dirs fs1 = {[cwd fs ++ [_BACKUP_FOLDER]]} ∪ dirs fs)) \/
  (exists e,
     (if negb (path_exists _BACKUP_FOLDER fs) then mkdir _BACKUP_FOLDER fs
      else Ok fs) = Raise e).
Proof.
  destruct (path_exists _BACKUP_FOLDER fs) eqn:E; simpl.
  { left. exists fs. auto. }
  unfold path_exists in E. unfold mkdir. rewrite resolve_folder in *.
  destruct (is_dir fs (cwd fs)) eqn:Hcwd.
  - left. cbn [mbind result_bind]. rewrite E. eexists. split; [done|]. simpl. auto.
  - right. destruct (is_file fs (cwd fs)); by eexists.
Qed.

Lemma is_dir_elem (fs : filesystem) (p : list string) :
  p <> [] -> is_dir fs p = true <-> p ∈ dirs fs.
Proof.
  intros Hp. unfold is_dir. rewrite bool_decide_eq_false_2 by done.
  simpl. apply bool_decide_eq_true.
Qed.

Lemma is_dir_mono (fs fs' : filesystem) (p : list string) :
  dirs fs ⊆ dirs fs' -> is_dir fs p = true -> is_dir fs' p = true.
Proof.
  unfold is_dir. intros Hsub [H|H]%orb_true_iff; apply orb_true_iff; [by left|].
  right. apply bool_decide_eq_true. apply bool_decide_eq_true in H. auto.
Qed.

Lemma folder_ok (fs : filesystem) :
  is_dir fs (cwd fs) = true ->
  is_file fs (cwd fs ++ [_BACKUP_FOLDER]) = false ->
  exists fs1,
    (if negb (path_exists _BACKUP_FOLDER fs) then mkdir _BACKUP_FOLDER fs
     else Ok fs) = Ok fs1 /\
    cwd fs1 = cwd fs /\ files fs1 = files fs /\
    dirs fs1 = {[cwd fs ++ [_BACKUP_FOLDER]]} ∪ dirs fs.
Proof.
  intros Hcwd Hfile. unfold path_exists, mkdir. rewrite resolve_folder, Hcwd.
  rewrite Hfile, orb_false_r. cbn [mbind result_bind].
  rewrite Hfile, orb_false_r.
  destruct (is_dir fs (cwd fs ++ [_BACKUP_FOLDER])) eqn:E; simpl.
  - exists fs. split; [done|]. split; [done|]. split; [done|].
    apply is_dir_elem in E; [|by destruct (cwd fs)].
    symmetry. apply subseteq_union_1_L. by apply singleton_subseteq_l.
  - eexists. split; [done|]. done.
Qed.

(** *** One file *)

Lemma write_backup_cases (fs : filesystem) (key : string) (l : list string) :
  file_name key ->
  (is_dir fs (cwd fs) = true /\ is_dir fs (cwd fs ++ [_BACKUP_FOLDER]) = true /\
   is_dir fs (backup_file fs key) = false /\
   write_file (_BACKUP_FOLDER +:+ "/" +:+ key +:+ ".txt")
              (map (fun v => v +:+ LF) l) fs =
     Ok {| cwd := cwd fs; dirs := dirs fs;
           files := <[backup_file fs key := backup_text l]> (files fs) |}) \/
  (~ (is_dir fs (cwd fs) = true /\ is_dir fs (cwd fs ++ [_BACKUP_FOLDER]) = true /\
      is_dir fs (backup_file fs key) = false) /\
   exists e,
     write_file (_BACKUP_FOLDER +:+ "/" +:+ key +:+ ".txt")
                (map (fun v => v +:+ LF) l) fs = Raise e).
Proof.
  intros Hkey. unfold write_file. fold (backup_path key).
  rewrite resolve_backup by done.
  destruct (is_dir fs (cwd fs)) eqn:H1.
  2: { right. split; [by intros (? & _)|].
       destruct (is_file fs (cwd fs)); by eexists. }
  destruct (is_dir fs (cwd fs ++ [_BACKUP_FOLDER])) eqn:H2.
  2: { right. split; [by intros (_ & ? & _)|].
       destruct (is_file fs (cwd fs ++ [_BACKUP_FOLDER])); by eexists. }
  cbn [mbind result_bind].
  destruct (is_dir fs (backup_file fs key)) eqn:H3.
  - right. split; [by intros (_ & _ & ?)|]. by eexists.
  - left. by rewrite writes_backup_text.
Qed.

(** *** The loop *)

(** The loop changes neither the working directory nor the directories, and
    removes no file, whatever the keys are and however it ends. *)
Lemma save_data_loop_any (kwargs : list (string * list string))
    (fs fs' : filesystem) (e : option exn) :
  save_data_loop kwargs fs = (fs', e) ->
  cwd fs' = cwd fs /\ dirs fs' = dirs fs /\
  forall p, is_Some (files fs !! p) -> is_Some (files fs' !! p).
Proof.
  revert fs. induction kwargs as [|[k v] kwargs IH]; intros fs H.
  { simpl in H. by injection H as <- <-. }
  cbn [save_data_loop] in H. unfold write_file in H.
  destruct (resolve fs _) as [p|e0]; cbn [mbind result_bind] in H.
  2: { by injection H as <- <-. }
  destruct (is_dir fs p).
  { by injection H as <- <-. }
  apply IH in H as (Hc & Hd & Hf). simpl in *.
  split; [done|]. split; [done|]. intros q Hq. apply Hf.
  apply lookup_insert_is_Some. destruct (decide (p = q)); auto.
Qed.

(** A file that is the backup file of no key is as before, however the
    loop ends. *)
Lemma save_data_loop_frame (kwargs : list (string * list string))
    (fs fs' : filesystem) (e : option exn) (p : list string) :
  Forall file_name kwargs.*1 ->
  save_data_loop kwargs fs = (fs', e) ->
  (forall key, key ∈ kwargs.*1 -> p <> backup_file fs key) ->
  files fs' !! p = files fs !! p.
Proof.
  revert fs. induction kwargs as [|[k v] kwargs IH]; intros fs Hkeys H Hp.
  { simpl in H. by injection H as <- <-. }
  apply Forall_cons in Hkeys as [Hk Hkeys]. cbn [save_data_loop fst snd] in H.
  destruct (write_backup_cases fs k v Hk) as [(_ & _ & _ & Hw)|[_ [e0 Hw]]];
    rewrite Hw in H.
  2: { by injection H as <- <-. }
  rewrite (IH _ Hkeys H).
  - simpl. apply lookup_insert_ne. intros E. apply (Hp k); [left|done].
  - intros key Hkey. apply (Hp key). by right.
Qed.

(** When the loop ends without an exception, every file was written. *)
Lemma save_data_loop_None (kwargs : list (string * list string))
    (fs fs' : filesystem) (key : string) (l : list string) :
  Forall file_name kwargs.*1 -> NoDup kwargs.*1 ->
  save_data_loop kwargs fs = (fs', None) ->
  (key, l) ∈ kwargs ->
  files fs' !! backup_file fs key = Some (backup_text l) /\
  is_dir fs (cwd fs) = true /\ is_dir fs (cwd fs ++ [_BACKUP_FOLDER]) = true /\
  is_dir fs (backup_file fs key) = false.
Proof.
  revert fs. induction kwargs as [|[k v] kwargs IH]; intros fs Hkeys Hnd H Hin.
  { by apply elem_of_nil in Hin. }
  apply Forall_cons in Hkeys as [Hk Hkeys].
  apply NoDup_cons in Hnd as [Hfresh Hnd]. cbn [save_data_loop fst snd] in H.
  destruct (write_backup_cases fs k v Hk) as [(H1 & H2 & H3 & Hw)|[_ [e0 Hw]]];
    rewrite Hw in H; [|done].
  apply elem_of_cons in Hin as [[= -> ->]|Hin].
  - split; [|done].
    rewrite (save_data_loop_frame _ _ _ _ _ Hkeys H).
    + simpl. apply lookup_insert_eq.
    + intros key Hkey E. apply (backup_file_inj fs) in E. by subst key.
  - destruct (IH _ Hkeys Hnd H Hin) as (Hf & _ & _ & Hd). split; [done|].
    split; [done|]. split; [done|]. done.
Qed.

(** The loop ends without an exception when the folder is there and no
    backup file is a directory. *)
Lemma save_data_loop_ok (kwargs : list (string * list string)) (fs : filesystem) :
  Forall file_name kwargs.*1 ->
  is_dir fs (cwd fs) = true -> is_dir fs (cwd fs ++ [_BACKUP_FOLDER]) = true ->
  Forall (fun key => is_dir fs (backup_file fs key) = false) kwargs.*1 ->
  exists fs', save_data_loop kwargs fs = (fs', None).
Proof.
  revert fs. induction kwargs as [|[k v] kwargs IH]; intros fs Hkeys H1 H2 H3.
  { by eexists. }
  apply Forall_cons in Hkeys as [Hk Hkeys]. apply Forall_cons in H3 as [H3 H3'].
  cbn [save_data_loop fst snd].
  destruct (write_backup_cases fs k v Hk) as [(_ & _ & _ & Hw)|[Hn _]];
    [|by destruct Hn].
  rewrite Hw. by apply IH.
Qed.

(** *** [save_data] *)

(** Whatever the keys are and however [save_data] ends: the working
    directory is as before, no directory and no file is removed, the only
    directory that can be new is the folder. *)
Lemma save_data_any (kwargs : list (string * list string))
    (fs fs' : filesystem) (e : option exn) :
  save_data kwargs fs = (fs', e) ->
  cwd fs' = cwd fs /\
  dirs fs ⊆ dirs fs' /\ dirs fs' ⊆ {[cwd fs ++ [_BACKUP_FOLDER]]} ∪ dirs fs /\
  forall p, is_Some (files fs !! p) -> is_Some (files fs' !! p).
Proof.
  unfold save_data. intros H.
  destruct (folder_cases fs) as [(fs1 & Hprep & Hc & Hf & Hd)|[e0 Hprep]];
    rewrite Hprep in H.
  2: { injection H as <- <-. split; [done|]. split; [done|].
       split; [apply union_subseteq_r|done]. }
  apply save_data_loop_any in H as (Hc' & Hd' & Hf').
  split; [congruence|]. rewrite Hd'. split; [|split].
  - destruct Hd as [->|[_ ->]]; [done|apply union_subseteq_r].
  - destruct Hd as [->|[_ ->]]; [apply union_subseteq_r|done].
  - intros p Hp. apply Hf'. by rewrite Hf.
Qed.

Lemma save_data_frame (kwargs : list (string * list string))
    (fs fs' : filesystem) (e : option exn) (p : list string) :
  Forall file_name kwargs.*1 ->
  save_data kwargs fs = (fs', e) ->
  (forall key, key ∈ kwargs.*1 -> p <> backup_file fs key) ->
  files fs' !! p = files fs !! p.
Proof.
  unfold save_data. intros Hkeys H Hp.
  destruct (folder_cases fs) as [(fs1 & Hprep & Hc & Hf & Hd)|[e0 Hprep]];
    rewrite Hprep in H.
  2: { by injection H as <- <-. }
  rewrite (save_data_loop_frame _ _ _ _ _ Hkeys H); [by rewrite Hf|].
  intros key Hkey. unfold backup_file. rewrite Hc. by apply Hp.
Qed.

(** Every keyword argument leaves its text in its file when [save_data]
    returns. *)
Lemma save_data_files (kwargs : list (string * list string))
    (fs fs' : filesystem) (key : string) (l : list string) :
  Forall file_name kwargs.*1 -> NoDup kwargs.*1 ->
  save_data kwargs fs = (fs', None) -> (key, l) ∈ kwargs ->
  files fs' !! backup_file fs key = Some (backup_text l).
Proof.
  unfold save_data. intros Hkeys Hnd H Hin.
  destruct (folder_cases fs) as [(fs1 & Hprep & Hc & Hf & Hd)|[e0 Hprep]];
    rewrite Hprep in H; [|done].
  destruct (save_data_loop_None _ _ _ _ _ Hkeys Hnd H Hin) as [Hfile _].
  unfold backup_file in *. by rewrite Hc in Hfile.
Qed.

(** [save_data] returns when the backups can be written. *)
Lemma save_data_ok (kwargs : list (string * list string)) (fs : filesystem) :
  Forall file_name kwargs.*1 -> writable fs kwargs.*1 ->
  exists fs',
    save_data kwargs fs = (fs', None) /\
    dirs fs' = {[cwd fs ++ [_BACKUP_FOLDER]]} ∪ dirs fs.
Proof.
  intros Hkeys (Hcwd & Hfile & Hdirs). unfold save_data.
  destruct (folder_ok fs Hcwd Hfile) as (fs1 & -> & Hc & Hf & Hd).
  destruct (save_data_loop_ok kwargs fs1) as [fs' H]; try done.
  - rewrite Hc. apply (is_dir_mono fs); [|done]. rewrite Hd.
    apply union_subseteq_r.
  - apply is_dir_elem; [by destruct (cwd fs1)|]. rewrite Hd, Hc.
    apply elem_of_union. left. by apply elem_of_singleton.
  - eapply Forall_impl; [exact Hdirs|]. intros key Hkey. simpl in *.
    apply not_true_iff_false. apply not_true_iff_false in Hkey.
    intros E. apply Hkey. unfold backup_file in *. rewrite Hc in E.
    apply is_dir_elem in E; [|by destruct (cwd fs)].
    apply is_dir_elem; [by destruct (cwd fs)|].
    rewrite Hd in E. apply elem_of_union in E as [E|E]; [|done].
    apply elem_of_singleton in E. by apply backup_file_folder in E.
  - exists fs'. split; [done|].
    apply save_data_loop_any in H as (_ & -> & _). done.
Qed.

End PersistFacts.

(** * Facts about the group map *)

Module GroupFacts.
Import PackageManager PyStrFacts RegistryFacts.

Lemma populated_dec (c : Class) (l : list instance) : Decision (populated c l).
Proof. unfold populated. apply _. Qed.

(** The binding of [snap_pkgs], when [struct_pkgs] returns one, is the
    names of an instance of the snap collector in the registry. *)
Lemma struct_pkgs_snap_group (l : list instance) (names : gset string)
    (result_data : gmap string (gset string)) (group : gset string) :
  struct_pkgs l names = Ok result_data ->
  result_data !! "snap_pkgs" = Some group ->
  exists i a, i ∈ l /\ class_of i = cSnapPackages /\ fields i = Some a /\
              group = pkgs_names a.
Proof.
  intros Hs Hg. destruct (populated_dec cSnapPackages l) as [Hp|Hn].
  - rewrite struct_pkgs_ok in Hs by done. injection Hs as <-.
    unfold snap_bound in Hg.
    destruct (last (instances_of cSnapPackages l)) as [i|] eqn:Hl; simpl in Hg.
    + apply last_Some_elem_of, list_elem_of_filter in Hl as [Hc Hi].
      destruct (fields i) as [a|] eqn:Ha.
      * rewrite lookup_insert_eq in Hg. injection Hg as <-. by exists i, a.
      * by do 3 (rewrite lookup_insert_ne in Hg by done).
    + by do 3 (rewrite lookup_insert_ne in Hg by done).
  - unfold struct_pkgs in Hs. by rewrite struct_pkgs_loop_raise in Hs.
Qed.

End GroupFacts.

(** * Creating an instance and storing its result *)

Module Pipeline.
Import PackageManager PyStr PyStrFacts BackupFacts PersistFacts RegistryFacts
  CollectorFacts LineFacts.

Lemma new_lookup (c : Class) (l : list instance) :
  (new c l).2 !! (new c l).1 = Some {| class_of := c; fields := None |}.
Proof. simpl. by rewrite lookup_app_r, Nat.sub_diag by lia. Qed.

Lemma set_pkgs_new (c : Class) (a : attrs) (l : list instance) :
  set_pkgs (new c l).1 a (new c l).2 =
  l ++ [{| class_of := c; fields := Some a |}].
Proof.
  unfold set_pkgs. simpl.
  by rewrite alter_app_r_alt, Nat.sub_diag by lia.
Qed.

Lemma populated_snoc (k c : Class) (a : attrs) (l : list instance) :
  populated k l -> populated k (l ++ [{| class_of := c; fields := Some a |}]).
Proof.
  intros Hl. apply Forall_app. split; [done|].
  apply Forall_singleton. intros _. by eexists.
Qed.

Lemma last_instances_snoc (c : Class) (a : attrs) (l : list instance) :
  last (instances_of c (l ++ [{| class_of := c; fields := Some a |}])) =
  Some {| class_of := c; fields := Some a |}.
Proof.
  rewrite instances_of_app, instances_of_cons, decide_True by done.
  apply last_snoc.
Qed.

Lemma last_instances_snoc_ne (k : Class) (i : instance) (l : list instance) :
  class_of i <> k -> last (instances_of k (l ++ [i])) = last (instances_of k l).
Proof.
  intros Hne. rewrite instances_of_app, instances_of_cons, decide_False by done.
  simpl. by rewrite app_nil_r.
Qed.

End Pipeline.

(** * The claims of the specification

    One theorem for each claim, in the order of the claims; a claim that
    does not hold as it is worded comes with the input on which it fails
    and with the statement that holds instead.  Each theorem is followed by
    its use on a concrete input. *)

Import PackageManager PyStrFacts BackupFacts RegistryFacts CollectorFacts
  LineFacts ExtractFacts SnapFacts PersistFacts GroupFacts.

(** Every instance of the scenario registry holds its result. *)
Lemma scenario_populated (c : Class) : populated c scenario_registry.
Proof. repeat constructor; by eexists. Qed.

(** [snap_state] is the state after two steps from the empty registry. *)
Lemma snap_state_reachable : reachable canned snap_state.
Proof.
  exists [store_listing].
  eapply rtc_l; [apply (step_new canned cSnapPackages)|].
  eapply rtc_l; [|apply rtc_refl].
  by apply (step_snap canned 0 {| class_of := cSnapPackages; fields := None |}).
Qed.

(** C1. Reconciliation: with [marked] the result of the Marked collector and
    [logs] that of the Logs collector, [sum_pkgs] returns
    [names = (marked.names − logs.names) − dependencies] and
    [dependencies = marked.dependencies − logs.dependencies]; in the scenario
    of the specification the final names are [{vim, python3-foo}]. *)
Theorem C1_sum_pkgs_reconciles :
  (forall (_childs : list instance) (marked logs : instance) (am al : attrs),
     populated cMarkedPackages _childs -> populated cLogsPackages _childs ->
     last (instances_of cMarkedPackages _childs) = Some marked ->
     fields marked = Some am ->
     last (instances_of cLogsPackages _childs) = Some logs ->
     fields logs = Some al ->
     let names := pkgs_names am ∖ pkgs_names al in
     let dependencies := pkgs_dpnds am ∖ pkgs_dpnds al in
     sum_pkgs _childs = Ok (names ∖ dependencies, dependencies)) /\
  (forall (_childs : list instance) (marked logs : instance),
     populated cMarkedPackages _childs -> populated cLogsPackages _childs ->
     last (instances_of cMarkedPackages _childs) = Some marked ->
     fields marked =
       Some {| pkgs_names := {["bash"; "vim"; "python3-foo"]};
               pkgs_dpnds := {["coreutils"]} |} ->
     last (instances_of cLogsPackages _childs) = Some logs ->
     fields logs =
       Some {| pkgs_names := {["bash"; "coreutils"]}; pkgs_dpnds := ∅ |} ->
     sum_pkgs _childs = Ok ({["vim"; "python3-foo"]}, {["coreutils"]})).
Proof.
  split.
  - intros l m g am ag HM HL Hm Ham Hg Hag. simpl.
    by apply (sum_pkgs_ok l m g).
  - intros l m g HM HL Hm Ham Hg Hag.
    rewrite (sum_pkgs_ok l m g _ _ HM HL Hm Ham Hg Hag). simpl.
    apply (f_equal Ok), (f_equal2 pair); by vm_compute.
Qed.

(** The reconciliation on the registry of the scenario. *)
Lemma C1_witness :
  sum_pkgs scenario_registry = Ok ({["vim"; "python3-foo"]}, {["coreutils"]}) /\
  sum_pkgs scenario_registry =
    Ok (({["bash"; "vim"; "python3-foo"]} ∖ {["bash"; "coreutils"]})
          ∖ ({["coreutils"]} ∖ ∅),
        {["coreutils"]} ∖ ∅).
Proof.
  split.
  - apply (proj2 C1_sum_pkgs_reconciles scenario_registry
             scenario_marked scenario_logs);
      try apply scenario_populated; reflexivity.
  - exact (proj1 C1_sum_pkgs_reconciles scenario_registry
             scenario_marked scenario_logs _ _
             (scenario_populated _) (scenario_populated _)
             eq_refl eq_refl eq_refl eq_refl).
Defined.

(** C2. Classification: [py_pkgs] holds exactly the names in which "pyth"
    occurs, [lib_pkgs] exactly the remaining names in which "lib" occurs,
    [gen_pkgs] all other names; the three groups are pairwise disjoint and
    their union is the set given; [{vim, python3-foo, libssl-dev}] is split
    into [{python3-foo}], [{libssl-dev}] and [{vim}]. *)
Theorem C2_struct_pkgs_partitions (_childs : list instance) :
  populated cSnapPackages _childs ->
  (forall names : gset string,
     exists (result_data : gmap string (gset string)) (py lib gen : gset string),
       struct_pkgs _childs names = Ok result_data /\
       result_data !! "py_pkgs" = Some py /\
       result_data !! "lib_pkgs" = Some lib /\
       result_data !! "gen_pkgs" = Some gen /\
       (forall x, x ∈ py <-> x ∈ names /\ occurs_in "pyth" x) /\
       (forall x, x ∈ lib <->
                  x ∈ names /\ ~ occurs_in "pyth" x /\ occurs_in "lib" x) /\
       (forall x, x ∈ gen <->
                  x ∈ names /\ ~ occurs_in "pyth" x /\ ~ occurs_in "lib" x) /\
       py ## lib /\ py ## gen /\ lib ## gen /\
       gen ∪ py ∪ lib = names) /\
  (exists result_data : gmap string (gset string),
     struct_pkgs _childs {["vim"; "python3-foo"; "libssl-dev"]} = Ok result_data /\
     result_data !! "py_pkgs" = Some {["python3-foo"]} /\
     result_data !! "lib_pkgs" = Some {["libssl-dev"]} /\
     result_data !! "gen_pkgs" = Some {["vim"]}).
Proof.
  intros Hp. split.
  - intros names. eexists _, _, _, _. split; [by apply struct_pkgs_ok|].
    rewrite !snap_bound_lookup_ne by done.
    split; [by rewrite lookup_insert_ne, lookup_insert_eq|].
    split; [by rewrite lookup_insert_eq|].
    split; [by do 2 (rewrite lookup_insert_ne by done); rewrite lookup_insert_eq|].
    assert (forall x, Decision (occurs_in "pyth" x)) as H
      by (intros; apply occurs_in_dec).
    assert (forall x, Decision (occurs_in "lib" x)) as H0
      by (intros; apply occurs_in_dec).
    assert (forall P Q : Prop, Decision P -> Decision Q ->
              (P \/ ~ P) /\ (Q \/ ~ Q)) as Hem.
    { intros P Q [?|?] [?|?]; tauto. }
    repeat match goal with |- _ /\ _ => split end.
    1-3: intros x; pose proof (Hem _ _ (H x) (H0 x));
      rewrite ?elem_of_difference, ?elem_of_filter_contains; tauto.
    1-3: apply elem_of_disjoint; intros x; pose proof (Hem _ _ (H x) (H0 x));
      rewrite ?elem_of_difference, ?elem_of_filter_contains; tauto.
    apply set_eq. intros x. pose proof (Hem _ _ (H x) (H0 x)).
    rewrite !elem_of_union, ?elem_of_difference, ?elem_of_filter_contains.
    tauto.
  - eexists. split; [by apply struct_pkgs_ok|].
    rewrite !snap_bound_lookup_ne by done. repeat split; by vm_compute.
Qed.

(** The classification on the registry of the scenario. *)
Lemma C2_witness :
  exists result_data : gmap string (gset string),
    struct_pkgs scenario_registry {["vim"; "python3-foo"; "libssl-dev"]} =
      Ok result_data /\
    result_data !! "py_pkgs" = Some {["python3-foo"]} /\
    result_data !! "lib_pkgs" = Some {["libssl-dev"]} /\
    result_data !! "gen_pkgs" = Some {["vim"]}.
Proof.
  exact (proj2 (C2_struct_pkgs_partitions scenario_registry
                  (scenario_populated cSnapPackages))).
Defined.

(** C3. Every collector stores a result whose names and dependencies are
    disjoint, whatever the command printed, and so is the inventory that
    [sum_pkgs] returns. *)
Theorem C3_names_disjoint_from_dependencies :
  (forall raw : string,
     pkgs_names (LogsPackages.parse raw) ∩ pkgs_dpnds (LogsPackages.parse raw) = ∅ /\
     pkgs_names (SnapPackages.parse raw) ∩ pkgs_dpnds (SnapPackages.parse raw) = ∅) /\
  (forall (World : Type) (run : list string -> World -> string * World)
          (self : nat) (st st' : list instance * World) (i : instance),
     st.1 !! self = Some i ->
     st' = LogsPackages.main run self st \/
     st' = MarkedPackages.main run self st \/
     st' = SnapPackages.main run self st ->
     exists a,
       st'.1 !! self = Some {| class_of := class_of i; fields := Some a |} /\
       pkgs_names a ∩ pkgs_dpnds a = ∅) /\
  (forall (World : Type) (run : list string -> World -> string * World)
          (st : list instance * World) (i : instance) (a : attrs),
     reachable run st -> i ∈ st.1 -> fields i = Some a ->
     pkgs_names a ∩ pkgs_dpnds a = ∅) /\
  (forall (_childs : list instance) (names dependencies : gset string),
     sum_pkgs _childs = Ok (names, dependencies) ->
     names ∩ dependencies = ∅).
Proof.
  split; [|split; [|split]].
  - intros raw. split; [apply logs_parse_disjoint|apply snap_parse_disjoint].
  - intros World run self st st' i Hi [->|[->| ->]]; eexists; split.
    + rewrite logs_main_registry. by apply set_pkgs_lookup.
    + rewrite logs_collect_parse. apply logs_parse_disjoint.
    + rewrite marked_main_registry. by apply set_pkgs_lookup.
    + apply marked_collect_disjoint.
    + rewrite snap_main_registry. by apply set_pkgs_lookup.
    + rewrite snap_collect_parse. apply snap_parse_disjoint.
  - intros World run st i a Hr Hi Ha.
    pose proof (reachable_stored run st Hr) as Hall.
    rewrite Forall_forall in Hall. by destruct (Hall i Hi a Ha).
  - intros l n d. unfold sum_pkgs.
    destruct (sum_pkgs_loop l None None) as [[[m|] [g|]]|e]; simpl; try done.
    intros [= <- <-]. apply elem_of_equiv_empty_L.
    intros x. rewrite elem_of_intersection, !elem_of_difference. tauto.
Qed.

(** Disjointness for a fresh logs collector, for the state after a snap
    collector has run, and for the inventory of the scenario. *)
Lemma C3_witness :
  (exists a,
     (LogsPackages.main canned 0
        ([{| class_of := cLogsPackages; fields := None |}], ["Package: bash"])).1
       !! 0 = Some {| class_of := cLogsPackages; fields := Some a |} /\
     pkgs_names a ∩ pkgs_dpnds a = ∅) /\
  (forall i a, snap_state.1 !! 0 = Some i -> fields i = Some a ->
               pkgs_names a ∩ pkgs_dpnds a = ∅) /\
  ({["vim"; "python3-foo"]} ∩ {["coreutils"]} : gset string) = ∅.
Proof.
  destruct C3_names_disjoint_from_dependencies as (_ & Hmain & Hreach & Hsum).
  split; [|split].
  - apply (Hmain _ canned 0
             ([{| class_of := cLogsPackages; fields := None |}], ["Package: bash"])
             _ {| class_of := cLogsPackages; fields := None |});
      [reflexivity|by left].
  - intros i a Hi Ha.
    apply (Hreach _ canned snap_state i a);
      [apply snap_state_reachable|by apply list_elem_of_lookup_2 in Hi|done].
  - apply (Hsum scenario_registry). by vm_compute.
Defined.

(** C4. The dependency parser removes "Pre-", removes "|", trims, splits on
    ", " and keeps of every entry the text before its first space: the text
    without "Pre-" and "|" is whitespace, the trimmed text, whitespace; the
    trimmed text is the entries joined by ", "; what is returned is the
    text before the first space of every entry, so it holds no space and no
    bar; on ["foo (>= 1.0), bar | baz, Pre-qux"] the parser returns foo,
    bar and qux. *)
Theorem C4_parse_dpnds :
  (forall raw : string,
     _parse_dpnds raw =
       map before_space
         (PyStr.split ", "
            (PyStr.strip (PyStr.replace "|" "" (PyStr.replace "Pre-" "" raw))))) /\
  (forall raw : string,
     exists (cleaned trimmed front back : string) (entries : list string),
       cleaned = PyStr.replace "|" "" (PyStr.replace "Pre-" "" raw) /\
       ~ occurs_in "|" cleaned /\
       cleaned = front +:+ trimmed +:+ back /\
       all_space front = true /\ all_space back = true /\
       (forall c t, trimmed = String c t -> PyStr.isspace c = false) /\
       (forall t c, trimmed = t +:+ String c "" -> PyStr.isspace c = false) /\
       PyStr.join ", " entries = trimmed /\
       Forall (fun entry => ~ occurs_in ", " entry) entries /\
       _parse_dpnds raw = map before_space entries) /\
  (forall raw entry : string,
     entry ∈ _parse_dpnds raw ->
     ~ occurs_in " " entry /\ ~ occurs_in "|" entry) /\
  _parse_dpnds "foo (>= 1.0), bar | baz, Pre-qux" = ["foo"; "bar"; "qux"] /\
  (list_to_set (_parse_dpnds "foo (>= 1.0), bar | baz, Pre-qux") : gset string) =
    {["foo"; "bar"; "qux"]}.
Proof.
  assert (forall raw, _parse_dpnds raw =
            map before_space
              (PyStr.split ", "
                 (PyStr.strip (PyStr.replace "|" "" (PyStr.replace "Pre-" "" raw)))))
    as Heq.
  { intros raw. unfold _parse_dpnds. apply map_ext. intros x.
    apply item0_split_space. }
  split; [done|]. split; [|split; [|split; by vm_compute]].
  { intros raw.
    set (cleaned := PyStr.replace "|" "" (PyStr.replace "Pre-" "" raw)).
    destruct (strip_spec cleaned) as (front & back & Hf & Hb & Hc & Hfirst & Hlast).
    exists cleaned, (PyStr.strip cleaned), front, back,
      (PyStr.split ", " (PyStr.strip cleaned)).
    split; [done|]. split.
    { rewrite <- contains_spec. apply not_true_iff_false.
      apply free_replace_char. }
    split; [done|]. split; [done|]. split; [done|]. split; [done|].
    split; [done|]. split; [by apply join_split|]. split; [|apply Heq].
    eapply Forall_impl; [by apply (split_pieces ", ")|].
    intros entry He. simpl in He. rewrite <- contains_spec. congruence. }
  intros raw entry Hin. split.
  2: { pose proof (parse_dpnds_no_bar raw) as Hall.
       rewrite Forall_forall in Hall. specialize (Hall entry Hin).
       rewrite <- contains_spec. by apply not_true_iff_false. }
  rewrite Heq in Hin.
  apply list_elem_of_In, in_map_iff in Hin as (x & <- & _).
  rewrite <- contains_spec. apply not_true_iff_false.
  induction x as [|c x IH]; [done|]. simpl before_space.
  unfold is_space. case_bool_decide as Hc; [done|].
  rewrite contains_cons, IH, orb_false_r.
  rewrite prefix_cons, prefix_nil, andb_true_r.
  apply bool_decide_eq_false_2. congruence.
Qed.

(** The second entry of the example holds no space and no bar. *)
Lemma C4_witness : ~ occurs_in " " "bar" /\ ~ occurs_in "|" "bar".
Proof.
  apply (proj1 (proj2 (proj2 C4_parse_dpnds)) "foo (>= 1.0), bar | baz, Pre-qux").
  rewrite (proj1 (proj2 (proj2 (proj2 C4_parse_dpnds)))). right. left.
Defined.

(** The trigger strings are parameters of the extraction, but the text it
    removes is the literal of the two collectors. *)
Lemma separate_structured_info_other_trigger :
  _separate_structured_info ["Name: vim"] "Name: " "Requires: " = ("Name: vim", "").
Proof. reflexivity. Qed.

(** C5, as stated, fails: on a status record with a [Pre-Depends] field the
    first line in which "Depends: " occurs does not start with it, and what
    is returned is that line with the trigger cut out of its middle, which
    is neither the line without a prefix nor any end of the line. *)
Lemma C5_counterexample :
  _separate_structured_info dpkg_record "Package: " "Depends: " =
    ("dpkg", "Pre-libc6 (>= 2.15)") /\
  extract_as_specified dpkg_record "Package: " "Depends: " =
    ("dpkg", "Pre-Depends: libc6 (>= 2.15)") /\
  _separate_structured_info dpkg_record "Package: " "Depends: " <>
    extract_as_specified dpkg_record "Package: " "Depends: " /\
  ~ (exists front, "Pre-Depends: libc6 (>= 2.15)" = front +:+ "Pre-libc6 (>= 2.15)").
Proof.
  split; [done|]. split; [done|]. split; [done|].
  intros [front H]. pose proof (f_equal String.length H) as Hlen.
  rewrite str_length_app in Hlen. simpl in Hlen.
  do 10 (destruct front as [|? front]; simpl in Hlen; try lia).
  cbv [String.append] in H. by simplify_eq.
Qed.

(** C5, amended. With the triggers "Package: " and "Depends: " the
    extraction returns the first line in which the trigger occurs with every
    occurrence of the trigger text removed, which is the line without its
    trigger prefix when the trigger occurs at its front only; for any
    trigger that occurs on no line it returns the empty string; a record
    with neither trigger yields two empty strings and adds no name and no
    dependency. *)
Theorem C5_separate_structured_info :
  (forall (pre post : list string) (line dt : string),
     Forall (fun l => ~ occurs_in "Package: " l) pre ->
     occurs_in "Package: " line ->
     (_separate_structured_info (pre ++ line :: post) "Package: " dt).1 =
       PyStr.replace "Package: " "" line) /\
  (forall (pre post : list string) (line nt : string),
     Forall (fun l => ~ occurs_in "Depends: " l) pre ->
     occurs_in "Depends: " line ->
     (_separate_structured_info (pre ++ line :: post) nt "Depends: ").2 =
       PyStr.replace "Depends: " "" line) /\
  (forall rest : string,
     (~ occurs_in "Package: " rest ->
      PyStr.replace "Package: " "" ("Package: " +:+ rest) = rest) /\
     (~ occurs_in "Depends: " rest ->
      PyStr.replace "Depends: " "" ("Depends: " +:+ rest) = rest)) /\
  (forall (info : list string) (nt dt : string),
     (Forall (fun l => ~ occurs_in nt l) info ->
      (_separate_structured_info info nt dt).1 = "") /\
     (Forall (fun l => ~ occurs_in dt l) info ->
      (_separate_structured_info info nt dt).2 = "")) /\
  (forall (info : list string) (nt dt : string) (names dpnds : list string),
     Forall (fun l => ~ occurs_in nt l) info ->
     Forall (fun l => ~ occurs_in dt l) info ->
     _separate_structured_info info nt dt = ("", "") /\
     accumulate info nt dt names dpnds = (names, dpnds)) /\
  (forall (block : string) (acc : list string * list string),
     Forall (fun l => ~ occurs_in "Package: " l) (_separate_pkg_info block) ->
     Forall (fun l => ~ occurs_in "Depends: " l) (_separate_pkg_info block) ->
     LogsPackages.step acc block = acc).
Proof.
  repeat match goal with |- _ /\ _ => split end.
  - intros pre post line dt Hpre Hline.
    by rewrite separate_name, filter_contains_first.
  - intros pre post line nt Hpre Hline.
    by rewrite separate_dpnd, filter_contains_first.
  - intros rest. split; intros H; by apply replace_prefix_only.
  - intros info nt dt. split; intros H.
    + by rewrite separate_name, filter_contains_none.
    + by rewrite separate_dpnd, filter_contains_none.
  - intros info nt dt names dpnds Hn Hd. split.
    + unfold _separate_structured_info. by rewrite !filter_contains_none.
    + by apply accumulate_neither.
  - intros block [names dpnds] Hn Hd. unfold LogsPackages.step.
    by apply accumulate_neither.
Qed.

(** The extraction on a status record and on a record without the two
    fields. *)
Lemma C5_witness :
  (_separate_structured_info dpkg_record "Package: " "Depends: ").1 =
    PyStr.replace "Package: " "" "Package: dpkg" /\
  (_separate_structured_info dpkg_record "Package: " "Depends: ").2 =
    PyStr.replace "Depends: " "" "Pre-Depends: libc6 (>= 2.15)" /\
  PyStr.replace "Package: " "" ("Package: " +:+ "dpkg") = "dpkg" /\
  _separate_structured_info bare_record "Package: " "Depends: " = ("", "") /\
  accumulate bare_record "Package: " "Depends: " ["bash"] ["libc6"] =
    (["bash"], ["libc6"]) /\
  LogsPackages.step (["bash"], ["libc6"]) "Status: install ok installed" =
    (["bash"], ["libc6"]).
Proof.
  destruct C5_separate_structured_info as (Hn & Hd & Hp & _ & Hb & Hs).
  assert (forall t l, PyStr.contains t l = false -> ~ occurs_in t l) as Hno.
  { intros t l Hc Ho%contains_spec. congruence. }
  assert (forall t l, PyStr.contains t l = true -> occurs_in t l) as Hyes.
  { intros t l Hc. by apply contains_spec. }
  split; [|split; [|split; [|split; [|split]]]].
  - apply (Hn [] ["Pre-Depends: libc6 (>= 2.15)"; "Depends: tar"]
              "Package: dpkg" "Depends: "); [constructor|by apply Hyes].
  - apply (Hd ["Package: dpkg"] ["Depends: tar"]
              "Pre-Depends: libc6 (>= 2.15)" "Package: ");
      [repeat constructor; by apply Hno|by apply Hyes].
  - apply (proj1 (Hp "dpkg")). by apply Hno.
  - apply (Hb bare_record "Package: " "Depends: " [] []);
      repeat constructor; by apply Hno.
  - apply (Hb bare_record "Package: " "Depends: " ["bash"] ["libc6"]);
      repeat constructor; by apply Hno.
  - apply (Hs "Status: install ok installed" (["bash"], ["libc6"]));
      repeat constructor; by apply Hno.
Defined.

(** C6, as stated, fails: the columns are cut at spaces only, so a tab
    stays inside the first column. *)
Lemma C6_counterexample :
  pkgs_names (SnapPackages.parse tab_listing) =
    {["foo" +:+ String "009"%char "" +:+ "bar"]} /\
  snap_names_as_specified tab_listing = {["foo"]} /\
  pkgs_names (SnapPackages.parse tab_listing) <>
    snap_names_as_specified tab_listing.
Proof. split; [by vm_compute|]. split; by vm_compute. Qed.

(** C6, amended. The snap collector skips the header line, takes of every
    other line the first column, the columns being separated by spaces
    (which are the whitespace-separated columns on a line whose only
    whitespace is the space), drops the names in which an entry of the
    ignore list occurs and takes the placeholder [snap-store] out; the rows
    core, some-editor and chromium-ffmpeg give the names [{some-editor}]. *)
Theorem C6_snap_parse :
  (forall raw : string,
     pkgs_names (SnapPackages.parse raw) =
       list_to_set
         (filter (fun n => SnapPackages.rm_pkg n)
            (omap (fun row => head (fields_by is_space row))
               (drop 1 (PyStr.split PyStr.LF raw))))
         ∖ {["snap-store"]}) /\
  (forall raw name : string,
     name ∈ pkgs_names (SnapPackages.parse raw) <->
     (exists row, row ∈ drop 1 (PyStr.split PyStr.LF raw) /\
                  head (fields_by is_space row) = Some name) /\
     (forall ignored, ignored ∈ SnapPackages.IGNORED_PKGS ->
                      ~ occurs_in ignored name) /\
     name <> "snap-store") /\
  (forall row : string,
     Forall (fun c => PyStr.isspace c = true -> c = " "%char)
            (String.list_ascii_of_string row) ->
     fields_by is_space row = fields_by PyStr.isspace row) /\
  pkgs_names (SnapPackages.parse scenario_listing) = {["some-editor"]}.
Proof.
  split; [apply snap_parse_names|]. split; [|split].
  - intros raw name. rewrite snap_parse_names.
    rewrite elem_of_difference, elem_of_list_to_set, list_elem_of_filter.
    rewrite list_elem_of_omap, elem_of_singleton, Is_true_true.
    unfold SnapPackages.rm_pkg. rewrite rm_pkg_loop_spec. tauto.
  - apply fields_space_only.
  - by vm_compute.
Qed.

(** The columns of a row of a listing, and the names of the listing of the
    scenario. *)
Lemma C6_witness :
  fields_by is_space "some-editor 1.0" = fields_by PyStr.isspace "some-editor 1.0" /\
  ("some-editor" ∈ pkgs_names (SnapPackages.parse scenario_listing) <->
   (exists row, row ∈ drop 1 (PyStr.split PyStr.LF scenario_listing) /\
                head (fields_by is_space row) = Some "some-editor") /\
   (forall ignored, ignored ∈ SnapPackages.IGNORED_PKGS ->
                    ~ occurs_in ignored "some-editor") /\
   "some-editor" <> "snap-store").
Proof.
  destruct C6_snap_parse as (_ & Hmem & Hsp & _). split.
  - apply (Hsp "some-editor 1.0").
    repeat (constructor; [by vm_compute|]). constructor.
  - apply (Hmem scenario_listing "some-editor").
Defined.





(** Keys that are not names of files: a key with a slash names a file in a
    directory that is not there, and [save_data] raises; the key
    [./gen_pkgs] names the file of [gen_pkgs], where the group written
    last stays; the key [../notes] names a file beside the folder. *)
Lemma save_data_other_keys :
  let fs := {| cwd := []; dirs := ∅; files := ∅ |} in
  (save_data [("a/b", ["vim"])] fs).2 = Some FileNotFoundError /\
  files (save_data [("gen_pkgs", ["vim"]); ("./gen_pkgs", ["htop"])] fs).1
    !! ["backlibs"; "gen_pkgs.txt"] = Some (text ["htop"]) /\
  files (save_data [("../notes", ["vim"])] fs).1 !! ["notes.txt"] =
    Some (text ["vim"]) /\
  (save_data [("gen_pkgs", ["vim"])]
     {| cwd := []; dirs := ∅; files := {[ ["backlibs"] := "a file" ]} |}).2 =
    Some NotADirectoryError.
Proof. repeat split; by vm_compute. Qed.


(** C9. The dependency set that the snap collector stores is the fixed
    [{snap-store}] whatever the listing; since it is taken out of the names,
    a snap listed as [snap-store] is in no stored names and in no
    [snap_pkgs] group, although no entry of the ignore list occurs in it.
    This is said of the result that [main] computes from the listing, of
    what [main] stores in the instance, and of every result of a snap
    collector in a registry that a run reaches. *)
Theorem C9_snap_store_placeholder :
  (forall raw : string,
     pkgs_dpnds (SnapPackages.parse raw) = {["snap-store"]} /\
     "snap-store" ∉ pkgs_names (SnapPackages.parse raw)) /\
  (SnapPackages.rm_pkg "snap-store" = true /\
   forall ignored, ignored ∈ SnapPackages.IGNORED_PKGS ->
                   ~ occurs_in ignored "snap-store") /\
  pkgs_names (SnapPackages.parse store_listing) = {["some-editor"]} /\
  (forall (World : Type) (run : list string -> World -> string * World)
          (st : list instance * World) (names : gset string)
          (result_data : gmap string (gset string)) (group : gset string),
     reachable run st ->
     struct_pkgs st.1 names = Ok result_data ->
     result_data !! "snap_pkgs" = Some group ->
     "snap-store" ∉ group) /\
  (forall (World : Type) (run : list string -> World -> string * World)
          (self : nat) (st : list instance * World) (i : instance),
     st.1 !! self = Some i ->
     exists a,
       (SnapPackages.main run self st).1 !! self =
         Some {| class_of := class_of i; fields := Some a |} /\
       a = SnapPackages.parse (run SnapPackages.PKGS_COMMAND st.2).1 /\
       pkgs_dpnds a = {["snap-store"]} /\
       "snap-store" ∉ pkgs_names a) /\
  (forall (World : Type) (run : list string -> World -> string * World)
          (st : list instance * World) (i : instance) (a : attrs),
     reachable run st -> i ∈ st.1 -> class_of i = cSnapPackages ->
     fields i = Some a ->
     pkgs_dpnds a = {["snap-store"]} /\ "snap-store" ∉ pkgs_names a).
Proof.
  assert (forall a : attrs,
            pkgs_names a ∩ pkgs_dpnds a = ∅ -> pkgs_dpnds a = {["snap-store"]} ->
            "snap-store" ∉ pkgs_names a) as Hout.
  { intros a Hd Hs Hin.
    apply (not_elem_of_empty (C:=gset string) "snap-store").
    rewrite <- Hd. apply elem_of_intersection. split; [done|].
    rewrite Hs. by apply elem_of_singleton. }
  split; [|split; [|split; [|split; [|split]]]].
  - intros raw. split; [apply snap_parse_dpnds|].
    pose proof (snap_parse_disjoint raw) as Hd.
    rewrite snap_parse_dpnds in Hd. intros Hin.
    apply (not_elem_of_empty (C:=gset string) "snap-store").
    rewrite <- Hd. apply elem_of_intersection. split; [done|].
    by apply elem_of_singleton.
  - split; [done|]. intros ignored Hin Hocc%contains_spec.
    unfold SnapPackages.IGNORED_PKGS in Hin.
    repeat (apply elem_of_cons in Hin as [->|Hin]; [by vm_compute in Hocc|]).
    by apply not_elem_of_nil in Hin.
  - by vm_compute.
  - intros World run st names rd group Hr Hs Hg.
    destruct (struct_pkgs_snap_group _ _ _ _ Hs Hg) as (i & a & Hi & Hc & Ha & ->).
    pose proof (reachable_stored run st Hr) as Hall.
    rewrite Forall_forall in Hall. destruct (Hall i Hi a Ha) as [Hd Hsnap].
    rewrite (Hsnap Hc) in Hd. intros Hin.
    apply (not_elem_of_empty (C:=gset string) "snap-store").
    rewrite <- Hd. apply elem_of_intersection. split; [done|].
    by apply elem_of_singleton.
  - intros World run self st i Hi.
    exists (SnapPackages.parse (run SnapPackages.PKGS_COMMAND st.2).1).
    split; [|split; [done|split; [apply snap_parse_dpnds|]]].
    + rewrite snap_main_registry, snap_collect_parse.
      by apply set_pkgs_lookup.
    + apply Hout; [apply snap_parse_disjoint|apply snap_parse_dpnds].
  - intros World run st i a Hr Hi Hc Ha.
    pose proof (reachable_stored run st Hr) as Hall.
    rewrite Forall_forall in Hall. destruct (Hall i Hi a Ha) as [Hd Hsnap].
    split; [by apply Hsnap|]. apply Hout; [done|by apply Hsnap].
Qed.

(** The snap collector on a listing in which the snap store is a row. *)
Lemma C9_witness :
  ("snap-store" ∉ pkgs_names (SnapPackages.parse store_listing)) /\
  ~ occurs_in "snapd" "snap-store" /\
  (forall result_data group,
     struct_pkgs snap_state.1 ∅ = Ok result_data ->
     result_data !! "snap_pkgs" = Some group ->
     "snap-store" ∉ group) /\
  (exists a,
     snap_state.1 !! 0 = Some {| class_of := cSnapPackages; fields := Some a |} /\
     a = SnapPackages.parse store_listing /\
     pkgs_dpnds a = {["snap-store"]} /\
     "snap-store" ∉ pkgs_names a) /\
  (forall i a, i ∈ snap_state.1 -> class_of i = cSnapPackages ->
               fields i = Some a -> pkgs_dpnds a = {["snap-store"]}).
Proof.
  destruct C9_snap_store_placeholder
    as (Hparse & [_ Hign] & _ & Hreach & Hmain & Hstored).
  split; [apply Hparse|]. split; [|split; [|split]].
  - apply Hign. by vm_compute; right; right; right; right; left.
  - intros rd group. apply (Hreach _ canned snap_state ∅ rd group).
    apply snap_state_reachable.
  - apply (Hmain _ canned 0
             ((new cSnapPackages []).2, [store_listing])
             {| class_of := cSnapPackages; fields := None |}).
    reflexivity.
  - intros i a Hi Hc Ha.
    by apply (Hstored _ canned snap_state i a snap_state_reachable).
Defined.

(** [stale_snap_state] is the state after three steps from the empty
    registry. *)
Lemma stale_snap_state_reachable : reachable canned stale_snap_state.
Proof.
  exists [scenario_listing].
  eapply rtc_l; [apply (step_new canned cSnapPackages)|].
  eapply rtc_l; [apply (step_new canned cSnapPackages)|].
  eapply rtc_l; [|apply rtc_refl].
  by apply (step_snap canned 1 {| class_of := cSnapPackages; fields := None |}).
Qed.

(** C10, as stated, fails: after [SnapPackages()] and then
    [SnapPackages().main()] the registry has instances of the snap
    collector and the one created last holds its names, yet [struct_pkgs]
    raises [AttributeError] at the first one and binds nothing. *)
Lemma C10_counterexample :
  reachable canned stale_snap_state /\
  (exists snap a,
     last (instances_of cSnapPackages stale_snap_state.1) = Some snap /\
     fields snap = Some a /\ pkgs_names a = {["some-editor"]}) /\
  struct_pkgs stale_snap_state.1 {["vim"]} = Raise (AttributeError "pkgs_names") /\
  ~ (exists result_data,
       struct_pkgs stale_snap_state.1 {["vim"]} = Ok result_data /\
       result_data !! "snap_pkgs" = Some {["some-editor"]}).
Proof.
  assert (struct_pkgs stale_snap_state.1 {["vim"]} =
          Raise (AttributeError "pkgs_names")) as Hraise.
  { apply struct_pkgs_loop_raise. intros Hp.
    apply Forall_cons in Hp as [Hp _]. by destruct (Hp eq_refl). }
  split; [apply stale_snap_state_reachable|]. split; [|split; [done|]].
  - eexists _, _. split; [reflexivity|]. split; [reflexivity|]. by vm_compute.
  - intros (rd & Hrd & _). by rewrite Hraise in Hrd.
Qed.

(** C10, amended. Without an instance of the snap collector in the
    registry the group map of [struct_pkgs] has the three keys [gen_pkgs],
    [py_pkgs] and [lib_pkgs] and no key [snap_pkgs]; with such instances,
    each holding its names, [snap_pkgs] is bound to the names of the one
    created last; with such an instance that holds no names, [struct_pkgs]
    raises [AttributeError]. *)
Theorem C10_snap_pkgs_key (_childs : list instance) (pkgs_names0 : gset string) :
  (instances_of cSnapPackages _childs = [] ->
   exists result_data,
     struct_pkgs _childs pkgs_names0 = Ok result_data /\
     result_data !! "snap_pkgs" = None /\
     dom result_data = {["gen_pkgs"; "py_pkgs"; "lib_pkgs"]}) /\
  (forall (snap : instance) (a : attrs),
     populated cSnapPackages _childs ->
     last (instances_of cSnapPackages _childs) = Some snap ->
     fields snap = Some a ->
     exists result_data,
       struct_pkgs _childs pkgs_names0 = Ok result_data /\
       result_data !! "snap_pkgs" = Some (pkgs_names a)) /\
  (~ populated cSnapPackages _childs ->
   struct_pkgs _childs pkgs_names0 = Raise (AttributeError "pkgs_names")).
Proof.
  split; [|split].
  - intros Hnil. eexists. split; [|split].
    + apply struct_pkgs_ok. by apply populated_nil_instances.
    + unfold snap_bound. rewrite Hnil. simpl.
      by rewrite !lookup_insert_ne, lookup_empty.
    + unfold snap_bound. rewrite Hnil. simpl.
      rewrite !dom_insert_L, dom_empty_L. set_solver.
  - intros snap a Hp Hlast Ha. eexists. split.
    + by apply struct_pkgs_ok.
    + unfold snap_bound. rewrite Hlast. simpl. rewrite Ha.
      by rewrite lookup_insert_eq.
  - intros Hn. by apply struct_pkgs_loop_raise.
Qed.

(** [struct_pkgs] on a registry without a snap collector, on one with a
    snap collector that holds its names, and on one with a snap collector
    that has not run. *)
Lemma C10_witness :
  (exists result_data,
     struct_pkgs [scenario_marked; scenario_logs] {["vim"]} = Ok result_data /\
     result_data !! "snap_pkgs" = None /\
     dom result_data = {["gen_pkgs"; "py_pkgs"; "lib_pkgs"]}) /\
  (exists result_data,
     struct_pkgs scenario_registry {["vim"]} = Ok result_data /\
     result_data !! "snap_pkgs" = Some {["some-editor"]}) /\
  struct_pkgs ({| class_of := cSnapPackages; fields := None |} :: scenario_registry)
    {["vim"]} = Raise (AttributeError "pkgs_names").
Proof.
  split; [|split].
  - by apply (proj1 (C10_snap_pkgs_key [scenario_marked; scenario_logs] {["vim"]})).
  - exact (proj1 (proj2 (C10_snap_pkgs_key scenario_registry {["vim"]}))
             scenario_snap _ (scenario_populated _) eq_refl eq_refl).
  - apply (proj2 (proj2 (C10_snap_pkgs_key _ _))).
    intros Hp. apply Forall_cons in Hp as [Hp _]. by destruct (Hp eq_refl).
Defined.

(** * Further properties of the code *)

Import PackageManager PyStrFacts BackupFacts RegistryFacts CollectorFacts
  LineFacts ExtractFacts SnapFacts PersistFacts GroupFacts.

(** ** Records and lines *)

(** X1. Cutting a text into records and a record into lines loses nothing:
    the records joined by a blank line, and the lines joined by a line
    feed, are the text again; there is always at least one piece, no record
    holds a blank line and no line holds a line feed. *)
Theorem X1_separate_round_trip (info : string) :
  (PyStr.join (PyStr.LF +:+ PyStr.LF) (_separate_all_info info) = info /\
   _separate_all_info info <> [] /\
   Forall (fun block => ~ occurs_in (PyStr.LF +:+ PyStr.LF) block)
          (_separate_all_info info)) /\
  (PyStr.join PyStr.LF (_separate_pkg_info info) = info /\
   _separate_pkg_info info <> [] /\
   Forall (fun line => ~ occurs_in PyStr.LF line) (_separate_pkg_info info)).
Proof.
  assert (forall sep s, sep <> "" ->
            Forall (fun piece => ~ occurs_in sep piece) (PyStr.split sep s)) as Hp.
  { intros sep s Hsep. eapply Forall_impl; [by apply split_pieces|].
    intros piece H. simpl in H. rewrite <- contains_spec. congruence. }
  unfold _separate_all_info, _separate_pkg_info.
  split; (split; [by apply join_split|]); (split; [apply split_nonempty|]);
    by apply Hp.
Qed.

(** ** The registry *)

Module RegistryMore.
Import PackageManager RegistryFacts.

Lemma populated_last (c : Class) (l : list instance) (i : instance) :
  populated c l -> last (instances_of c l) = Some i -> is_Some (fields i).
Proof.
  intros Hp Hl. apply last_Some_elem_of, list_elem_of_filter in Hl as [Hc Hi].
  unfold populated in Hp. rewrite Forall_forall in Hp. by apply Hp.
Qed.

Lemma pick_None (c : Class) (l : list instance) :
  instances_of c l = [] -> pick c l None = None.
Proof. intros H. unfold pick. by rewrite H. Qed.

Lemma pick_Some (c : Class) (l : list instance) :
  populated c l -> instances_of c l <> [] -> is_Some (pick c l None).
Proof.
  intros Hp Hne. unfold pick.
  destruct (last (instances_of c l)) as [i|] eqn:Hl.
  - destruct (populated_last c l i Hp Hl) as [a Ha].
    unfold result_of. rewrite Ha. by eexists.
  - by apply last_None in Hl.
Qed.

(** The loop of [sum_pkgs] passes over the instances of other classes. *)
Lemma sum_pkgs_loop_filter (l : list instance) mk lg :
  sum_pkgs_loop l mk lg =
  sum_pkgs_loop
    (filter (fun i => class_of i = cMarkedPackages \/ class_of i = cLogsPackages) l)
    mk lg.
Proof.
  revert mk lg. induction l as [|i l IH]; intros mk lg; [done|].
  rewrite filter_cons. destruct (decide _) as [Hc|Hc].
  - simpl. destruct (isinstance i cMarkedPackages), (get_pkgs_names i),
      (get_pkgs_dpnds i), (isinstance i cLogsPackages); simpl; by rewrite ?IH.
  - simpl. rewrite isinstance_marked, isinstance_logs.
    rewrite !bool_decide_eq_false_2 by tauto. simpl. apply IH.
Qed.

(** The loop of [struct_pkgs] passes over the instances of other classes. *)
Lemma struct_pkgs_loop_filter (l : list instance) rd :
  struct_pkgs_loop l rd = struct_pkgs_loop (instances_of cSnapPackages l) rd.
Proof.
  revert rd. induction l as [|i l IH]; intros rd; [done|].
  rewrite instances_of_cons. destruct (decide _) as [Hc|Hc].
  - simpl. destruct (isinstance i cSnapPackages), (get_pkgs_names i);
      simpl; by rewrite ?IH.
  - simpl. rewrite isinstance_snap, bool_decide_eq_false_2 by done.
    simpl. apply IH.
Qed.

End RegistryMore.

Import RegistryMore.

(** X2. Which exception [sum_pkgs] raises: [AttributeError] as soon as a
    Marked or Logs instance holds no result, also when a later instance of
    the class holds one; otherwise [UnboundLocalError] for [mark_pkgs] when
    there is no Marked instance, and for [logs_pkgs] when there is a Marked
    but no Logs instance; in the remaining case it returns. *)
Theorem X2_sum_pkgs_exceptions (_childs : list instance) :
  (~ (populated cMarkedPackages _childs /\ populated cLogsPackages _childs) ->
   sum_pkgs _childs = Raise (AttributeError "pkgs_names")) /\
  (populated cMarkedPackages _childs -> populated cLogsPackages _childs ->
   instances_of cMarkedPackages _childs = [] ->
   sum_pkgs _childs = Raise (UnboundLocalError "mark_pkgs")) /\
  (populated cMarkedPackages _childs -> populated cLogsPackages _childs ->
   instances_of cMarkedPackages _childs <> [] ->
   instances_of cLogsPackages _childs = [] ->
   sum_pkgs _childs = Raise (UnboundLocalError "logs_pkgs")) /\
  (populated cMarkedPackages _childs -> populated cLogsPackages _childs ->
   instances_of cMarkedPackages _childs <> [] ->
   instances_of cLogsPackages _childs <> [] ->
   exists inventory, sum_pkgs _childs = Ok inventory).
Proof.
  unfold sum_pkgs.
  destruct (sum_pkgs_loop_cases _childs None None) as [(HM & HL & ->)|[Hn ->]].
  - split; [intros Hno; by destruct Hno|]. simpl. split; [|split].
    + intros _ _ Hnil. by rewrite (pick_None _ _ Hnil).
    + intros _ _ Hne Hnil.
      destruct (pick_Some _ _ HM Hne) as [m ->]. simpl.
      by rewrite (pick_None _ _ Hnil).
    + intros _ _ Hm Hl.
      destruct (pick_Some _ _ HM Hm) as [m ->].
      destruct (pick_Some _ _ HL Hl) as [g ->]. simpl. by eexists.
  - split; [done|]. split; [|split]; intros HM HL; by destruct Hn.
Qed.

(** An instance of the marked collector that holds no result makes
    [sum_pkgs] raise [AttributeError] although a later one holds a result;
    without instances the first local read is reported. *)
Lemma X2_witness :
  sum_pkgs ({| class_of := cMarkedPackages; fields := None |} :: scenario_registry) =
    Raise (AttributeError "pkgs_names") /\
  sum_pkgs [scenario_snap] = Raise (UnboundLocalError "mark_pkgs") /\
  sum_pkgs [scenario_marked; scenario_snap] = Raise (UnboundLocalError "logs_pkgs") /\
  (exists inventory, sum_pkgs scenario_registry = Ok inventory).
Proof.
  split; [|split; [|split]].
  - apply (proj1 (X2_sum_pkgs_exceptions _)).
    intros [HM _]. apply Forall_cons in HM as [HM _].
    by destruct (HM eq_refl).
  - apply (proj1 (proj2 (X2_sum_pkgs_exceptions _)));
      [repeat constructor; by eexists..|reflexivity].
  - apply (proj1 (proj2 (proj2 (X2_sum_pkgs_exceptions _))));
      [repeat constructor; by eexists..|done|reflexivity].
  - apply (proj2 (proj2 (proj2 (X2_sum_pkgs_exceptions _))));
      [apply scenario_populated..|done|done].
Defined.

(** X3. [struct_pkgs] raises [AttributeError] exactly when an instance of
    the snap collector holds no names; otherwise it returns the three
    groups, and the key [snap_pkgs] beside them exactly when the registry
    has an instance of the snap collector. *)
Theorem X3_struct_pkgs_exceptions (_childs : list instance) (names : gset string) :
  (~ populated cSnapPackages _childs ->
   struct_pkgs _childs names = Raise (AttributeError "pkgs_names")) /\
  (populated cSnapPackages _childs ->
   exists result_data,
     struct_pkgs _childs names = Ok result_data /\
     (forall key, key ∈ dom result_data <->
                  key = "gen_pkgs" \/ key = "py_pkgs" \/ key = "lib_pkgs" \/
                  (key = "snap_pkgs" /\
                   instances_of cSnapPackages _childs <> []))).
Proof.
  split.
  - intros Hn. unfold struct_pkgs. by apply struct_pkgs_loop_raise.
  - intros Hp. eexists. split; [by apply struct_pkgs_ok|].
    intros key. unfold snap_bound.
    destruct (last (instances_of cSnapPackages _childs)) as [i|] eqn:Hl; simpl.
    + destruct (populated_last _ _ _ Hp Hl) as [a ->].
      assert (instances_of cSnapPackages _childs <> []) as Hne.
      { intros E. by rewrite E in Hl. }
      rewrite !dom_insert_L, dom_empty_L.
      rewrite !elem_of_union, !elem_of_singleton, elem_of_empty. tauto.
    + apply last_None in Hl. rewrite !dom_insert_L, dom_empty_L.
      rewrite !elem_of_union, !elem_of_singleton, elem_of_empty.
      split; [tauto|]. intros [?|[?|[?|[_ ?]]]]; tauto.
Qed.

(** On the registry of the scenario with one more snap collector that has
    not run, and on the registry of the scenario. *)
Lemma X3_witness :
  struct_pkgs ({| class_of := cSnapPackages; fields := None |} :: scenario_registry)
    {["vim"]} = Raise (AttributeError "pkgs_names") /\
  (exists result_data,
     struct_pkgs scenario_registry {["vim"]} = Ok result_data /\
     "snap_pkgs" ∈ dom result_data).
Proof.
  split.
  - apply (proj1 (X3_struct_pkgs_exceptions _ _)).
    intros HS. apply Forall_cons in HS as [HS _]. by destruct (HS eq_refl).
  - destruct (proj2 (X3_struct_pkgs_exceptions scenario_registry {["vim"]})
                (scenario_populated _)) as (rd & Hrd & Hdom).
    exists rd. split; [done|]. apply Hdom. by do 3 right.
Defined.

(** X4. Each of the two routines reads only the instances of its own
    classes: [sum_pkgs] gives the same on the registry and on its Marked and
    Logs instances alone, [struct_pkgs] the same on the registry and on its
    Snap instances alone, whether the other instances hold results or
    not. *)
Theorem X4_routines_read_their_classes (_childs : list instance)
    (names : gset string) :
  sum_pkgs _childs =
    sum_pkgs (filter (fun i => class_of i = cMarkedPackages \/
                               class_of i = cLogsPackages) _childs) /\
  struct_pkgs _childs names =
    struct_pkgs (instances_of cSnapPackages _childs) names.
Proof.
  split.
  - unfold sum_pkgs. by rewrite sum_pkgs_loop_filter.
  - unfold struct_pkgs. by rewrite struct_pkgs_loop_filter.
Qed.

(** ** The persister *)

Module PersistMore.
Import PackageManager PyStrFacts BackupFacts PersistFacts.

Lemma path_exists_folder (fs : filesystem) :
  path_exists _BACKUP_FOLDER fs = true <->
  is_dir fs (cwd fs) = true /\
  (is_dir fs (cwd fs ++ [_BACKUP_FOLDER]) = true \/
   is_file fs (cwd fs ++ [_BACKUP_FOLDER]) = true).
Proof.
  unfold path_exists. rewrite resolve_folder.
  destruct (is_dir fs (cwd fs)).
  - rewrite orb_true_iff. tauto.
  - destruct (is_file fs (cwd fs)); split; try done; by intros [? _].
Qed.

(** The folder is there when [save_data] has returned. *)
Lemma save_data_exists (kwargs : list (string * list string))
    (fs fs' : filesystem) :
  save_data kwargs fs = (fs', None) -> path_exists _BACKUP_FOLDER fs' = true.
Proof.
  unfold save_data. intros H.
  assert (exists fs1,
            (if negb (path_exists _BACKUP_FOLDER fs) then mkdir _BACKUP_FOLDER fs
             else Ok fs) = Ok fs1 /\ path_exists _BACKUP_FOLDER fs1 = true)
    as (fs1 & Hprep & Hex).
  { destruct (path_exists _BACKUP_FOLDER fs) eqn:E; simpl; [by exists fs|].
    simpl in H. unfold mkdir in *. rewrite resolve_folder in *.
    destruct (is_dir fs (cwd fs)) eqn:Hcwd.
    2: { by destruct (is_file fs (cwd fs)). }
    cbn [mbind result_bind] in *.
    destruct (is_dir fs (cwd fs ++ [_BACKUP_FOLDER])
              || is_file fs (cwd fs ++ [_BACKUP_FOLDER])); [done|].
    eexists. split; [done|]. apply path_exists_folder. simpl. split.
    - apply (is_dir_mono fs); [|done]. simpl. apply union_subseteq_r.
    - left. apply is_dir_elem; [by destruct (cwd fs)|]. simpl.
      apply elem_of_union. left. by apply elem_of_singleton. }
  rewrite Hprep in H. apply save_data_loop_any in H as (Hc & Hd & Hf).
  apply path_exists_folder in Hex as [H1 H2]. apply path_exists_folder.
  rewrite Hc. split.
  - apply (is_dir_mono fs1); [by rewrite Hd|done].
  - destruct H2 as [H2|H2]; [left|right].
    + apply (is_dir_mono fs1); [by rewrite Hd|done].
    + unfold is_file in *. apply bool_decide_eq_true.
      apply bool_decide_eq_true in H2. by apply Hf.
Qed.



End PersistMore.

Import PersistMore.

(** X5. What [save_data] leaves alone, whatever the keys are and whether
    it returns or raises: the working directory is as before; no directory
    and no file is removed; the only directory that can be new is the
    folder below the working directory.  When it returns, the folder is
    there.  When the keys are names of files (no slash, no NUL), every file
    that is not [<key>.txt] in that folder, for a key given, keeps its
    content. *)
Theorem X5_save_data_frame (kwargs : list (string * list string))
    (fs fs' : filesystem) (e : option exn) :
  save_data kwargs fs = (fs', e) ->
  cwd fs' = cwd fs /\
  dirs fs ⊆ dirs fs' /\
  dirs fs' ⊆ {[cwd fs ++ [_BACKUP_FOLDER]]} ∪ dirs fs /\
  (forall p, is_Some (files fs !! p) -> is_Some (files fs' !! p)) /\
  (e = None -> path_exists _BACKUP_FOLDER fs' = true) /\
  (Forall file_name kwargs.*1 ->
   forall p,
     (forall key, key ∈ kwargs.*1 ->
                  p <> cwd fs ++ [_BACKUP_FOLDER; key +:+ ".txt"]) ->
     files fs' !! p = files fs !! p).
Proof.
  intros H. destruct (save_data_any kwargs fs fs' e H) as (Hc & Hd1 & Hd2 & Hf).
  repeat (split; [done|]). split.
  - intros ->. by apply (save_data_exists kwargs fs).
  - intros Hkeys p Hp. by apply (save_data_frame kwargs fs fs' e).
Qed.

(** A file system with a directory and a file of another program: both
    are there after a backup of one group, the file with its content. *)
Lemma X5_witness :
  let fs := {| cwd := []; dirs := {[ ["docs"] ]};
               files := {[ ["notes.txt"] := "remember" ]} |} in
  let out := save_data [("gen_pkgs", ["vim"])] fs in
  out.2 = None /\
  ["docs"] ∈ dirs out.1 /\
  path_exists _BACKUP_FOLDER out.1 = true /\
  files out.1 !! ["notes.txt"] = Some "remember".
Proof.
  intros fs out.
  assert (out.2 = None) as Hnone by by vm_compute.
  destruct (X5_save_data_frame [("gen_pkgs", ["vim"])] fs out.1 out.2)
    as (_ & Hsub & _ & _ & Hex & Hframe).
  - apply surjective_pairing.
  - split; [done|]. split; [|split].
    + apply Hsub. unfold fs. cbn [dirs]. by apply elem_of_singleton.
    + by apply Hex.
    + rewrite Hframe; [done| |].
      * repeat constructor; rewrite <- contains_spec; by vm_compute.
      * intros key Hkey%list_elem_of_singleton. by subst key.
Defined.



(** ** The records of a collector *)

Module CollectMore.
Import PackageManager PyStr PyStrFacts ExtractFacts CollectorFacts.

Lemma first_with_head (t : string) (info : list string) (line : string) :
  first_with t info line <->
  head (filter (fun l => contains t l) info) = Some line.
Proof.
  split.
  - intros (pre & post & -> & Hpre & Hline). by rewrite filter_contains_first.
  - induction info as [|a info IH]; [done|].
    destruct (contains t a) eqn:E.
    + rewrite filter_cons_True by by rewrite E. simpl. intros [= ->].
      exists [], info. split; [done|]. split; [constructor|].
      by apply contains_spec.
    + rewrite filter_cons_False by (rewrite E; simpl; tauto). intros H.
      destruct (IH H) as (pre & post & -> & Hpre & Hline).
      exists (a :: pre), post. split; [done|]. split; [|done].
      constructor; [|done]. rewrite <- contains_spec. by rewrite E.
Qed.

Lemma nonempty_length (s : string) : (0 <? String.length s) = true <-> s <> "".
Proof. destruct s; simpl; split; done. Qed.

Lemma accumulate_eq (info : list string) (nt dt : string)
    (names dpnds : list string) :
  accumulate info nt dt names dpnds =
  (if 0 <? String.length (_separate_structured_info info nt dt).1
   then names ++ [(_separate_structured_info info nt dt).1] else names,
   if 0 <? String.length (_separate_structured_info info nt dt).2
   then dpnds ++ _parse_dpnds (_separate_structured_info info nt dt).2
   else dpnds).
Proof. reflexivity. Qed.

(** The name that a record contributes. *)
Lemma lines_name (lines : list string) (dt x : string) :
  (x <> "" /\ exists line, first_with "Package: " lines line /\
                           x = replace "Package: " "" line) <->
  x = (_separate_structured_info lines "Package: " dt).1 /\ x <> "".
Proof.
  rewrite separate_name. split.
  - intros (Hx & line & Hline%first_with_head & ->). split; [|done].
    by destruct (filter _ lines) as [|l ?]; simplify_eq/=.
  - intros [-> Hx]. split; [done|].
    destruct (filter _ lines) as [|l ?] eqn:E; [done|].
    exists l. split; [|done]. apply first_with_head. by rewrite E.
Qed.

(** The dependencies that a record contributes. *)
Lemma lines_dpnd (lines : list string) (nt d : string) :
  (exists line, first_with "Depends: " lines line /\
                replace "Depends: " "" line <> "" /\
                d ∈ _parse_dpnds (replace "Depends: " "" line)) <->
  (_separate_structured_info lines nt "Depends: ").2 <> "" /\
  d ∈ _parse_dpnds (_separate_structured_info lines nt "Depends: ").2.
Proof.
  rewrite separate_dpnd. split.
  - intros (line & Hline%first_with_head & Hne & Hd).
    by destruct (filter _ lines) as [|l ?]; simplify_eq/=.
  - intros [Hne Hd].
    destruct (filter _ lines) as [|l ?] eqn:E; [done|].
    exists l. split; [|done]. apply first_with_head. by rewrite E.
Qed.

Lemma step_names (acc : list string * list string) (record x : string) :
  x ∈ (LogsPackages.step acc record).1 <-> x ∈ acc.1 \/ record_name record x.
Proof.
  unfold LogsPackages.step, record_name. rewrite accumulate_eq. simpl.
  rewrite (lines_name _ LogsPackages.PKG_DEPENDS_TRIGGER).
  change LogsPackages.PKG_NAME_TRIGGER with "Package: ".
  destruct (0 <? String.length _) eqn:E.
  - apply nonempty_length in E. rewrite elem_of_app, list_elem_of_singleton.
    split; [intros [?| ->]; auto|intros [?|[-> _]]; auto].
  - apply not_true_iff_false in E. rewrite nonempty_length in E.
    split; [auto|]. intros [?|[-> Hx]]; [done|]. by destruct E.
Qed.

Lemma step_dpnds (acc : list string * list string) (record d : string) :
  d ∈ (LogsPackages.step acc record).2 <-> d ∈ acc.2 \/ record_dpnd record d.
Proof.
  unfold LogsPackages.step, record_dpnd. rewrite accumulate_eq. simpl.
  rewrite (lines_dpnd _ LogsPackages.PKG_NAME_TRIGGER).
  change LogsPackages.PKG_DEPENDS_TRIGGER with "Depends: ".
  destruct (0 <? String.length _) eqn:E.
  - apply nonempty_length in E. rewrite elem_of_app. tauto.
  - apply not_true_iff_false in E. rewrite nonempty_length in E. tauto.
Qed.

Lemma fold_names (records : list string) (acc : list string * list string)
    (x : string) :
  x ∈ (foldl LogsPackages.step acc records).1 <->
  x ∈ acc.1 \/ exists record, record ∈ records /\ record_name record x.
Proof.
  revert acc. induction records as [|r records IH]; intros acc.
  - simpl. split; [auto|]. intros [?|(r & Hr & _)]; [done|].
    by apply elem_of_nil in Hr.
  - simpl. rewrite IH, step_names. split.
    + intros [[?|?]|(r' & Hr' & Hx)]; [auto|right..].
      * exists r. split; [left|done].
      * exists r'. split; [by right|done].
    + intros [?|(r' & Hr' & Hx)]; [auto|].
      apply elem_of_cons in Hr' as [->|Hr']; [auto|]. right. by exists r'.
Qed.

Lemma fold_dpnds (records : list string) (acc : list string * list string)
    (d : string) :
  d ∈ (foldl LogsPackages.step acc records).2 <->
  d ∈ acc.2 \/ exists record, record ∈ records /\ record_dpnd record d.
Proof.
  revert acc. induction records as [|r records IH]; intros acc.
  - simpl. split; [auto|]. intros [?|(r & Hr & _)]; [done|].
    by apply elem_of_nil in Hr.
  - simpl. rewrite IH, step_dpnds. split.
    + intros [[?|?]|(r' & Hr' & Hx)]; [auto|right..].
      * exists r. split; [left|done].
      * exists r'. split; [by right|done].
    + intros [?|(r' & Hr' & Hx)]; [auto|].
      apply elem_of_cons in Hr' as [->|Hr']; [auto|]. right. by exists r'.
Qed.

(** The result of the fold over the records of any collector. *)
Lemma finish_fold (records : list string) :
  let acc := foldl LogsPackages.step ([], []) records in
  (forall d, d ∈ pkgs_dpnds (finish acc.1 acc.2) <->
             exists record, record ∈ records /\ record_dpnd record d) /\
  (forall x, x ∈ pkgs_names (finish acc.1 acc.2) <->
             (exists record, record ∈ records /\ record_name record x) /\
             ~ (exists record, record ∈ records /\ record_dpnd record x)).
Proof.
  intros acc.
  assert (forall d, d ∈ acc.2 <->
            exists record, record ∈ records /\ record_dpnd record d) as Hd.
  { intros d. unfold acc. rewrite fold_dpnds. simpl.
    split; [intros [H|?]; [by apply elem_of_nil in H|done]|auto]. }
  assert (forall x, x ∈ acc.1 <->
            exists record, record ∈ records /\ record_name record x) as Hn.
  { intros d. unfold acc. rewrite fold_names. simpl.
    split; [intros [H|?]; [by apply elem_of_nil in H|done]|auto]. }
  split.
  - intros d. by rewrite finish_dpnds, elem_of_list_to_set.
  - intros x. rewrite finish_names, elem_of_difference, !elem_of_list_to_set.
    by rewrite Hn, Hd.
Qed.

Lemma replace_pre_depends (p : string) :
  replace "Depends: " "" ("Pre-Depends: " +:+ p) =
  "Pre-" +:+ replace "Depends: " "" p.
Proof.
  change ("Pre-Depends: " +:+ p)
    with (String "P" (String "r" (String "e" (String "-" ("Depends: " +:+ p))))).
  do 4 rewrite replace_next by reflexivity.
  by rewrite replace_here.
Qed.

Lemma parse_dpnds_pre (p : string) :
  _parse_dpnds ("Pre-" +:+ p) = _parse_dpnds p.
Proof.
  unfold _parse_dpnds. rewrite replace_here by done. by rewrite str_app_nil_l.
Qed.

End CollectMore.

Import CollectMore.

(** X7. What [LogsPackages.main] makes of the log: a dependency is stored
    exactly when some record gives it, that is, when it is an entry that
    [_parse_dpnds] finds in the first line of the record in which
    "Depends: " occurs, that text cut out of the line and the rest not
    empty; a name is stored exactly when some record gives it, as the
    first line in which "Package: " occurs with that text cut out and a rest
    that is not empty, and no record gives it as a dependency. *)
Theorem X7_logs_parse_members (raw : string) :
  let records := _separate_all_info raw in
  (forall d, d ∈ pkgs_dpnds (LogsPackages.parse raw) <->
             exists record, record ∈ records /\ record_dpnd record d) /\
  (forall x, x ∈ pkgs_names (LogsPackages.parse raw) <->
             (exists record, record ∈ records /\ record_name record x) /\
             ~ (exists record, record ∈ records /\ record_dpnd record x)).
Proof.
  intros records. unfold LogsPackages.parse. fold records.
  pose proof (finish_fold records) as H. simpl in H.
  by destruct (foldl LogsPackages.step ([], []) records) as [n d].
Qed.

(** A log of two records: libc6 is a dependency of the first. *)
Lemma X7_witness :
  "libc6" ∈ pkgs_dpnds
    (LogsPackages.parse
       (text ["Package: bash"; "Depends: libc6 (>= 2.15)"; ""; "Package: vim"])).
Proof.
  apply (proj1 (X7_logs_parse_members _)).
  exists (PyStr.join PyStr.LF ["Package: bash"; "Depends: libc6 (>= 2.15)"]).
  split; [by vm_compute; left|].
  exists "Depends: libc6 (>= 2.15)". split; [|split].
  - exists ["Package: bash"], []. split; [done|]. split.
    + apply Forall_singleton. rewrite <- contains_spec. by vm_compute.
    + by exists "", "libc6 (>= 2.15)".
  - by vm_compute.
  - vm_compute. left.
Defined.

(** X8. A [Pre-Depends] line that comes before the [Depends] line of a
    record takes its place: "Depends: " occurs in it, so it is the line
    taken, what is kept of it is "Pre-" and the rest, and the dependencies
    that the record adds are those of the [Pre-Depends] line; the lines
    after it are not looked at. *)
Theorem X8_pre_depends_shadows (pre post names dpnds : list string)
    (p nt : string) :
  Forall (fun l => ~ occurs_in "Depends: " l) pre ->
  let info := pre ++ ("Pre-Depends: " +:+ p) :: post in
  (_separate_structured_info info nt "Depends: ").2 =
    "Pre-" +:+ PyStr.replace "Depends: " "" p /\
  (accumulate info nt "Depends: " names dpnds).2 =
    dpnds ++ _parse_dpnds (PyStr.replace "Depends: " "" p).
Proof.
  intros Hpre info.
  assert ((_separate_structured_info info nt "Depends: ").2 =
          "Pre-" +:+ PyStr.replace "Depends: " "" p) as Hd.
  { rewrite separate_dpnd. unfold info.
    rewrite filter_contains_first; [apply replace_pre_depends|done|].
    by exists "Pre-", p. }
  split; [done|]. rewrite accumulate_eq, Hd. simpl.
  by rewrite parse_dpnds_pre.
Qed.

(** The record of dpkg: its [Depends] line is not read. *)
Lemma X8_witness :
  (_separate_structured_info dpkg_record "Package: " "Depends: ").2 =
    "Pre-libc6 (>= 2.15)" /\
  (accumulate dpkg_record "Package: " "Depends: " [] []).2 = ["libc6"].
Proof.
  apply (X8_pre_depends_shadows ["Package: dpkg"] ["Depends: tar"] [] []
           "libc6 (>= 2.15)" "Package: ").
  apply Forall_singleton. rewrite <- contains_spec. by vm_compute.
Defined.

(** ** The processes of a collector *)

Module TraceMore.
Import PackageManager PyStr PyStrFacts CollectorFacts CollectMore.

Lemma traced_eq {World : Type} (run : list string -> World -> string * World)
    (command : list string) (w : World) (log : list (list string * string)) :
  traced run command (w, log) =
  ((run command w).1, ((run command w).2, log ++ [(command, (run command w).1)])).
Proof. unfold traced. simpl. by destruct (run command w). Qed.

(** One turn of the loop of [MarkedPackages.main] is one turn of the loop
    of [LogsPackages.main] on what the process printed. *)
Lemma marked_step {World : Type} (run : list string -> World -> string * World)
    (n d : list string) (w : World) (name : string) :
  MarkedPackages.step run (n, d, w) name =
  (LogsPackages.step (n, d) (run ["apt"; "show"; name] w).1,
   (run ["apt"; "show"; name] w).2).
Proof.
  unfold MarkedPackages.step, LogsPackages.step, _run_command.
  rewrite info_command_spec. destruct (run _ w) as [out w'].
  by rewrite !accumulate_eq.
Qed.

Section run.
Context {World : Type}.
Variable run : list string -> World -> string * World.

Lemma marked_fold (names : list string) (acc : list string * list string)
    (w : World) (log : list (list string * string)) :
  exists infos,
    length infos = length names /\
    foldl (MarkedPackages.step (traced run)) (acc, (w, log)) names =
      ((foldl (MarkedPackages.step run) (acc, w) names).1,
       ((foldl (MarkedPackages.step run) (acc, w) names).2,
        log ++ zip (map (fun name => ["apt"; "show"; name]) names) infos)) /\
    (foldl (MarkedPackages.step run) (acc, w) names).1 =
      foldl LogsPackages.step acc infos.
Proof.
  revert acc w log.
  induction names as [|name names IH]; intros [n d] w log.
  - exists []. simpl. by rewrite app_nil_r.
  - cbn [foldl]. rewrite (marked_step run), (marked_step (traced run)).
    rewrite !traced_eq. cbn [fst snd].
    destruct (run ["apt"; "show"; name] w) as [out w'] eqn:E. cbn [fst snd].
    destruct (IH (LogsPackages.step (n, d) out) w'
                 (log ++ [(["apt"; "show"; name], out)]))
      as (infos & Hlen & Hfold & Hacc).
    exists (out :: infos). split; [by simpl; rewrite Hlen|].
    split; [|done]. rewrite Hfold. simpl. by rewrite <- app_assoc.
Qed.

Lemma marked_collect_traced (w : World) (log : list (list string * string)) :
  exists infos,
    length infos = length (_separate_pkg_info (run MarkedPackages.PKGS_COMMAND w).1) /\
    MarkedPackages.collect (traced run) (w, log) =
      ((MarkedPackages.collect run w).1,
       ((MarkedPackages.collect run w).2,
        log ++ (MarkedPackages.PKGS_COMMAND, (run MarkedPackages.PKGS_COMMAND w).1)
            :: zip (map (fun name => ["apt"; "show"; name])
                      (_separate_pkg_info (run MarkedPackages.PKGS_COMMAND w).1))
                   infos)) /\
    (MarkedPackages.collect run w).1 =
      finish (foldl LogsPackages.step ([], []) infos).1
             (foldl LogsPackages.step ([], []) infos).2.
Proof.
  unfold MarkedPackages.collect, _run_command. rewrite traced_eq.
  destruct (run MarkedPackages.PKGS_COMMAND w) as [listing w1]. cbn [fst snd].
  destruct (marked_fold (_separate_pkg_info listing) ([], []) w1
              (log ++ [(MarkedPackages.PKGS_COMMAND, listing)]))
    as (infos & Hlen & Hfold & Hacc).
  exists infos. split; [done|]. rewrite Hfold, <- Hacc.
  destruct (foldl (MarkedPackages.step run) _ _) as [[n d] w2]. simpl.
  by rewrite <- app_assoc.
Qed.

Lemma logs_collect_traced (w : World) (log : list (list string * string)) :
  LogsPackages.collect (traced run) (w, log) =
  ((LogsPackages.collect run w).1,
   ((LogsPackages.collect run w).2,
    log ++ [(LogsPackages.PKGS_COMMAND, (run LogsPackages.PKGS_COMMAND w).1)])).
Proof.
  unfold LogsPackages.collect, _run_command. rewrite traced_eq.
  by destruct (run LogsPackages.PKGS_COMMAND w).
Qed.

Lemma snap_collect_traced (w : World) (log : list (list string * string)) :
  SnapPackages.collect (traced run) (w, log) =
  ((SnapPackages.collect run w).1,
   ((SnapPackages.collect run w).2,
    log ++ [(SnapPackages.PKGS_COMMAND, (run SnapPackages.PKGS_COMMAND w).1)])).
Proof.
  unfold SnapPackages.collect, _run_command. rewrite traced_eq.
  by destruct (run SnapPackages.PKGS_COMMAND w).
Qed.

End run.
End TraceMore.

Import TraceMore.

(** X9. The processes of [MarkedPackages.main], read off a world that
    records every command it is given: the listing command first, then
    [apt show <line>] for every line of the listing in turn, the empty
    line after a final line feed included, and nothing else; the recording
    changes neither the result nor the world. *)
Theorem X9_marked_commands {World : Type}
    (run : list string -> World -> string * World) (w : World) :
  let r := MarkedPackages.collect (traced run) (w, []) in
  let listing := (run MarkedPackages.PKGS_COMMAND w).1 in
  r.1 = (MarkedPackages.collect run w).1 /\
  r.2.1 = (MarkedPackages.collect run w).2 /\
  r.2.2.*1 =
    ["apt-mark"; "showmanual"; "|"; "sort -u"]
    :: map (fun name => ["apt"; "show"; name]) (PyStr.split PyStr.LF listing).
Proof.
  intros r listing. unfold r.
  destruct (marked_collect_traced run w []) as (infos & Hlen & -> & _).
  split; [done|]. split; [done|]. cbn [fst snd app]. rewrite fmap_cons.
  f_equal. apply fst_zip. by rewrite length_map, Hlen.
Qed.

(** X10. What [MarkedPackages.main] stores, in terms of what the
    [apt show] processes printed, one output for every line of the listing:
    a dependency is stored exactly when some output gives it, as an entry
    that [_parse_dpnds] finds in its first line in which "Depends: "
    occurs; a name is stored exactly when some output gives it, as its
    first line in which "Package: " occurs with that text cut out, and no
    output gives it as a dependency. *)
Theorem X10_marked_members {World : Type}
    (run : list string -> World -> string * World) (w : World) :
  let a := (MarkedPackages.collect run w).1 in
  let listing := (run MarkedPackages.PKGS_COMMAND w).1 in
  exists infos : list string,
    (MarkedPackages.collect (traced run) (w, [])).2.2.*2 = listing :: infos /\
    length infos = length (PyStr.split PyStr.LF listing) /\
    (forall d, d ∈ pkgs_dpnds a <->
               exists info, info ∈ infos /\ record_dpnd info d) /\
    (forall x, x ∈ pkgs_names a <->
               (exists info, info ∈ infos /\ record_name info x) /\
               ~ (exists info, info ∈ infos /\ record_dpnd info x)).
Proof.
  intros a listing. unfold a, listing.
  destruct (marked_collect_traced run w []) as (infos & Hlen & -> & ->).
  exists infos.
  split; [|split; [done|apply finish_fold]].
  cbn [fst snd app]. rewrite fmap_cons. f_equal. apply snd_zip.
  by rewrite length_map, Hlen.
Qed.

(** Two marked packages; the second has libc6 as a dependency. *)
Lemma X10_witness :
  let w := [text ["bash"; "vim"]; "Package: bash"; text ["Package: vim"; "Depends: libc6"]; ""] in
  "libc6" ∈ pkgs_dpnds (MarkedPackages.collect canned w).1.
Proof.
  intros w.
  pose proof (X10_marked_members canned w) as H. cbv zeta in H.
  destruct H as (infos & Hlog & _ & Hd & _).
  apply Hd. vm_compute in Hlog. injection Hlog as <-.
  exists (text ["Package: vim"; "Depends: libc6"]).
  split; [right; left|].
  exists "Depends: libc6". split; [|split].
  - exists ["Package: vim"], [""]. split; [done|]. split.
    + apply Forall_singleton. rewrite <- contains_spec. by vm_compute.
    + by exists "", "libc6".
  - by vm_compute.
  - vm_compute. left.
Defined.

(** ** What the registry holds *)

Module ShapeMore.
Import PackageManager PyStr PyStrFacts CollectorFacts LineFacts CollectMore
  TraceMore.

Lemma parse_dpnds_no_space (d : string) :
  Forall (fun x => contains " " x = false) (_parse_dpnds d).
Proof.
  unfold _parse_dpnds. apply Forall_forall. intros x Hx.
  apply list_elem_of_In, in_map_iff in Hx as (y & <- & _).
  apply free_item0, split_char_free.
Qed.

Lemma record_dpnd_shape (record d : string) :
  record_dpnd record d -> ~ occurs_in " " d /\ ~ occurs_in "|" d.
Proof.
  intros (line & _ & _ & Hd). rewrite <- !contains_spec. split.
  - pose proof (parse_dpnds_no_space (replace "Depends: " "" line)) as Hall.
    rewrite Forall_forall in Hall. rewrite (Hall d Hd). done.
  - pose proof (parse_dpnds_no_bar (replace "Depends: " "" line)) as Hall.
    rewrite Forall_forall in Hall. rewrite (Hall d Hd). done.
Qed.

Lemma fold_shaped (records : list string) :
  shaped (finish (foldl LogsPackages.step ([], []) records).1
                 (foldl LogsPackages.step ([], []) records).2).
Proof.
  destruct (finish_fold records) as [Hd Hn]. split.
  - intros [(r & _ & Hne & _) _]%Hn. done.
  - intros d (r & _ & Hr)%Hd. by apply (record_dpnd_shape r).
Qed.

Lemma logs_parse_shaped (raw : string) : shaped (LogsPackages.parse raw).
Proof.
  unfold LogsPackages.parse.
  pose proof (fold_shaped (_separate_all_info raw)) as H.
  by destruct (foldl LogsPackages.step ([], []) (_separate_all_info raw)).
Qed.

Lemma snap_names_shape (raw x : string) :
  x ∈ pkgs_names (SnapPackages.parse raw) -> x <> "" /\ ~ occurs_in " " x.
Proof.
  unfold SnapPackages.parse. rewrite finish_names, elem_of_difference.
  rewrite elem_of_list_to_set. intros [[_ Hx]%list_elem_of_filter _].
  apply list_elem_of_omap in Hx as (cols & Hcols & Hx).
  apply list_elem_of_In, in_map_iff in Hcols as (row & <- & _).
  destruct (0 <? length (SnapPackages.columns row)); [|done].
  apply list_elem_of_lookup_2, list_elem_of_filter in Hx as [Hlen Hx].
  split.
  - apply nonempty_length. by apply Is_true_true.
  - rewrite <- contains_spec. apply not_true_iff_false.
    pose proof (split_char_free " " row) as Hall.
    rewrite Forall_forall in Hall. by apply Hall.
Qed.

Lemma snap_parse_shaped (raw : string) : shaped (SnapPackages.parse raw).
Proof.
  split.
  - by intros [? _]%snap_names_shape.
  - intros d. rewrite snap_parse_dpnds. intros ->%elem_of_singleton.
    rewrite <- !contains_spec. by vm_compute.
Qed.

Lemma marked_collect_shaped {World : Type}
    (run : list string -> World -> string * World) (w : World) :
  shaped (MarkedPackages.collect run w).1.
Proof.
  destruct (marked_collect_traced run w []) as (infos & _ & _ & ->).
  apply fold_shaped.
Qed.

End ShapeMore.

Import ShapeMore.

(** X11. In every registry that a run reaches, every stored result has
    this shape: the empty string is no name; no dependency holds a space
    or a bar; the names of a snap collector hold no space. *)
Theorem X11_stored_shape {World : Type}
    (run : list string -> World -> string * World)
    (st : list instance * World) (i : instance) (a : attrs) :
  reachable run st -> i ∈ st.1 -> fields i = Some a ->
  ("" ∉ pkgs_names a) /\
  (forall d, d ∈ pkgs_dpnds a -> ~ occurs_in " " d /\ ~ occurs_in "|" d) /\
  (class_of i = cSnapPackages ->
   forall x, x ∈ pkgs_names a -> ~ occurs_in " " x).
Proof.
  intros [w0 Hrtc] Hi Ha.
  assert (Forall (fun i => forall a, fields i = Some a ->
                    shaped a /\
                    (class_of i = cSnapPackages ->
                     forall x, x ∈ pkgs_names a -> ~ occurs_in " " x)) st.1)
    as Hall.
  { clear i a Hi Ha. revert st Hrtc.
    apply (rtc_ind_r (fun st =>
             Forall (fun i => forall a, fields i = Some a ->
                       shaped a /\
                       (class_of i = cSnapPackages ->
                        forall x, x ∈ pkgs_names a -> ~ occurs_in " " x)) st.1));
      [constructor|].
    intros st st' _ Hstep IHst.
    destruct Hstep as [cls l w|self i st Hi Hc|self i st Hi Hc|self i st Hi Hc].
    - simpl in *. apply Forall_app. split; [done|].
      apply Forall_singleton. by intros a.
    - rewrite logs_main_registry, logs_collect_parse.
      eapply Forall_alter; [done|]. intros j Hj _ a [= <-]. simpl.
      split; [apply logs_parse_shaped|]. intros Hcj.
      rewrite Hi in Hj. injection Hj as <-. congruence.
    - rewrite marked_main_registry.
      eapply Forall_alter; [done|]. intros j Hj _ a [= <-]. simpl.
      split; [apply marked_collect_shaped|]. intros Hcj.
      rewrite Hi in Hj. injection Hj as <-. congruence.
    - rewrite snap_main_registry, snap_collect_parse.
      eapply Forall_alter; [done|]. intros j Hj _ a [= <-]. simpl.
      split; [apply snap_parse_shaped|]. intros _ x Hx.
      by apply snap_names_shape in Hx as [_ Hx]. }
  rewrite Forall_forall in Hall.
  destruct (Hall i Hi a Ha) as [[Hn Hd] Hs]. done.
Qed.

(** The registry after [SnapPackages().main()] on a listing. *)
Lemma X11_witness :
  ("" ∉ pkgs_names (SnapPackages.parse store_listing)) /\
  (forall x, x ∈ pkgs_names (SnapPackages.parse store_listing) ->
             ~ occurs_in " " x).
Proof.
  destruct (X11_stored_shape canned snap_state
              {| class_of := cSnapPackages;
                 fields := Some (SnapPackages.parse store_listing) |}
              (SnapPackages.parse store_listing)) as (Hn & _ & Hs).
  - exists [store_listing].
    eapply rtc_l; [apply (step_new canned cSnapPackages [] [store_listing])|].
    eapply rtc_l; [|apply rtc_refl].
    by eapply (step_snap canned 0).
  - unfold snap_state. rewrite snap_main_registry, snap_collect_parse.
    apply list_elem_of_here.
  - reflexivity.
  - split; [exact Hn|exact (Hs eq_refl)].
Defined.

(** X12. A run never takes anything out of the registry: the classes of
    the instances of an earlier state are the first classes of every later
    state, in the same order, and an instance that holds a result holds one
    ever after. *)
Theorem X12_registry_grows {World : Type}
    (run : list string -> World -> string * World)
    (st st' : list instance * World) :
  rtc (step run) st st' ->
  (class_of <$> st.1) `prefix_of` (class_of <$> st'.1) /\
  forall self i, st.1 !! self = Some i -> is_Some (fields i) ->
    exists i', st'.1 !! self = Some i' /\ class_of i' = class_of i /\
               is_Some (fields i').
Proof.
  assert (forall self a (l : list instance),
            class_of <$> set_pkgs self a l = class_of <$> l) as Hcls.
  { intros self a l. unfold set_pkgs.
    rewrite (list_fmap_alter class_of _ id) by by apply Forall_true.
    by apply list_alter_id. }
  assert (forall self a (l : list instance) k i,
            l !! k = Some i -> is_Some (fields i) ->
            exists i', set_pkgs self a l !! k = Some i' /\
                       class_of i' = class_of i /\ is_Some (fields i')) as Hset.
  { intros self a l k i Hk Hi. unfold set_pkgs.
    destruct (decide (self = k)) as [->|Hne].
    - rewrite list_lookup_alter_eq, Hk. simpl. eexists. split; [done|].
      split; [done|]. by eexists.
    - rewrite list_lookup_alter_ne by done. by exists i. }
  induction 1 as [st|st st1 st' Hstep _ [IHc IHf]].
  - split; [done|]. intros self i Hi Hf. by exists i.
  - assert ((class_of <$> st.1) `prefix_of` (class_of <$> st1.1) /\
            forall self i, st.1 !! self = Some i -> is_Some (fields i) ->
              exists i', st1.1 !! self = Some i' /\ class_of i' = class_of i /\
                         is_Some (fields i')) as [Hc Hf].
    { destruct Hstep as [cls l w|self i st Hi Hc|self i st Hi Hc|self i st Hi Hc].
      - simpl. split.
        + rewrite fmap_app. by apply prefix_app_r.
        + intros self i Hi Hf. exists i. split; [|done].
          by apply lookup_app_l_Some.
      - rewrite logs_main_registry. split; [by rewrite Hcls|]. apply Hset.
      - rewrite marked_main_registry. split; [by rewrite Hcls|]. apply Hset.
      - rewrite snap_main_registry. split; [by rewrite Hcls|]. apply Hset. }
    split; [by etrans|].
    intros self i Hi Hfi.
    destruct (Hf self i Hi Hfi) as (i1 & Hi1 & Hc1 & Hf1).
    destruct (IHf self i1 Hi1 Hf1) as (i' & Hi' & Hc' & Hf').
    exists i'. split; [done|]. split; [congruence|done].
Qed.

(** From the registry of the scenarios on: one more instance, and the
    first instance still has its class. *)
Lemma X12_witness :
  let st := (scenario_registry, [store_listing]) in
  let st' := ((new cSnapPackages scenario_registry).2, [store_listing]) in
  (class_of <$> st.1) `prefix_of` (class_of <$> st'.1) /\
  exists i', st'.1 !! 0 = Some i' /\ class_of i' = cMarkedPackages /\
             is_Some (fields i').
Proof.
  intros st st'.
  destruct (X12_registry_grows canned st st') as [Hc Hf].
  - apply rtc_once. apply (step_new canned cSnapPackages).
  - split; [done|]. apply (Hf 0 scenario_marked); [done|]. by eexists.
Defined.

(** ** The program as a whole *)

Module MainMore.
Import PackageManager PyStr PyStrFacts RegistryFacts CollectorFacts LineFacts
  PersistFacts BackupFacts GroupFacts Pipeline RegistryMore PersistMore TraceMore.

Lemma set_pkgs_snoc (c : Class) (a : attrs) (l : list instance) :
  set_pkgs (length l) a (l ++ [{| class_of := c; fields := None |}]) =
  l ++ [{| class_of := c; fields := Some a |}].
Proof. apply (set_pkgs_new c). Qed.

Lemma populated_created (c : Class) (l : list instance) (m g s : attrs) :
  populated c (l ++ created m g s) <-> populated c l.
Proof.
  unfold populated. rewrite Forall_app. split; [tauto|]. intros Hl.
  split; [done|]. repeat constructor; intros _; by eexists.
Qed.

Lemma sum_pkgs_created (l : list instance) (m g s : attrs) :
  populated cMarkedPackages l -> populated cLogsPackages l ->
  sum_pkgs (l ++ created m g s) =
    Ok ((pkgs_names m ∖ pkgs_names g) ∖ (pkgs_dpnds m ∖ pkgs_dpnds g),
        pkgs_dpnds m ∖ pkgs_dpnds g).
Proof.
  intros HM HL.
  apply (sum_pkgs_ok _ {| class_of := cMarkedPackages; fields := Some m |}
                       {| class_of := cLogsPackages; fields := Some g |});
    try done; try by apply populated_created.
  - rewrite instances_of_app. apply (last_snoc _ _).
  - rewrite instances_of_app. apply (last_snoc _ _).
Qed.

Lemma sum_pkgs_created_raise (l : list instance) (m g s : attrs) :
  ~ (populated cMarkedPackages l /\ populated cLogsPackages l) ->
  sum_pkgs (l ++ created m g s) = Raise (AttributeError "pkgs_names").
Proof.
  intros Hn. unfold sum_pkgs.
  destruct (sum_pkgs_loop_cases (l ++ created m g s) None None)
    as [(HM & HL & _)|[_ ->]]; [|done].
  destruct Hn. by rewrite populated_created in HM, HL.
Qed.

Lemma struct_pkgs_created (l : list instance) (m g s : attrs)
    (names : gset string) :
  populated cSnapPackages l ->
  struct_pkgs (l ++ created m g s) names =
    Ok (<["snap_pkgs" := pkgs_names s]>
          (<["lib_pkgs" :=
               filter (fun pkg => PyStr.contains "lib" pkg) names ∖
               filter (fun pkg => PyStr.contains "pyth" pkg) names]>
             (<["py_pkgs" := filter (fun pkg => PyStr.contains "pyth" pkg) names]>
                (<["gen_pkgs" :=
                     names ∖ filter (fun pkg => PyStr.contains "pyth" pkg) names ∖
                     (filter (fun pkg => PyStr.contains "lib" pkg) names ∖
                      filter (fun pkg => PyStr.contains "pyth" pkg) names)]> ∅)))).
Proof.
  intros HS. rewrite struct_pkgs_ok by by apply populated_created.
  unfold snap_bound. rewrite instances_of_app.
  change (instances_of cSnapPackages (created m g s))
    with [{| class_of := cSnapPackages; fields := Some s |}].
  by rewrite last_snoc.
Qed.

Lemma struct_pkgs_created_raise (l : list instance) (m g s : attrs)
    (names : gset string) :
  ~ populated cSnapPackages l ->
  struct_pkgs (l ++ created m g s) names = Raise (AttributeError "pkgs_names").
Proof.
  intros Hn. unfold struct_pkgs. apply struct_pkgs_loop_raise.
  by rewrite populated_created.
Qed.

Lemma bind_Ok {A B : Type} (a : A) (f : A -> result B) : (Ok a ≫= f) = f a.
Proof. reflexivity. Qed.

Lemma Ok_inj {A : Type} (a b : A) : Ok a = Ok b -> a = b.
Proof. by intros [= ->]. Qed.

Lemma bind_Raise {A B : Type} (e : exn) (f : A -> result B) :
  (Raise e ≫= f) = Raise e.
Proof. reflexivity. Qed.

Lemma backup_keys_names : Forall file_name backup_keys.
Proof. repeat constructor; rewrite <- contains_spec; by vm_compute. Qed.

Lemma backup_keys_NoDup : NoDup backup_keys.
Proof. apply (bool_decide_unpack _). by vm_compute. Qed.

Lemma backup_groups_keys (m g s : attrs) : (backup_groups m g s).*1 = backup_keys.
Proof. reflexivity. Qed.

(** Every name of every group is a single line when the names and the
    dependencies of the three results are. *)
Lemma backup_groups_lines (m g s : attrs) (key : string) (group : gset string) :
  lines_ok m -> lines_ok s -> (key, group) ∈ backup_groups m g s ->
  forall x, x ∈ group -> single_line x.
Proof.
  intros Hm Hs Hin x Hx. unfold backup_groups in Hin.
  assert (forall y, y ∈ (pkgs_names m ∖ pkgs_names g) ∖
                         (pkgs_dpnds m ∖ pkgs_dpnds g) -> single_line y) as Hfull.
  { intros y [[Hy _]%elem_of_difference _]%elem_of_difference.
    apply Hm, elem_of_union. by left. }
  repeat (apply elem_of_cons in Hin as [[= -> ->]|Hin]).
  - apply elem_of_difference in Hx as [[Hx _]%elem_of_difference _]. auto.
  - apply elem_of_filter in Hx as [_ Hx]. auto.
  - apply elem_of_difference in Hx as [[_ Hx]%elem_of_filter _]. auto.
  - apply Hs, elem_of_union. by left.
  - auto.
  - apply elem_of_difference in Hx as [Hx _]. apply Hm, elem_of_union. by right.
  - by apply elem_of_nil in Hin.
Qed.

Section run.
Context {World : Type}.
Variable run : list string -> World -> string * World.
Variable rank : string -> string -> nat.

Lemma marked_main_eq (self : nat) (st : list instance * World) :
  MarkedPackages.main run self st =
  (set_pkgs self (MarkedPackages.collect run st.2).1 st.1,
   (MarkedPackages.collect run st.2).2).
Proof. unfold MarkedPackages.main. by destruct (MarkedPackages.collect run st.2). Qed.

Lemma logs_main_eq (self : nat) (st : list instance * World) :
  LogsPackages.main run self st =
  (set_pkgs self (LogsPackages.collect run st.2).1 st.1,
   (LogsPackages.collect run st.2).2).
Proof. unfold LogsPackages.main. by destruct (LogsPackages.collect run st.2). Qed.

Lemma snap_main_eq (self : nat) (st : list instance * World) :
  SnapPackages.main run self st =
  (set_pkgs self (SnapPackages.collect run st.2).1 st.1,
   (SnapPackages.collect run st.2).2).
Proof. unfold SnapPackages.main. by destruct (SnapPackages.collect run st.2). Qed.

(** The keyword arguments of [save_data] in [main], for a group map with
    the six keys. *)
Lemma kwargs_six (gen py lib snap full dpnds : gset string) :
  omap (fun key => (fun group => (key, yielded rank key group)) <$>
                   (<["full_dpnds" := dpnds]>
                      (<["full_pkgs" := full]>
                         (<["snap_pkgs" := snap]>
                            (<["lib_pkgs" := lib]>
                               (<["py_pkgs" := py]>
                                  (<["gen_pkgs" := gen]>
                                     (∅ : gmap string (gset string)))))))) !! key)
       backup_keys =
  (fun kv => (kv.1, yielded rank kv.1 kv.2)) <$>
    [("gen_pkgs", gen); ("py_pkgs", py); ("lib_pkgs", lib);
     ("snap_pkgs", snap); ("full_pkgs", full); ("full_dpnds", dpnds)].
Proof.
  unfold backup_keys. cbn [omap list_omap fmap list_fmap fst snd].
  rewrite lookup_insert_eq.
  do 1 rewrite (lookup_insert_ne _ "full_dpnds" "full_pkgs") by done.
  rewrite lookup_insert_eq.
  do 2 rewrite (lookup_insert_ne _ _ "snap_pkgs") by done.
  rewrite lookup_insert_eq.
  do 3 rewrite (lookup_insert_ne _ _ "lib_pkgs") by done.
  rewrite lookup_insert_eq.
  do 4 rewrite (lookup_insert_ne _ _ "py_pkgs") by done.
  rewrite lookup_insert_eq.
  do 5 rewrite (lookup_insert_ne _ _ "gen_pkgs") by done.
  rewrite lookup_insert_eq.
  reflexivity.
Qed.

(** [main] with the three collectors run: what is left is the
    reconciliation, the grouping and the backup. *)
Lemma main_eq (st : list instance * World) (fs : filesystem) :
  main run rank st fs =
  let m := MarkedPackages.collect run st.2 in
  let g := LogsPackages.collect run m.2 in
  let s := SnapPackages.collect run g.2 in
  let _childs := st.1 ++ created m.1 g.1 s.1 in
  '(pkgs_names, pkgs_dpnds) ← sum_pkgs _childs;
  struct_pkgs ← struct_pkgs _childs pkgs_names;
  match save_data
          (omap (fun key => (fun group => (key, yielded rank key group)) <$>
                            (<["full_dpnds" := pkgs_dpnds]>
                               (<["full_pkgs" := pkgs_names]> struct_pkgs)) !! key)
                backup_keys) fs with
  | (fs, None) => mret ((_childs, s.2), fs)
  | (_, Some e) => Raise e
  end.
Proof.
  unfold main, new. cbv beta iota zeta.
  rewrite !marked_main_eq, !logs_main_eq, !snap_main_eq. cbn [fst snd].
  rewrite !set_pkgs_snoc, <- !app_assoc. reflexivity.
Qed.

(** [main] up to the call of [save_data], for a registry whose instances
    hold their results. *)
Lemma main_save (st : list instance * World) (fs : filesystem) :
  populated cMarkedPackages st.1 -> populated cLogsPackages st.1 ->
  populated cSnapPackages st.1 ->
  main run rank st fs =
  let m := MarkedPackages.collect run st.2 in
  let g := LogsPackages.collect run m.2 in
  let s := SnapPackages.collect run g.2 in
  match save_data ((fun kv => (kv.1, yielded rank kv.1 kv.2)) <$>
                     backup_groups m.1 g.1 s.1) fs with
  | (fs, None) => Ok ((st.1 ++ created m.1 g.1 s.1, s.2), fs)
  | (_, Some e) => Raise e
  end.
Proof.
  intros HM HL HS. rewrite main_eq. cbv zeta.
  rewrite sum_pkgs_created by done. rewrite bind_Ok.
  rewrite struct_pkgs_created by done. rewrite bind_Ok.
  rewrite kwargs_six. reflexivity.
Qed.

Lemma main_raises (st : list instance * World) (fs : filesystem) :
  ~ (populated cMarkedPackages st.1 /\ populated cLogsPackages st.1 /\
     populated cSnapPackages st.1) ->
  main run rank st fs = Raise (AttributeError "pkgs_names").
Proof.
  intros Hn. rewrite main_eq. cbv zeta.
  destruct (populated_dec cMarkedPackages st.1) as [HM|HM];
    [|by rewrite sum_pkgs_created_raise, bind_Raise by tauto].
  destruct (populated_dec cLogsPackages st.1) as [HL|HL];
    [|by rewrite sum_pkgs_created_raise, bind_Raise by tauto].
  rewrite sum_pkgs_created by done. rewrite bind_Ok.
  by rewrite struct_pkgs_created_raise, bind_Raise by tauto.
Qed.

(** What [main] returns when it returns. *)
Lemma main_Ok (st st' : list instance * World) (fs fs' : filesystem) :
  main run rank st fs = Ok (st', fs') ->
  let m := MarkedPackages.collect run st.2 in
  let g := LogsPackages.collect run m.2 in
  let s := SnapPackages.collect run g.2 in
  (populated cMarkedPackages st.1 /\ populated cLogsPackages st.1 /\
   populated cSnapPackages st.1) /\
  st' = (st.1 ++ created m.1 g.1 s.1, s.2) /\
  save_data ((fun kv => (kv.1, yielded rank kv.1 kv.2)) <$>
               backup_groups m.1 g.1 s.1) fs = (fs', None).
Proof.
  intros H.
  destruct (populated_dec cMarkedPackages st.1) as [HM|HM];
    [|by rewrite main_raises in H by tauto].
  destruct (populated_dec cLogsPackages st.1) as [HL|HL];
    [|by rewrite main_raises in H by tauto].
  destruct (populated_dec cSnapPackages st.1) as [HS|HS];
    [|by rewrite main_raises in H by tauto].
  rewrite main_save in H by done. cbv zeta in *.
  destruct (save_data _ fs) as [fs1 [e|]]; [done|].
  apply Ok_inj, pair_equal_spec in H as [<- <-]. done.
Qed.

(** [main] returns when the instances that the registry has hold their
    results and the backups can be written. *)
Lemma main_returns (st : list instance * World) (fs : filesystem) :
  populated cMarkedPackages st.1 -> populated cLogsPackages st.1 ->
  populated cSnapPackages st.1 -> writable fs backup_keys ->
  exists fs',
    main run rank st fs =
      Ok ((st.1 ++ created (MarkedPackages.collect run st.2).1
                     (LogsPackages.collect run (MarkedPackages.collect run st.2).2).1
                     (SnapPackages.collect run
                        (LogsPackages.collect run
                           (MarkedPackages.collect run st.2).2).2).1,
           (SnapPackages.collect run
              (LogsPackages.collect run (MarkedPackages.collect run st.2).2).2).2),
          fs').
Proof.
  intros HM HL HS Hw. rewrite main_save by done. cbv zeta.
  match goal with
  | |- context [save_data ?k fs] =>
      destruct (save_data_ok k fs) as (fs' & Hs & _)
  end.
  - rewrite <- list_fmap_compose. apply backup_keys_names.
  - rewrite <- list_fmap_compose. exact Hw.
  - rewrite Hs. by exists fs'.
Qed.

End run.
End MainMore.

Import MainMore.

(** X13. [main] returns only when every instance of the three collectors
    that the registry has on entry holds its result; when it returns it has
    added a Marked, a Logs and a Snap instance, in this order, each with
    the result of its collector, the collectors having run in this order,
    each in the world that the one before left. *)
Theorem X13_main_outcome {World : Type}
    (run : list string -> World -> string * World)
    (rank : string -> string -> nat)
    (st st' : list instance * World) (fs fs' : filesystem) :
  main run rank st fs = Ok (st', fs') ->
  let m := MarkedPackages.collect run st.2 in
  let g := LogsPackages.collect run m.2 in
  let s := SnapPackages.collect run g.2 in
  (populated cMarkedPackages st.1 /\ populated cLogsPackages st.1 /\
   populated cSnapPackages st.1) /\
  st' = (st.1 ++ created m.1 g.1 s.1, s.2).
Proof.
  intros H. apply main_Ok in H. cbv zeta in *. tauto.
Qed.

(** Started with an empty registry in an empty file system. *)
Lemma X13_witness :
  let fs := {| cwd := []; dirs := ∅; files := ∅ |} in
  exists st' fs',
    main canned (fun _ _ => 0) ([], []) fs = Ok (st', fs') /\
    class_of <$> st'.1 = [cMarkedPackages; cLogsPackages; cSnapPackages].
Proof.
  intros fs.
  destruct (main_returns canned (fun _ _ => 0) ([], []) fs) as [fs' E];
    [constructor..| |].
  { split; [by vm_compute|]. split; [by vm_compute|].
    repeat constructor; by vm_compute. }
  eexists _, fs'. split; [exact E|].
  pose proof (X13_main_outcome canned (fun _ _ => 0) _ _ fs fs' E) as H.
  cbv zeta in H. destruct H as [_ H].
  exact (f_equal (fun st : list instance * list string => class_of <$> st.1) H).
Defined.

(** X14. The files that [main] leaves when it returns: for each of the six
    groups, cut out of the results of the three collectors that this call
    has run, the file [<key>.txt] in the folder below the working directory
    holds the names of the group, each once and followed by a line feed, in
    the order of the loop, so that reading it back line by line gives the
    group; every other file is as before. *)
Theorem X14_main_files {World : Type}
    (run : list string -> World -> string * World)
    (rank : string -> string -> nat)
    (st st' : list instance * World) (fs fs' : filesystem) :
  main run rank st fs = Ok (st', fs') ->
  let m := MarkedPackages.collect run st.2 in
  let g := LogsPackages.collect run m.2 in
  let s := SnapPackages.collect run g.2 in
  (forall key group,
     (key, group) ∈ backup_groups m.1 g.1 s.1 ->
     exists l,
       files fs' !! (cwd fs ++ [_BACKUP_FOLDER; key +:+ ".txt"]) =
         Some (backup_text l) /\
       l ≡ₚ elements group /\
       list_to_set (read_lines (backup_text l)) = group) /\
  (forall p,
     (forall key, key ∈ backup_keys ->
                  p <> cwd fs ++ [_BACKUP_FOLDER; key +:+ ".txt"]) ->
     files fs' !! p = files fs !! p).
Proof.
  intros H m g s. apply main_Ok in H. cbv zeta in H.
  destruct H as (_ & _ & Hsave). fold m g s in Hsave.
  assert (Forall file_name
            ((fun kv : string * gset string => (kv.1, yielded rank kv.1 kv.2)) <$>
               backup_groups m.1 g.1 s.1).*1) as Hkeys.
  { rewrite <- list_fmap_compose. apply backup_keys_names. }
  assert (NoDup
            ((fun kv : string * gset string => (kv.1, yielded rank kv.1 kv.2)) <$>
               backup_groups m.1 g.1 s.1).*1) as Hnd.
  { rewrite <- list_fmap_compose. apply backup_keys_NoDup. }
  split.
  - intros key group Hin. exists (yielded rank key group).
    assert (yielded rank key group ≡ₚ elements group) as Hperm
      by apply merge_sort_Permutation.
    split; [|split; [done|]].
    + apply (save_data_files _ fs fs' key _ Hkeys Hnd Hsave).
      apply list_elem_of_fmap. by exists (key, group).
    + rewrite read_lines_backup_text.
      * apply set_eq. intros x.
        by rewrite elem_of_list_to_set, Hperm, elem_of_elements.
      * apply Forall_forall. intros x Hx. rewrite Hperm in Hx.
        apply elem_of_elements in Hx.
        apply not_true_iff_false. rewrite contains_spec.
        apply (backup_groups_lines m.1 g.1 s.1 key group); try done.
        -- apply marked_collect_lines_ok.
        -- unfold s. rewrite snap_collect_parse. apply snap_parse_lines_ok.
  - intros p Hp. apply (save_data_frame _ fs fs' None p Hkeys Hsave).
    intros key Hkey. apply Hp.
    by rewrite <- list_fmap_compose in Hkey.
Qed.

(** One marked package with a dependency, one package in the log of the
    installer, the snap listing of the scenario; a file of another
    program is there before. *)
Lemma X14_witness :
  let w := [text ["vim"]; text ["Package: vim"; "Depends: libc6"]; "";
            text ["Package: bash"]; scenario_listing] in
  let fs := {| cwd := []; dirs := ∅; files := {[ ["notes.txt"] := "remember" ]} |} in
  exists st' fs',
    main canned (fun _ _ => 0) ([], w) fs = Ok (st', fs') /\
    files fs' !! ["backlibs"; "snap_pkgs.txt"] = Some (text ["some-editor"]) /\
    files fs' !! ["backlibs"; "full_dpnds.txt"] = Some (text ["libc6"]) /\
    files fs' !! ["notes.txt"] = Some "remember".
Proof.
  intros w fs.
  destruct (main_returns canned (fun _ _ => 0) ([], w) fs) as [fs' E];
    [constructor..| |].
  { split; [by vm_compute|]. split; [by vm_compute|].
    repeat constructor; by vm_compute. }
  eexists _, fs'. split; [exact E|].
  pose proof (X14_main_files canned (fun _ _ => 0) _ _ fs fs' E) as H.
  cbv zeta in H. destruct H as [Hfiles Hframe].
  split; [|split].
  - destruct (Hfiles "snap_pkgs" {["some-editor"]}) as (l & Hl & Hperm & _).
    + vm_compute. do 3 right. left.
    + rewrite elements_singleton in Hperm.
      apply Permutation_singleton_r in Hperm as ->. exact Hl.
  - destruct (Hfiles "full_dpnds" {["libc6"]}) as (l & Hl & Hperm & _).
    + vm_compute. do 5 right. left.
    + rewrite elements_singleton in Hperm.
      apply Permutation_singleton_r in Hperm as ->. exact Hl.
  - rewrite Hframe; [done|].
    intros key Hkey. unfold backup_keys in Hkey.
    repeat (apply elem_of_cons in Hkey as [->|Hkey]; [done|]).
    by apply elem_of_nil in Hkey.
Defined.

(** X15. The instances that the registry has on entry do not show in what
    [main] leaves: when it returns, it has written the files, and left the
    world, that it leaves when started with an empty registry, and the
    registry is the one on entry followed by the three instances of that
    run. *)
Theorem X15_main_ignores_earlier_instances {World : Type}
    (run : list string -> World -> string * World)
    (rank : string -> string -> nat)
    (st st' : list instance * World) (fs fs' : filesystem) :
  main run rank st fs = Ok (st', fs') ->
  exists fresh,
    main run rank ([], st.2) fs = Ok ((fresh, st'.2), fs') /\
    st'.1 = st.1 ++ fresh.
Proof.
  intros H. apply main_Ok in H. cbv zeta in H. destruct H as (_ & -> & Hsave).
  rewrite main_save by constructor. cbv zeta. cbn [fst snd app].
  rewrite Hsave. by eexists.
Qed.

(** From the registry of the scenarios on. *)
Lemma X15_witness :
  let w := [text ["vim"]; text ["Package: vim"; "Depends: libc6"]; "";
            text ["Package: bash"]; scenario_listing] in
  let fs := {| cwd := []; dirs := ∅; files := ∅ |} in
  exists st' fs' fresh,
    main canned (fun _ _ => 0) (scenario_registry, w) fs = Ok (st', fs') /\
    main canned (fun _ _ => 0) ([], w) fs = Ok ((fresh, st'.2), fs') /\
    st'.1 = scenario_registry ++ fresh.
Proof.
  intros w fs.
  destruct (main_returns canned (fun _ _ => 0) (scenario_registry, w) fs)
    as [fs' E]; [apply scenario_populated..| |].
  { split; [by vm_compute|]. split; [by vm_compute|].
    repeat constructor; by vm_compute. }
  destruct (X15_main_ignores_earlier_instances canned (fun _ _ => 0)
              _ _ fs fs' E) as (fresh & E0 & Hreg).
  eexists _, fs', fresh. split; [exact E|]. split; [exact E0|exact Hreg].
Defined.

(** X16. The processes of a call of [main] that returns, read off a world
    that records every command it is given: the listing of the marked
    packages, [apt show <line>] for every line of that listing, the log of
    the installer, the snap listing, in this order and nothing else; the
    recording changes nothing of what [main] leaves. *)
Theorem X16_main_commands {World : Type}
    (run : list string -> World -> string * World)
    (rank : string -> string -> nat)
    (st st' : list instance * World) (fs fs' : filesystem) :
  main run rank st fs = Ok (st', fs') ->
  exists log,
    main (traced run) rank (st.1, (st.2, [])) fs =
      Ok ((st'.1, (st'.2, log)), fs') /\
    log.*1 =
      ["apt-mark"; "showmanual"; "|"; "sort -u"]
      :: map (fun name => ["apt"; "show"; name])
           (PyStr.split PyStr.LF (run ["apt-mark"; "showmanual"; "|"; "sort -u"] st.2).1)
      ++ [["gzip"; "-dc"; "/var/log/installer/initial-status.gz"; "|"; "sort -u"];
          ["snap"; "list"]].
Proof.
  intros H. apply main_Ok in H. cbv zeta in H.
  destruct H as ((HM & HL & HS) & -> & Hsave).
  rewrite main_save by done. cbv zeta. cbn [fst snd].
  destruct (marked_collect_traced run st.2 []) as (infos & Hlen & -> & _).
  cbn [fst snd]. rewrite logs_collect_traced. cbn [fst snd].
  rewrite snap_collect_traced. cbn [fst snd].
  rewrite Hsave.
  eexists. split; [reflexivity|].
  rewrite !fmap_app, fmap_cons. cbn [app fst].
  rewrite fst_zip by by rewrite length_map, Hlen.
  rewrite <- app_assoc. reflexivity.
Qed.

(** One marked package: five processes. *)
Lemma X16_witness :
  let w := [text ["vim"]; text ["Package: vim"; "Depends: libc6"]; "";
            text ["Package: bash"]; scenario_listing] in
  let fs := {| cwd := []; dirs := ∅; files := ∅ |} in
  exists st' fs' log,
    main canned (fun _ _ => 0) ([], w) fs = Ok (st', fs') /\
    main (traced canned) (fun _ _ => 0) ([], (w, [])) fs =
      Ok ((st'.1, (st'.2, log)), fs') /\
    log.*1 =
      [["apt-mark"; "showmanual"; "|"; "sort -u"];
       ["apt"; "show"; "vim"]; ["apt"; "show"; ""];
       ["gzip"; "-dc"; "/var/log/installer/initial-status.gz"; "|"; "sort -u"];
       ["snap"; "list"]].
Proof.
  intros w fs.
  destruct (main_returns canned (fun _ _ => 0) ([], w) fs) as [fs' E];
    [constructor..| |].
  { split; [by vm_compute|]. split; [by vm_compute|].
    repeat constructor; by vm_compute. }
  destruct (X16_main_commands canned (fun _ _ => 0) _ _ fs fs' E)
    as (log & E' & Hlog).
  eexists _, fs', log. split; [exact E|]. split; [exact E'|].
  rewrite Hlog. reflexivity.
Defined.

(** ** Order, repetition and the header line *)

Module InputMore.
Import PackageManager PyStr PyStrFacts CollectorFacts LineFacts CollectMore.

Lemma attrs_eq (a b : attrs) :
  pkgs_names a = pkgs_names b -> pkgs_dpnds a = pkgs_dpnds b -> a = b.
Proof. destruct a, b. simpl. by intros -> ->. Qed.

Lemma finish_fold_ext (records records' : list string) :
  (forall record, record ∈ records <-> record ∈ records') ->
  finish (foldl LogsPackages.step ([], []) records).1
         (foldl LogsPackages.step ([], []) records).2 =
  finish (foldl LogsPackages.step ([], []) records').1
         (foldl LogsPackages.step ([], []) records').2.
Proof.
  intros Hsame.
  destruct (finish_fold records) as [Hd Hn].
  destruct (finish_fold records') as [Hd' Hn'].
  assert (forall x, (exists r, r ∈ records /\ record_dpnd r x) <->
                    (exists r, r ∈ records' /\ record_dpnd r x)) as Ed.
  { intros x. split; intros (r & Hr & Hx); exists r; by rewrite ?Hsame in *. }
  assert (forall x, (exists r, r ∈ records /\ record_name r x) <->
                    (exists r, r ∈ records' /\ record_name r x)) as En.
  { intros x. split; intros (r & Hr & Hx); exists r; by rewrite ?Hsame in *. }
  apply attrs_eq; apply set_eq; intros x.
  - by rewrite Hn, Hn', En, Ed.
  - by rewrite Hd, Hd', Ed.
Qed.

(** The lines of a text whose first line is [line]. *)
Lemma split_line (line rest : string) :
  contains LF line = false ->
  split LF (line +:+ LF +:+ rest) = line :: split LF rest.
Proof.
  induction line as [|c line IH]; intros Hfree.
  - by rewrite str_app_nil_l, split_here.
  - apply contains_LF_cons in Hfree as [Hc Hfree].
    rewrite str_app_cons. unfold LF at 1. rewrite split_char_cons.
    rewrite bool_decide_eq_false_2 by done.
    fold LF. by rewrite IH.
Qed.

End InputMore.

Import InputMore.

(** X17. What [LogsPackages.main] stores depends on which records the log
    has, not on their order and not on how often a record occurs. *)
Theorem X17_logs_records_as_a_set (raw raw' : string) :
  (forall record,
     record ∈ _separate_all_info raw <-> record ∈ _separate_all_info raw') ->
  LogsPackages.parse raw = LogsPackages.parse raw'.
Proof.
  intros Hsame. unfold LogsPackages.parse.
  pose proof (finish_fold_ext _ _ Hsame) as H.
  by destruct (foldl LogsPackages.step ([], []) (_separate_all_info raw)),
    (foldl LogsPackages.step ([], []) (_separate_all_info raw')).
Qed.

(** Two records, and the same two in the other order with one repeated. *)
Lemma X17_witness :
  LogsPackages.parse
    (PyStr.join (PyStr.LF +:+ PyStr.LF) ["Package: bash"; "Package: vim"]) =
  LogsPackages.parse
    (PyStr.join (PyStr.LF +:+ PyStr.LF)
       ["Package: vim"; "Package: bash"; "Package: vim"]).
Proof.
  apply X17_logs_records_as_a_set. intros record.
  change (record ∈ ["Package: bash"; "Package: vim"] <->
          record ∈ ["Package: vim"; "Package: bash"; "Package: vim"]).
  rewrite !elem_of_cons, elem_of_nil. tauto.
Defined.

(** X18. [SnapPackages.main] does not look at the first line of the
    listing: two listings that differ in it only give the same result, and
    a listing that is one line gives no names. *)
Theorem X18_snap_header (header header' rest raw : string) :
  (~ occurs_in PyStr.LF header -> ~ occurs_in PyStr.LF header' ->
   SnapPackages.parse (header +:+ PyStr.LF +:+ rest) =
   SnapPackages.parse (header' +:+ PyStr.LF +:+ rest)) /\
  (~ occurs_in PyStr.LF raw -> pkgs_names (SnapPackages.parse raw) = ∅).
Proof.
  split.
  - rewrite <- !contains_spec, !not_true_iff_false. intros Hh Hh'.
    unfold SnapPackages.parse, _separate_pkg_info.
    by rewrite !split_line.
  - rewrite <- contains_spec, not_true_iff_false. intros Hraw.
    unfold SnapPackages.parse, _separate_pkg_info.
    by rewrite split_absent.
Qed.

(** A listing under an English and under a German header, and a listing
    that is the header alone. *)
Lemma X18_witness :
  SnapPackages.parse ("Name Version" +:+ PyStr.LF +:+ "some-editor 2") =
    SnapPackages.parse ("Name Ausgabe" +:+ PyStr.LF +:+ "some-editor 2") /\
  pkgs_names (SnapPackages.parse "Name Version") = ∅.
Proof.
  split.
  - apply (proj1 (X18_snap_header "Name Version" "Name Ausgabe" "some-editor 2" ""));
      rewrite <- contains_spec; by vm_compute.
  - apply (proj2 (X18_snap_header "" "" "" "Name Version")).
    rewrite <- contains_spec. by vm_compute.
Defined.
